(** * 4x4 builder: command dispatch, validation and state reconciliation

    A shallow embedding of the JavaScript sources

    - [src/lib/function-call-mapper.js]   (modules [Mapper], [StructuredResponse]),
    - [src/lib/scene-handlers.js]         (module [SceneHandlers]),
    - the vehicle update handler          (module [UpdateHandler]),
    - the decal overlay click handler     (module [DecalOverlay]),

    together with the part of the JavaScript semantics these sources rely on
    (module [Js]) and the two collaborators that the sources import but do
    not define: the static catalog [vehicleConfigs] and the zustand store
    [useGameStore] (module [GameStore]). *)

From Stdlib Require Import QArith Ascii.
From stdpp Require Import gmap strings list fin_maps pretty.

#[local] Open Scope string_scope.

(* ===================================================================== *)
(** ** JavaScript values and the operators the sources use               *)
(* ===================================================================== *)

Module Js.

(** Numbers.  Finite doubles are idealised as rationals; [NaN] and the two
    infinities are kept because the sources test for them ([isNaN]) or can
    obtain them from [parseFloat].  Negative zero is not distinguished. *)
Inductive jsnum :=
| NaN
| Inf (negative : bool)
| Fin (q : Q).

(** Values: the JSON data the handlers receive (arrays excepted: wherever
    the sources iterate over an array the embedding uses a [list]), plus
    [VBuiltin k], the function or object that a lookup of the key [k]
    inherits from [Object.prototype]. *)
#[warnings="-register-all"]
Inductive jsval :=
| VUndef
| VNull
| VBool (b : bool)
| VNum (n : jsnum)
| VStr (s : string)
| VObj (o : gmap string jsval)
| VBuiltin (name : string).

(** Exceptions carry only their message. *)
Inductive exn :=
| TypeError
| Error (message : string).

Definition exn_message (e : exn) : string :=
  match e with
  | TypeError => "TypeError"
  | Error m => m
  end.

Inductive result (A : Type) :=
| Ok (a : A)
| Throw (e : exn).
Arguments Ok {A} a.
Arguments Throw {A} e.

#[export] Instance result_ret : MRet result := @Ok.
#[export] Instance result_bind : MBind result :=
  λ A B f r, match r with Ok a => f a | Throw e => Throw e end.

(** [ToBoolean]. *)
Definition num_truthy (n : jsnum) : bool :=
  match n with
  | NaN => false
  | Inf _ => true
  | Fin q => negb (Qeq_bool q 0)
  end.

Definition truthy (v : jsval) : bool :=
  match v with
  | VUndef | VNull => false
  | VBool b => b
  | VNum n => num_truthy n
  | VStr s => negb (String.eqb s "")
  | VObj _ | VBuiltin _ => true
  end.

(** [a || b] and [a !== undefined]. *)
Definition js_or (a b : jsval) : jsval := if truthy a then a else b.

Definition defined (v : jsval) : bool :=
  match v with VUndef => false | _ => true end.

Definition nullish (v : jsval) : bool :=
  match v with VUndef | VNull => true | _ => false end.

(** [typeof v]. *)
Definition typeof (v : jsval) : string :=
  match v with
  | VUndef => "undefined"
  | VNull | VObj _ => "object"
  | VBool _ => "boolean"
  | VNum _ => "number"
  | VStr _ => "string"
  | VBuiltin k => if String.eqb k "__proto__" then "object" else "function"
  end.

(** The property names every plain object inherits from
    [Object.prototype]. *)
Definition object_prototype_names : list string :=
  [ "constructor"; "__defineGetter__"; "__defineSetter__"; "hasOwnProperty";
    "__lookupGetter__"; "__lookupSetter__"; "isPrototypeOf";
    "propertyIsEnumerable"; "toString"; "valueOf"; "__proto__";
    "toLocaleString" ].

Definition is_inherited (k : string) : bool :=
  existsb (String.eqb k) object_prototype_names.

Definition object_prototype (k : string) : jsval :=
  if is_inherited k then VBuiltin k else VUndef.

(** Relational operators on numbers: every comparison with [NaN] is
    false. *)
Definition num_ltb (a b : jsnum) : bool :=
  match a, b with
  | NaN, _ | _, NaN => false
  | Inf true, Inf true => false
  | Inf true, _ => true
  | _, Inf true => false
  | Inf false, _ => false
  | Fin _, Inf false => true
  | Fin x, Fin y => negb (Qle_bool y x)
  end.

Definition num_gtb (a b : jsnum) : bool := num_ltb b a.

Definition isNaN (n : jsnum) : bool :=
  match n with NaN => true | _ => false end.

Definition num_of_Z (z : Z) : jsnum := Fin (inject_Z z).

(** [(value * 2.54) / 100]. *)
Definition num_scale (k : Q) (n : jsnum) : jsnum :=
  match n with
  | Fin q => Fin (Qred (q * k))
  | other => other
  end.

(** The own enumerable properties of an object, which is what a shallow
    merge copies. *)
Definition own_properties (v : jsval) : gmap string jsval :=
  match v with
  | VObj o => o
  | _ => ∅
  end.

(** What the sources take from the JavaScript run time: number printing and
    parsing, property reads on primitive and built-in values, whether
    [delete v[k]] on such a value throws (strict mode), and
    [String.prototype.trim].  The development is parametric in them. *)
Class JsRuntime := {
  num_to_string : jsnum → string;
  builtin_to_string : string → string;
  parse_float : string → jsnum;
  parse_int : string → jsnum;
  prim_get : jsval → string → jsval;
  prim_delete_throws : jsval → string → bool;
  str_trim : string → string;
}.

Section Operators.
Context {RT : JsRuntime}.

(** [ToString]; plain objects print as the default
    [Object.prototype.toString] does. *)
Definition to_string (v : jsval) : string :=
  match v with
  | VUndef => "undefined"
  | VNull => "null"
  | VBool true => "true"
  | VBool false => "false"
  | VNum n => num_to_string n
  | VStr s => s
  | VObj _ => "[object Object]"
  | VBuiltin k => builtin_to_string k
  end.

(** [v.k] and [v[k]]: own property first, then the prototype chain. *)
Definition get_prop (v : jsval) (k : string) : result jsval :=
  match v with
  | VUndef | VNull => Throw TypeError
  | VObj o =>
      Ok (match o !! k with
          | Some x => x
          | None => object_prototype k
          end)
  | _ => Ok (prim_get v k)
  end.

(** [v?.k]. *)
Definition opt_get (v : jsval) (k : string) : jsval :=
  match get_prop v k with
  | Ok x => x
  | Throw _ => VUndef
  end.

(** [table[key]] on one of the catalog or store objects. *)
Definition index (table : gmap string jsval) (key : jsval) : jsval :=
  match table !! to_string key with
  | Some x => x
  | None => object_prototype (to_string key)
  end.

(** [parseFloat(v)], [parseInt(v)]: both start with [ToString]. *)
Definition parseFloat (v : jsval) : jsnum := parse_float (to_string v).
Definition parseInt (v : jsval) : jsnum := parse_int (to_string v).

(** [value < lo || value > hi], preceded by [isNaN(value)]. *)
Definition out_of_range (value : jsnum) (lo hi : Z) : bool :=
  isNaN value || num_ltb value (num_of_Z lo) || num_gtb value (num_of_Z hi).

(** [/^#[0-9A-F]{6}$/i.test(v)]. *)
Definition is_hex_digit (a : ascii) : bool :=
  let n := nat_of_ascii a in
  (((48 <=? n) && (n <=? 57)) || ((65 <=? n) && (n <=? 70))
   || ((97 <=? n) && (n <=? 102)))%nat.

Definition hex_color_string (s : string) : bool :=
  match s with
  | String "#" rest =>
      (String.length rest =? 6)%nat && forallb is_hex_digit (String.list_ascii_of_string rest)
  | _ => false
  end.

Definition hex_color_test (v : jsval) : bool := hex_color_string (to_string v).

(** [v === "literal"]. *)
Definition is_str (v : jsval) (lit : string) : bool :=
  match v with
  | VStr s => String.eqb s lit
  | _ => false
  end.

End Operators.

(** *** A reference run time

    Used to evaluate the definitions on concrete inputs.  It prints and
    parses plain decimal numerals, which is all the examples need. *)

Fixpoint frac_digits (fuel : nat) (num : Z) (den : Z) : string :=
  match fuel with
  | O => ""
  | S fuel' =>
      if (num =? 0)%Z then ""
      else pretty ((num * 10) / den)%Z +:+ frac_digits fuel' ((num * 10) mod den)%Z den
  end.

Definition ref_num_to_string (n : jsnum) : string :=
  match n with
  | NaN => "NaN"
  | Inf true => "-Infinity"
  | Inf false => "Infinity"
  | Fin q =>
      let num := Qnum q in
      let den := Z.pos (Qden q) in
      let ip := (Z.abs num / den)%Z in
      let fr := (Z.abs num mod den)%Z in
      (if (num <? 0)%Z then "-" else "")
      +:+ pretty ip
      +:+ (if (fr =? 0)%Z then "" else "." +:+ frac_digits 17 fr den)
  end.

Definition digit_of (a : ascii) : option Z :=
  let n := nat_of_ascii a in
  if ((48 <=? n) && (n <=? 57))%nat then Some (Z.of_nat (n - 48)) else None.

(** Longest prefix of decimal digits: value, number of digits, rest. *)
Fixpoint read_digits (s : string) (acc : Z) (count : nat) : Z * nat * string :=
  match s with
  | String a rest =>
      match digit_of a with
      | Some d => read_digits rest (acc * 10 + d)%Z (S count)
      | None => (acc, count, s)
      end
  | EmptyString => (acc, count, s)
  end.

Definition is_space (a : ascii) : bool :=
  let n := nat_of_ascii a in
  ((n =? 32) || ((9 <=? n) && (n <=? 13)))%nat.

Fixpoint skip_spaces (s : string) : string :=
  match s with
  | String a rest => if is_space a then skip_spaces rest else s
  | EmptyString => s
  end.

Definition read_sign (s : string) : bool * string :=
  match s with
  | String "-" rest => (true, rest)
  | String "+" rest => (false, rest)
  | _ => (false, s)
  end.

Definition signed (neg : bool) (q : Q) : Q := if neg then Qopp q else q.

Definition ref_parse_int (s : string) : jsnum :=
  let '(neg, body) := read_sign (skip_spaces s) in
  let '(v, n, _) := read_digits body 0 0 in
  if (n =? 0)%nat then NaN else Fin (signed neg (inject_Z v)).

Definition ref_parse_float (s : string) : jsnum :=
  let '(neg, body) := read_sign (skip_spaces s) in
  if String.prefix "Infinity" body then Inf neg
  else
    let '(ip, n, rest) := read_digits body 0 0 in
    match rest with
    | String "." frac =>
        let '(fp, m, _) := read_digits frac 0 0 in
        if (n + m =? 0)%nat then NaN
        else Fin (signed neg (Qred (Qplus (inject_Z ip) (Qmake fp (Pos.pow 10 (Pos.of_nat m))))))
    | _ => if (n =? 0)%nat then NaN else Fin (signed neg (inject_Z ip))
    end.

Definition string_index (s : string) (k : string) : option nat :=
  find (λ i, String.eqb k (pretty i)) (seq 0 (String.length s)).

Definition ref_prim_get (v : jsval) (k : string) : jsval :=
  match v with
  | VStr s =>
      if String.eqb k "length" then VNum (num_of_Z (Z.of_nat (String.length s)))
      else match string_index s k with
           | Some i => VStr (String.substring i 1 s)
           | None => object_prototype k
           end
  | VBuiltin f =>
      if String.eqb k "name" then
        (if String.eqb f "__proto__" then VUndef
         else if String.eqb f "constructor" then VStr "Object"
         else VStr f)
      else object_prototype k
  | _ => object_prototype k
  end.

Definition ref_builtin_to_string (k : string) : string :=
  if String.eqb k "__proto__" then "[object Object]"
  else "function " +:+ (if String.eqb k "constructor" then "Object" else k)
       +:+ "() { [native code] }".

Definition ref_prim_delete_throws (v : jsval) (k : string) : bool :=
  match v with
  | VStr s => String.eqb k "length" || bool_decide (is_Some (string_index s k))
  | _ => false
  end.

Definition ref_trim (s : string) : string :=
  String.rev (skip_spaces (String.rev (skip_spaces s))).

Definition refRuntime : JsRuntime := {|
  num_to_string := ref_num_to_string;
  builtin_to_string := ref_builtin_to_string;
  parse_float := ref_parse_float;
  parse_int := ref_parse_int;
  prim_get := ref_prim_get;
  prim_delete_throws := ref_prim_delete_throws;
  str_trim := ref_trim;
|}.

(** *** Spreading and comparing *)

(** [{ ...v }] and [Object.entries(v)]: the own enumerable properties of a
    value; a string has its characters, by index. *)
Definition spread (v : jsval) : gmap string jsval :=
  match v with
  | VObj o => o
  | VStr s =>
      list_to_map (imap (λ i c, (pretty i, VStr (String c EmptyString)))
                     (String.list_ascii_of_string s))
  | _ => ∅
  end.

(** [a <= b] on numbers: false as soon as one of them is [NaN]. *)
Definition num_leb (a b : jsnum) : bool :=
  negb (isNaN a) && negb (isNaN b) && negb (num_ltb b a).

Section Comparison.
Context {RT : JsRuntime}.
(** [Number(s)] on a string, taken from the run time. *)
Variable string_to_number : string → jsnum.

(** [ToPrimitive] with the default hint. *)
Definition to_primitive (v : jsval) : jsval :=
  match v with
  | VObj _ | VBuiltin _ => VStr (to_string v)
  | _ => v
  end.

(** [ToNumber] of a primitive value. *)
Definition to_number (v : jsval) : jsnum :=
  match v with
  | VUndef => NaN
  | VNull => num_of_Z 0
  | VBool b => num_of_Z (if b then 1 else 0)
  | VNum n => n
  | VStr s => string_to_number s
  | VObj _ | VBuiltin _ => NaN
  end.

(** [a <= b] on values: two strings compare by code units, any other pair
    as numbers. *)
Definition js_le (a b : jsval) : bool :=
  match to_primitive a, to_primitive b with
  | VStr s, VStr t => String.leb s t
  | pa, pb => num_leb (to_number pa) (to_number pb)
  end.

(** [v * k] for a rational constant [k]. *)
Definition js_scale (k : Q) (v : jsval) : jsnum :=
  num_scale k (to_number (to_primitive v)).

End Comparison.

End Js.

(* ===================================================================== *)
(** ** The collaborators the sources import                              *)
(* ===================================================================== *)

Module GameStore.
Import Js.

(** The static catalog [vehicleConfigs]: the tables [vehicles],
    [wheels.rims], [wheels.tires] (identifier to entry) and the [defaults]
    configuration.  It is a parameter of the handlers. *)
Record Catalog := {
  vehicles : gmap string jsval;
  rims : gmap string jsval;
  tires : gmap string jsval;
  defaults : gmap string jsval;
}.

(** The part of the store the handlers read and write. *)
Record Store := {
  currentVehicle : gmap string jsval;
  savedVehicles : gmap string jsval;
}.

(** The handlers run against the store and may throw: a computation maps
    the store to the store it leaves behind and a value or an exception. *)
Definition M (A : Type) : Type := Store → Store * result A.

#[export] Instance M_ret : MRet M := λ A a s, (s, Ok a).
#[export] Instance M_bind : MBind M :=
  λ A B f m s,
    match m s with
    | (s', Ok a) => f a s'
    | (s', Throw e) => (s', Throw e)
    end.

Definition lift {A} (r : result A) : M A := λ s, (s, r).
Definition throw {A} (e : exn) : M A := λ s, (s, Throw e).

(** [useGameStore.getState()] *)
Definition getState : M Store := λ s, (s, Ok s).

(** [try { body } catch (error) { handler }] *)
Definition try_catch {A} (body : M A) (handler : exn → M A) : M A :=
  λ s,
    match body s with
    | (s', Ok a) => (s', Ok a)
    | (s', Throw e) => handler e s'
    end.

(** Modelled from the spec: the store action [setVehicle] of
    [store/gameStore], which the sources call but do not contain.  The spec
    describes it as accepting "either a partial object merged shallowly, or
    a mutator function applied to a draft".  [setVehicle] is the first form:
    every key of [updates] replaces or adds the key of the configuration. *)
Definition setVehicle (updates : gmap string jsval) : M unit :=
  λ s, ({| currentVehicle := updates ∪ currentVehicle s;
           savedVehicles := savedVehicles s |}, Ok tt).

(** Modelled from the spec: the second form of [setVehicle], a mutator
    applied to a draft of the configuration; when the mutator throws the
    draft is dropped and the configuration stays as it was. *)
Definition setVehicleWith (mutator : gmap string jsval → result (gmap string jsval))
    : M unit :=
  λ s,
    match mutator (currentVehicle s) with
    | Ok v => ({| currentVehicle := v; savedVehicles := savedVehicles s |}, Ok tt)
    | Throw e => (s, Throw e)
    end.

(** Modelled from the spec: the saved-vehicle store's [set(updaterFn)]. *)
Definition setSavedVehicles (updater : gmap string jsval → gmap string jsval)
    : M unit :=
  λ s, ({| currentVehicle := currentVehicle s;
           savedVehicles := updater (savedVehicles s) |}, Ok tt).

(** The fields of a VehicleConfiguration. *)
Definition vehicle_fields : gset string :=
  list_to_set
    [ "body"; "lift"; "color"; "roughness"; "addons"; "wheel_offset"; "rim";
      "rim_color"; "rim_color_secondary"; "rim_diameter"; "rim_width"; "tire";
      "tire_diameter"; "spare" ].
#[global] Arguments vehicle_fields : simpl never.

(** [vehicle.k] on the configuration object. *)
Definition field (vehicle : gmap string jsval) (k : string) : jsval :=
  match vehicle !! k with
  | Some x => x
  | None => object_prototype k
  end.

(** *** A catalog excerpt for the examples

    The identifiers are those used by the test-suite and the function-call
    documentation of the repository. *)
Definition entry (name make : string) : jsval :=
  VObj (<["name" := VStr name]> (<["make" := VStr make]> ∅)).

Definition addon_slot (options : list (string * string)) : jsval :=
  VObj {[ "options" :=
          VObj (list_to_map (prod_map id (λ n, VObj {[ "name" := VStr n ]}) <$> options)) ]}.

Definition sampleAddons : jsval :=
  VObj (<["bumper_f" := addon_slot [("stock", "Stock"); ("shrockworks", "Shrockworks")]]>
       (<["sliders" := addon_slot [("steel", "Steel")]]>
       (<["rack" := addon_slot [("whitson", "Whitson")]]> ∅))).

Definition sampleVehicle (name make : string) (default_addons : gmap string jsval)
    (addons : jsval) : jsval :=
  VObj (<["name" := VStr name]> (<["make" := VStr make]>
       (<["default_addons" := VObj default_addons]> (<["addons" := addons]> ∅)))).

Definition sampleDefaults : gmap string jsval :=
  list_to_map
    [ ("body", VStr "toyota_4runner_5g"); ("lift", VNum (num_of_Z 0));
      ("color", VStr "#B91818"); ("roughness", VNum (num_of_Z 0));
      ("addons", VObj ∅); ("wheel_offset", VNum (num_of_Z 0));
      ("rim", VStr "toyota_4runner_5thgen"); ("rim_color", VStr "silver");
      ("rim_color_secondary", VStr "silver");
      ("rim_diameter", VNum (num_of_Z 17)); ("rim_width", VNum (num_of_Z 10));
      ("tire", VStr "bfg_at"); ("tire_diameter", VNum (num_of_Z 32));
      ("spare", VBool true) ].

Definition sampleCatalog : Catalog := {|
  vehicles :=
    list_to_map
      [ ("toyota_4runner_5g", sampleVehicle "Toyota 4Runner" "Toyota" ∅ VUndef);
        ("toyota_4runner_3g",
         sampleVehicle "Toyota 4Runner (3rd gen)" "Toyota"
           {[ "bumper_f" := VStr "stock" ]} sampleAddons);
        ("jeep_jku", sampleVehicle "Jeep Wrangler JKU" "Jeep" ∅ VUndef) ];
  rims :=
    list_to_map
      [ ("toyota_4runner_5thgen", entry "4Runner OEM" "Toyota");
        ("toyota_trd", entry "TRD" "Toyota");
        ("xd_grenade", entry "Grenade" "XD") ];
  tires :=
    list_to_map
      [ ("bfg_at", entry "All-Terrain T/A" "BFGoodrich");
        ("bfg_km3", entry "Mud-Terrain KM3" "BFGoodrich") ];
  defaults := sampleDefaults;
|}.

Definition sampleStore : Store :=
  {| currentVehicle := sampleDefaults; savedVehicles := ∅ |}.

End GameStore.

(* ===================================================================== *)
(** ** src/lib/function-call-mapper.js                                   *)
(* ===================================================================== *)

Module Mapper.
Import Js.

(** The [command_type] literals of the two [switch] statements. *)
Inductive CommandType :=
| ChangeModel | ChangeColor | AdjustLift | ChangeRims | ChangeTires
| ChangeWheelSetup | AddBumper | AddSliders | AddRoofRack | ToggleSpareTire
| ResetVehicle.

Definition command_name (c : CommandType) : string :=
  match c with
  | ChangeModel => "change_model"
  | ChangeColor => "change_color"
  | AdjustLift => "adjust_lift"
  | ChangeRims => "change_rims"
  | ChangeTires => "change_tires"
  | ChangeWheelSetup => "change_wheel_setup"
  | AddBumper => "add_bumper"
  | AddSliders => "add_sliders"
  | AddRoofRack => "add_roof_rack"
  | ToggleSpareTire => "toggle_spare_tire"
  | ResetVehicle => "reset_vehicle"
  end.

Definition all_commands : list CommandType :=
  [ ChangeModel; ChangeColor; AdjustLift; ChangeRims; ChangeTires;
    ChangeWheelSetup; AddBumper; AddSliders; AddRoofRack; ToggleSpareTire;
    ResetVehicle ].

(** [switch (commandType) { case '...': ... default: ... }]: the case that a
    value selects by strict equality, [None] for [default]. *)
Definition switch_case (v : jsval) : option CommandType :=
  match v with
  | VStr s => find (λ c, String.eqb s (command_name c)) all_commands
  | _ => None
  end.

(** A vehicle update command. *)
Record Command := {
  command_type : jsval;
  parameters : jsval;
  description : jsval;
  client_id : jsval;
  function_call_id : jsval;
}.

(** The alias table of [mapFunctionNameToCommandType]. *)
Definition mapping : gmap string jsval :=
  list_to_map (prod_map id (λ c, VStr (command_name c)) <$>
    [ ("change_vehicle_model", ChangeModel);
      ("set_vehicle_model", ChangeModel);
      ("switch_vehicle", ChangeModel);
      ("change_vehicle_color", ChangeColor);
      ("set_vehicle_color", ChangeColor);
      ("change_paint", ChangeColor);
      ("set_color", ChangeColor);
      ("adjust_lift", AdjustLift);
      ("set_lift", AdjustLift);
      ("change_lift", AdjustLift);
      ("adjust_suspension", AdjustLift);
      ("change_rims", ChangeRims);
      ("set_rims", ChangeRims);
      ("change_wheels", ChangeRims);
      ("change_tires", ChangeTires);
      ("set_tires", ChangeTires);
      ("change_wheel_setup", ChangeWheelSetup);
      ("adjust_wheel_setup", ChangeWheelSetup);
      ("add_bumper", AddBumper);
      ("change_bumper", AddBumper);
      ("set_bumper", AddBumper);
      ("add_sliders", AddSliders);
      ("change_sliders", AddSliders);
      ("set_sliders", AddSliders);
      ("add_roof_rack", AddRoofRack);
      ("add_rack", AddRoofRack);
      ("change_rack", AddRoofRack);
      ("set_rack", AddRoofRack);
      ("toggle_spare_tire", ToggleSpareTire);
      ("set_spare_tire", ToggleSpareTire);
      ("show_spare_tire", ToggleSpareTire);
      ("hide_spare_tire", ToggleSpareTire);
      ("reset_vehicle", ResetVehicle);
      ("reset_to_defaults", ResetVehicle) ]).
#[global] Arguments mapping : simpl never.

Section WithRuntime.
Context {RT : JsRuntime}.

(** [return mapping[functionName] || null] *)
Definition mapFunctionNameToCommandType (functionName : jsval) : jsval :=
  js_or (index mapping functionName) VNull.

Definition generateDescription (functionName args : jsval) : result string :=
  let commandType := mapFunctionNameToCommandType functionName in
  match switch_case commandType with
  | Some ChangeModel =>
      model_id ← get_prop args "model_id";
      Ok ("Changed vehicle to " +:+ to_string (js_or model_id (VStr "new model")))
  | Some ChangeColor =>
      color ← get_prop args "color";
      roughness ← get_prop args "roughness";
      if truthy color && defined roughness then
        Ok ("Changed color to " +:+ to_string color +:+ " with roughness "
            +:+ to_string roughness)
      else if truthy color then Ok ("Changed color to " +:+ to_string color)
      else if defined roughness then
        Ok ("Changed paint roughness to " +:+ to_string roughness)
      else Ok "Changed vehicle appearance"
  | Some AdjustLift =>
      lift_height ← get_prop args "lift_height";
      lift ← get_prop args "lift";
      Ok ("Adjusted lift to "
          +:+ to_string (js_or (js_or lift_height lift) (VNum (num_of_Z 0)))
          +:+ " inches")
  | Some ChangeRims =>
      rim_id ← get_prop args "rim_id";
      Ok ("Changed rims to " +:+ to_string (js_or rim_id (VStr "new rims")))
  | Some ChangeTires =>
      tire_id ← get_prop args "tire_id";
      Ok ("Changed tires to " +:+ to_string (js_or tire_id (VStr "new tires")))
  | Some ChangeWheelSetup => Ok "Updated wheel configuration"
  | Some AddBumper =>
      bumper_type ← get_prop args "bumper_type";
      type ← get_prop args "type";
      Ok ("Set bumper to " +:+ to_string (js_or (js_or bumper_type type) (VStr "custom")))
  | Some AddSliders =>
      slider_type ← get_prop args "slider_type";
      type ← get_prop args "type";
      Ok ("Set sliders to " +:+ to_string (js_or (js_or slider_type type) (VStr "custom")))
  | Some AddRoofRack =>
      rack_type ← get_prop args "rack_type";
      type ← get_prop args "type";
      Ok ("Set roof rack to " +:+ to_string (js_or (js_or rack_type type) (VStr "custom")))
  | Some ToggleSpareTire =>
      enabled ← get_prop args "enabled";
      Ok (if truthy enabled then "Enabled spare tire" else "Disabled spare tire")
  | Some ResetVehicle => Ok "Reset vehicle to defaults"
  | None => Ok ("Executed " +:+ to_string functionName)
  end.

Definition transformParameters (commandType args : jsval) : result jsval :=
  match switch_case commandType with
  | Some ChangeModel =>
      model_id ← get_prop args "model_id";
      Ok (VObj {[ "model_id" := model_id ]})
  | Some ChangeColor =>
      color ← get_prop args "color";
      roughness ← get_prop args "roughness";
      Ok (VObj (<["color" := color]> {[ "roughness" := roughness ]}))
  | Some AdjustLift =>
      lift_height ← get_prop args "lift_height";
      lift ← get_prop args "lift";
      Ok (VObj {[ "lift_height" := js_or (js_or lift_height lift) (VNum (num_of_Z 0)) ]})
  | Some ChangeRims =>
      rim_id ← get_prop args "rim_id";
      color ← get_prop args "color";
      rim_color ← get_prop args "rim_color";
      secondary_color ← get_prop args "secondary_color";
      rim_color_secondary ← get_prop args "rim_color_secondary";
      Ok (VObj (<["rim_id" := rim_id]>
               (<["color" := js_or color rim_color]>
                {[ "secondary_color" := js_or secondary_color rim_color_secondary ]})))
  | Some ChangeTires =>
      tire_id ← get_prop args "tire_id";
      diameter ← get_prop args "diameter";
      tire_diameter ← get_prop args "tire_diameter";
      Ok (VObj (<["tire_id" := tire_id]> {[ "diameter" := js_or diameter tire_diameter ]}))
  | Some ChangeWheelSetup =>
      rim_diameter ← get_prop args "rim_diameter";
      rim_width ← get_prop args "rim_width";
      tire_diameter ← get_prop args "tire_diameter";
      Ok (VObj (<["rim_diameter" := rim_diameter]>
               (<["rim_width" := rim_width]> {[ "tire_diameter" := tire_diameter ]})))
  | Some AddBumper =>
      bumper_type ← get_prop args "bumper_type";
      type ← get_prop args "type";
      Ok (VObj {[ "bumper_type" := js_or bumper_type type ]})
  | Some AddSliders =>
      slider_type ← get_prop args "slider_type";
      type ← get_prop args "type";
      Ok (VObj {[ "slider_type" := js_or slider_type type ]})
  | Some AddRoofRack =>
      rack_type ← get_prop args "rack_type";
      type ← get_prop args "type";
      Ok (VObj {[ "rack_type" := js_or rack_type type ]})
  | Some ToggleSpareTire =>
      enabled ← get_prop args "enabled";
      Ok (VObj {[ "enabled" := if defined enabled then enabled else VBool true ]})
  | Some ResetVehicle => Ok (VObj ∅)
  | None => Ok args
  end.

Definition parseFunctionCall (functionCall : jsval) : result (option Command) :=
  if negb (truthy functionCall) then Ok None
  else
    name ← get_prop functionCall "name";
    if negb (truthy name) then Ok None
    else
      args ← get_prop functionCall "args";
      id ← get_prop functionCall "id";
      let commandType := mapFunctionNameToCommandType name in
      if negb (truthy commandType) then Ok None
      else
        parameters ← transformParameters commandType (js_or args (VObj ∅));
        description ← generateDescription name (js_or args (VObj ∅));
        Ok (Some {| command_type := commandType;
                    parameters := parameters;
                    description := VStr description;
                    client_id := js_or (opt_get args "client_id") (VStr "default");
                    function_call_id := id |}).

(** A part of a message: an object that may carry a [functionCall]. *)
Record Part := { part_functionCall : jsval }.

(** The event payload: its own [functionCall], the array [content.parts]
    and the array [parts], the latter two [None] when the payload has no
    array there. *)
Record EventData := {
  functionCall : jsval;
  content_parts : option (list Part);
  parts : option (list Part);
}.

(** [for (const part of parts) if (part.functionCall) { ...push... }] *)
Fixpoint scan_parts (ps : list Part) (commands : list Command) : result (list Command) :=
  match ps with
  | [] => Ok commands
  | part :: rest =>
      if truthy (part_functionCall part) then
        command ← parseFunctionCall (part_functionCall part);
        scan_parts rest (match command with
                         | Some c => commands ++ [c]
                         | None => commands
                         end)
      else scan_parts rest commands
  end.

Definition parseFunctionCallsFromEvent (eventData : option EventData)
    : result (list Command) :=
  match eventData with
  | None => Ok []
  | Some ev =>
      commands ←
        (if truthy (functionCall ev) then
           command ← parseFunctionCall (functionCall ev);
           Ok (match command with Some c => [c] | None => [] end)
         else Ok []);
      commands ←
        match content_parts ev with
        | Some ps => scan_parts ps commands
        | None => Ok commands
        end;
      match parts ev with
      | Some ps => scan_parts ps commands
      | None => Ok commands
      end
  end.

(** The [content] of a message: the array [content.parts] ([None] when it
    is no array) and [content.functionCall]. *)
Record Content := {
  message_parts : option (list Part);
  message_functionCall : jsval;
}.

(** [parseFunctionCallsFromMessage(message)]; the argument is [None] for a
    falsy message or a message without a (truthy) [content]. *)
Definition parseFunctionCallsFromMessage (content : option Content)
    : result (list Command) :=
  match content with
  | None => Ok []
  | Some content =>
      commands ←
        match message_parts content with
        | Some ps => scan_parts ps []
        | None => Ok []
        end;
      if truthy (message_functionCall content) then
        command ← parseFunctionCall (message_functionCall content);
        Ok (match command with
            | Some c => (commands ++ [c])%list
            | None => commands
            end)
      else Ok commands
  end.

End WithRuntime.
End Mapper.

(* ===================================================================== *)
(** ** src/lib/scene-handlers.js                                         *)
(* ===================================================================== *)

Module SceneHandlers.
Import Js GameStore.

(** The result envelope [{success, data?, error?, ...hint}]; [hint] is the
    extra list of valid alternatives some failures carry
    ([availableModels], [availableRims], ...). *)
Record HandlerResult := {
  success : bool;
  data : jsval;
  error : option string;
  hint : option (string * list string);
}.

Definition succeeded (d : jsval) : HandlerResult :=
  {| success := true; data := d; error := None; hint := None |}.

Definition failed (message : string) : HandlerResult :=
  {| success := false; data := VUndef; error := Some message; hint := None |}.

Definition failed_with (message name : string) (keys : list string) : HandlerResult :=
  {| success := false; data := VUndef; error := Some message;
     hint := Some (name, keys) |}.

(** [Object.keys(o)] (the enumeration order of the keys is not modelled). *)
Definition object_keys (o : gmap string jsval) : list string := (map_to_list o).*1.

Record Range := { MIN : Z; MAX : Z; DEFAULT : Z }.

Definition LIFT_RANGE : Range := {| MIN := 0; MAX := 6; DEFAULT := 0 |}.
Definition RIM_DIAMETER_RANGE : Range := {| MIN := 15; MAX := 20; DEFAULT := 17 |}.
Definition RIM_WIDTH_RANGE : Range := {| MIN := 7; MAX := 12; DEFAULT := 10 |}.
Definition TIRE_DIAMETER_RANGE : Range := {| MIN := 28; MAX := 40; DEFAULT := 32 |}.
Definition ROUGHNESS_RANGE : Range := {| MIN := 0; MAX := 1; DEFAULT := 0 |}.

Section WithCatalog.
Context {RT : JsRuntime}.
Variable vehicleConfigs : Catalog.

Definition VEHICLE_MODELS : list string := object_keys (vehicles vehicleConfigs).
Definition RIM_MODELS : list string := object_keys (rims vehicleConfigs).
Definition TIRE_MODELS : list string := object_keys (tires vehicleConfigs).

(** [isNaN(value) || value < R.MIN || value > R.MAX] *)
Definition outside (value : jsnum) (r : Range) : bool :=
  out_of_range value (MIN r) (MAX r).

(** [catch (error) { return { success: false, error: error.message } }] *)
Definition report (e : exn) : M HandlerResult := mret (failed (exn_message e)).

Definition getCurrentVehicle : M (gmap string jsval) :=
  s ← getState; mret (currentVehicle s).

Definition getVehicleBody : M jsval :=
  vehicle ← getCurrentVehicle;
  let bodyId := field vehicle "body" in
  let config := index (vehicles vehicleConfigs) bodyId in
  mret (VObj (list_to_map
    [ ("id", bodyId);
      ("name", js_or (opt_get config "name") (VStr "Unknown"));
      ("make", js_or (opt_get config "make") (VStr "Unknown"));
      ("model", js_or (opt_get config "model") (VStr ""));
      ("wheelOffset", js_or (opt_get config "wheel_offset") (VNum (num_of_Z 0)));
      ("wheelbase", js_or (opt_get config "wheelbase") (VNum (num_of_Z 0)));
      ("defaultAddons", js_or (opt_get config "default_addons") (VObj ∅));
      ("availableAddons", js_or (opt_get config "addons") (VObj ∅)) ])).

Definition setVehicleBody (modelId : jsval) : M HandlerResult :=
  try_catch
    (if negb (truthy (index (vehicles vehicleConfigs) modelId)) then
       mret (failed_with ("Invalid vehicle model: " +:+ to_string modelId)
               "availableModels" VEHICLE_MODELS)
     else
       _ ← setVehicle {[ "body" := modelId ]};
       body ← getVehicleBody;
       mret (succeeded body))
    report.

Definition setVehicleColor (color : jsval) : M HandlerResult :=
  try_catch
    (if negb (hex_color_test color) then
       mret (failed ("Invalid color format: " +:+ to_string color
                     +:+ ". Use hex format like #FF0000"))
     else
       _ ← setVehicle {[ "color" := color ]};
       mret (succeeded (VObj {[ "color" := color ]})))
    report.

Definition setVehicleRoughness (roughness : jsval) : M HandlerResult :=
  try_catch
    (let value := parseFloat roughness in
     if outside value ROUGHNESS_RANGE then
       mret (failed ("Invalid roughness: " +:+ to_string roughness
                     +:+ ". Must be between " +:+ pretty (MIN ROUGHNESS_RANGE)
                     +:+ " and " +:+ pretty (MAX ROUGHNESS_RANGE)))
     else
       _ ← setVehicle {[ "roughness" := VNum value ]};
       mret (succeeded (VObj {[ "roughness" := VNum value ]})))
    report.

(** The shape shared by the multi-field setters:
    [if (v !== undefined) { if (<invalid>) errors.push(msg) else updates[key] = value }] *)
Definition check_field (v : jsval) (invalid : bool) (message key : string)
    (value : jsval) (acc : gmap string jsval * list string)
    : gmap string jsval * list string :=
  if defined v then
    if invalid then (acc.1, (acc.2 ++ [message])%list)
    else (<[key := value]> acc.1, acc.2)
  else acc.

(** [color !== 'silver'] joined to the failed hex test. *)
Definition bad_rim_color (color : jsval) : bool :=
  negb (hex_color_test color) && negb (is_str color "silver").

(** [errors.join(', ')] *)
Definition join (errors : list string) : string := String.concat ", " errors.

Definition setVehicleAppearance (params : jsval) : M HandlerResult :=
  color ← lift (get_prop params "color");
  roughness ← lift (get_prop params "roughness");
  let acc := (∅, []) in
  let acc :=
    check_field color (negb (hex_color_test color))
      ("Invalid color format: " +:+ to_string color) "color" color acc in
  let value := parseFloat roughness in
  let acc :=
    check_field roughness (outside value ROUGHNESS_RANGE)
      ("Invalid roughness: " +:+ to_string roughness) "roughness" (VNum value) acc in
  let '(updates, errors) := acc in
  if (0 <? length errors)%nat then mret (failed (join errors))
  else if (size updates =? 0)%nat then
    mret (failed "No valid appearance parameters provided")
  else
    try_catch
      (_ ← setVehicle updates; mret (succeeded (VObj updates)))
      report.

Definition setVehicleLift (liftInches : jsval) : M HandlerResult :=
  try_catch
    (let value := parseFloat liftInches in
     if outside value LIFT_RANGE then
       mret (failed ("Invalid lift height: " +:+ to_string liftInches
                     +:+ ". Must be between " +:+ pretty (MIN LIFT_RANGE)
                     +:+ " and " +:+ pretty (MAX LIFT_RANGE) +:+ " inches"))
     else
       _ ← setVehicle {[ "lift" := VNum value ]};
       mret (succeeded (VObj (<["liftInches" := VNum value]>
                              {[ "liftMeters" := VNum (num_scale (254 # 10000) value) ]}))))
    report.

Definition setRim (rimId : jsval) : M HandlerResult :=
  try_catch
    (if negb (truthy (index (rims vehicleConfigs) rimId)) then
       mret (failed_with ("Invalid rim model: " +:+ to_string rimId)
               "availableRims" RIM_MODELS)
     else
       _ ← setVehicle {[ "rim" := rimId ]};
       name ← lift (get_prop (index (rims vehicleConfigs) rimId) "name");
       make ← lift (get_prop (index (rims vehicleConfigs) rimId) "make");
       mret (succeeded (VObj (<["id" := rimId]> (<["name" := name]> {[ "make" := make ]})))))
    report.

Definition setRimColor (color : jsval) : M HandlerResult :=
  try_catch
    (if bad_rim_color color then
       mret (failed ("Invalid color format: " +:+ to_string color
                     +:+ ". Use hex format like #FF0000 or 'silver'"))
     else
       _ ← setVehicle {[ "rim_color" := color ]};
       mret (succeeded (VObj {[ "color" := color ]})))
    report.

Definition setRimColorSecondary (color : jsval) : M HandlerResult :=
  try_catch
    (if bad_rim_color color then
       mret (failed ("Invalid color format: " +:+ to_string color
                     +:+ ". Use hex format like #FF0000 or 'silver'"))
     else
       _ ← setVehicle {[ "rim_color_secondary" := color ]};
       mret (succeeded (VObj {[ "color" := color ]})))
    report.

Definition setRimDiameter (diameter : jsval) : M HandlerResult :=
  try_catch
    (let value := parseInt diameter in
     if outside value RIM_DIAMETER_RANGE then
       mret (failed ("Invalid rim diameter: " +:+ to_string diameter
                     +:+ ". Must be between " +:+ pretty (MIN RIM_DIAMETER_RANGE)
                     +:+ " and " +:+ pretty (MAX RIM_DIAMETER_RANGE) +:+ " inches"))
     else
       _ ← setVehicle {[ "rim_diameter" := VNum value ]};
       mret (succeeded (VObj {[ "diameter" := VNum value ]})))
    report.

Definition setRimWidth (width : jsval) : M HandlerResult :=
  try_catch
    (let value := parseFloat width in
     if outside value RIM_WIDTH_RANGE then
       mret (failed ("Invalid rim width: " +:+ to_string width
                     +:+ ". Must be between " +:+ pretty (MIN RIM_WIDTH_RANGE)
                     +:+ " and " +:+ pretty (MAX RIM_WIDTH_RANGE) +:+ " inches"))
     else
       _ ← setVehicle {[ "rim_width" := VNum value ]};
       mret (succeeded (VObj {[ "width" := VNum value ]})))
    report.

Definition setTire (tireId : jsval) : M HandlerResult :=
  try_catch
    (if negb (truthy (index (tires vehicleConfigs) tireId)) then
       mret (failed_with ("Invalid tire model: " +:+ to_string tireId)
               "availableTires" TIRE_MODELS)
     else
       _ ← setVehicle {[ "tire" := tireId ]};
       name ← lift (get_prop (index (tires vehicleConfigs) tireId) "name");
       make ← lift (get_prop (index (tires vehicleConfigs) tireId) "make");
       mret (succeeded (VObj (<["id" := tireId]> (<["name" := name]> {[ "make" := make ]})))))
    report.

Definition setTireDiameter (diameter : jsval) : M HandlerResult :=
  try_catch
    (let value := parseInt diameter in
     if outside value TIRE_DIAMETER_RANGE then
       mret (failed ("Invalid tire diameter: " +:+ to_string diameter
                     +:+ ". Must be between " +:+ pretty (MIN TIRE_DIAMETER_RANGE)
                     +:+ " and " +:+ pretty (MAX TIRE_DIAMETER_RANGE) +:+ " inches"))
     else
       _ ← setVehicle {[ "tire_diameter" := VNum value ]};
       mret (succeeded (VObj {[ "diameter" := VNum value ]})))
    report.

(** The validation pass of [setWheelConfiguration]: the [updates] object
    and the [errors] array it has built when it reaches
    [if (errors.length > 0)]. *)
Definition wheel_checks (params : jsval)
    : result (gmap string jsval * list string) :=
  rim ← get_prop params "rim";
  rim_diameter ← get_prop params "rim_diameter";
  rim_width ← get_prop params "rim_width";
  rim_color ← get_prop params "rim_color";
  rim_color_secondary ← get_prop params "rim_color_secondary";
  tire ← get_prop params "tire";
  tire_diameter ← get_prop params "tire_diameter";
  wheel_offset ← get_prop params "wheel_offset";
  let acc := (∅, []) in
  let acc :=
    check_field rim (negb (truthy (index (rims vehicleConfigs) rim)))
      ("Invalid rim: " +:+ to_string rim) "rim" rim acc in
  let acc :=
    check_field rim_diameter (outside (parseInt rim_diameter) RIM_DIAMETER_RANGE)
      ("Invalid rim diameter: " +:+ to_string rim_diameter)
      "rim_diameter" (VNum (parseInt rim_diameter)) acc in
  let acc :=
    check_field rim_width (outside (parseFloat rim_width) RIM_WIDTH_RANGE)
      ("Invalid rim width: " +:+ to_string rim_width)
      "rim_width" (VNum (parseFloat rim_width)) acc in
  let acc :=
    check_field rim_color (bad_rim_color rim_color)
      ("Invalid rim color: " +:+ to_string rim_color) "rim_color" rim_color acc in
  let acc :=
    check_field rim_color_secondary (bad_rim_color rim_color_secondary)
      ("Invalid rim secondary color: " +:+ to_string rim_color_secondary)
      "rim_color_secondary" rim_color_secondary acc in
  let acc :=
    check_field tire (negb (truthy (index (tires vehicleConfigs) tire)))
      ("Invalid tire: " +:+ to_string tire) "tire" tire acc in
  let acc :=
    check_field tire_diameter (outside (parseInt tire_diameter) TIRE_DIAMETER_RANGE)
      ("Invalid tire diameter: " +:+ to_string tire_diameter)
      "tire_diameter" (VNum (parseInt tire_diameter)) acc in
  (* wheel_offset: a value that does not parse is dropped, not reported *)
  let acc :=
    if defined wheel_offset && negb (isNaN (parseFloat wheel_offset)) then
      (<["wheel_offset" := VNum (parseFloat wheel_offset)]> acc.1, acc.2)
    else acc in
  Ok acc.

Definition setWheelConfiguration (params : jsval) : M HandlerResult :=
  '(updates, errors) ← lift (wheel_checks params);
  if (0 <? length errors)%nat then mret (failed (join errors))
  else if (size updates =? 0)%nat then
    mret (failed "No valid wheel parameters provided")
  else
    try_catch
      (_ ← setVehicle updates; mret (succeeded (VObj updates)))
      report.

(** [if (!vehicle.addons) vehicle.addons = {}; vehicle.addons[key] = value]
    on the draft.  The sources are ES modules, hence strict: assigning a
    property of a primitive value throws. *)
Definition assign_addon (key : string) (value : jsval) (vehicle : gmap string jsval)
    : result (gmap string jsval) :=
  let addons := field vehicle "addons" in
  if negb (truthy addons) then Ok (<["addons" := VObj {[ key := value ]}]> vehicle)
  else
    match addons with
    | VObj o => Ok (<["addons" := VObj (<[key := value]> o)]> vehicle)
    | _ => Throw TypeError
    end.

Definition setVehicleAddon (addonType addonValue : jsval) : M HandlerResult :=
  try_catch
    (currentVehicle ← getCurrentVehicle;
     let bodyId := field currentVehicle "body" in
     let vehicleConfig := index (vehicles vehicleConfigs) bodyId in
     addons ← lift (get_prop vehicleConfig "addons");
     addonConfig ←
       (if truthy addons then lift (get_prop addons (to_string addonType))
        else mret VUndef);
     if negb (truthy addons) || negb (truthy addonConfig) then
       mret (failed_with ("Vehicle does not support addon type: " +:+ to_string addonType)
               "availableAddons"
               (match js_or addons (VObj ∅) with
                | VObj o => object_keys o
                | _ => []
                end))
     else
       options ← lift (get_prop addonConfig "options");
       option ← lift (get_prop options (to_string addonValue));
       if negb (truthy option) then
         mret (failed_with ("Invalid addon value: " +:+ to_string addonValue
                            +:+ " for type: " +:+ to_string addonType)
                 "availableOptions"
                 (match options with VObj o => object_keys o | _ => [] end))
       else
         _ ← setVehicleWith (assign_addon (to_string addonType) addonValue);
         name ← lift (get_prop option "name");
         mret (succeeded (VObj (<["type" := addonType]>
                                (<["value" := addonValue]> {[ "name" := name ]})))))
    report.

(** [if (vehicle.addons && vehicle.addons[addonType]) delete vehicle.addons[addonType]] *)
Definition delete_addon (key : string) (vehicle : gmap string jsval)
    : result (gmap string jsval) :=
  let addons := field vehicle "addons" in
  if negb (truthy addons) then Ok vehicle
  else
    present ← get_prop addons key;
    if negb (truthy present) then Ok vehicle
    else
      match addons with
      | VObj o => Ok (<["addons" := VObj (delete key o)]> vehicle)
      | _ => if prim_delete_throws addons key then Throw TypeError else Ok vehicle
      end.

Definition removeVehicleAddon (addonType : jsval) : M HandlerResult :=
  try_catch
    (_ ← setVehicleWith (delete_addon (to_string addonType));
     mret (succeeded (VObj {[ "removed" := addonType ]})))
    report.

Definition toggleSpareTire (enabled : jsval) : M HandlerResult :=
  try_catch
    (let value := truthy enabled in
     _ ← setVehicle {[ "spare" := VBool value ]};
     mret (succeeded (VObj {[ "enabled" := VBool value ]})))
    report.

(** [{ ...vehicleConfigs.defaults, body, addons: vehicles[body]?.default_addons || {} }] *)
Definition defaults_for (body : jsval) : gmap string jsval :=
  <["addons" :=
      js_or (opt_get (index (vehicles vehicleConfigs) body) "default_addons") (VObj ∅)]>
    (<["body" := body]> (defaults vehicleConfigs)).

Definition resetVehicle : M HandlerResult :=
  try_catch
    (vehicle ← getCurrentVehicle;
     let currentBody := field vehicle "body" in
     let defaults := defaults_for currentBody in
     _ ← setVehicle defaults;
     mret (succeeded (VObj defaults)))
    report.

Definition resetVehicleComplete : M HandlerResult :=
  try_catch
    (let body := field (defaults vehicleConfigs) "body" in
     let defaults :=
       <["addons" :=
           js_or (opt_get (index (vehicles vehicleConfigs) body) "default_addons")
                 (VObj ∅)]> (defaults vehicleConfigs) in
     _ ← setVehicle defaults;
     mret (succeeded (VObj defaults)))
    report.

Definition setVehicleConfiguration (config : jsval) : M HandlerResult :=
  try_catch
    (if negb (truthy config) || negb (String.eqb (typeof config) "object") then
       mret (failed "Invalid configuration object")
     else
       body ← lift (get_prop config "body");
       if truthy body && negb (truthy (index (vehicles vehicleConfigs) body)) then
         mret (failed ("Invalid vehicle model: " +:+ to_string body))
       else
         _ ← setVehicle (own_properties config);
         vehicle ← getCurrentVehicle;
         mret (succeeded (VObj vehicle)))
    report.

(** *** Saved vehicles *)

(** [saveVehicle(name)]; [now] and [now'] are the two readings of
    [Date.now()]. *)
Definition saveVehicle (name : jsval) (now now' : jsnum) : M HandlerResult :=
  try_catch
    (if negb (truthy name) || negb (String.eqb (typeof name) "string")
        || (String.length (str_trim (to_string name)) =? 0)%nat then
       mret (failed "Vehicle name is required")
     else
       currentVehicle ← getCurrentVehicle;
       let vehicleId := "vehicle_" +:+ num_to_string now in
       let trimmed := VStr (str_trim (to_string name)) in
       _ ← setSavedVehicles (λ vehicles,
             <["current" := VStr vehicleId]>
               (<[vehicleId :=
                    VObj (<["name" := trimmed]>
                         (<["config" := VObj currentVehicle]>
                          {[ "timestamp" := VNum now' ]}))]> vehicles));
       mret (succeeded (VObj (<["id" := VStr vehicleId]>
                              (<["name" := trimmed]>
                               {[ "config" := VObj currentVehicle ]})))))
    report.

Definition loadSavedVehicle (vehicleId : jsval) : M HandlerResult :=
  try_catch
    (s ← getState;
     let savedVehicles := savedVehicles s in
     if negb (truthy (index savedVehicles vehicleId)) then
       mret (failed_with ("Saved vehicle not found: " +:+ to_string vehicleId)
               "availableVehicles"
               (filter (λ k, k ≠ "current") (object_keys savedVehicles)))
     else
       _ ← setSavedVehicles (λ vehicles, <[ "current" := vehicleId ]> vehicles);
       mret (succeeded (index savedVehicles vehicleId)))
    report.

(** *** Export and import *)

Definition exportVehicleConfiguration : M HandlerResult :=
  vehicle ← getCurrentVehicle;
  mret (succeeded (VObj vehicle)).

Definition importVehicleConfiguration (config : jsval) : M HandlerResult :=
  setVehicleConfiguration config.

(** *** Batch operations *)

Record Update := { operation : jsval; params : jsval }.

Record BatchResult := {
  batch_success : bool;
  total : nat;
  successCount : nat;
  failureCount : nat;
  results : list (jsval * HandlerResult);
}.

(** The [switch (operation)] of [applyBatchUpdates]. *)
Definition dispatch (update : Update) : M HandlerResult :=
  let operation := operation update in
  let params := params update in
  if is_str operation "setVehicleBody" then setVehicleBody params
  else if is_str operation "setVehicleColor" then setVehicleColor params
  else if is_str operation "setVehicleLift" then setVehicleLift params
  else if is_str operation "setRim" then setRim params
  else if is_str operation "setTire" then setTire params
  else if is_str operation "setVehicleAddon" then
    type ← lift (get_prop params "type");
    value ← lift (get_prop params "value");
    setVehicleAddon type value
  else if is_str operation "toggleSpareTire" then toggleSpareTire params
  else mret (failed ("Unknown operation: " +:+ to_string operation)).

(** The loop variables [results], [successCount], [failureCount]. *)
Record Tally := {
  t_results : list (jsval * HandlerResult);
  t_success : nat;
  t_failure : nat;
}.

(** [results.push({ operation, result }); if (result.success) successCount++
    else failureCount++] *)
Definition record_result (t : Tally) (operation : jsval) (result : HandlerResult) : Tally :=
  {| t_results := (t_results t ++ [(operation, result)])%list;
     t_success := if success result then S (t_success t) else t_success t;
     t_failure := if success result then t_failure t else S (t_failure t) |}.

(** The [catch] of the loop body. *)
Definition record_error (t : Tally) (operation : jsval) (e : exn) : Tally :=
  {| t_results := (t_results t ++ [(operation, failed (exn_message e))])%list;
     t_success := t_success t;
     t_failure := S (t_failure t) |}.

Fixpoint batch_loop (updates : list Update) (t : Tally) : M Tally :=
  match updates with
  | [] => mret t
  | update :: rest =>
      t' ← try_catch
             (result ← dispatch update;
              mret (record_result t (operation update) result))
             (λ e, mret (record_error t (operation update) e));
      batch_loop rest t'
  end.

Definition applyBatchUpdates (updates : list Update) : M BatchResult :=
  t ← batch_loop updates {| t_results := []; t_success := 0; t_failure := 0 |};
  mret {| batch_success := (t_failure t =? 0)%nat;
          total := length updates;
          successCount := t_success t;
          failureCount := t_failure t;
          results := t_results t |}.

(** *** Queries *)

Section Queries.
Variable string_to_number : string → jsnum.

Definition getVehicleSuspension : M jsval :=
  vehicle ← getCurrentVehicle;
  mret (VObj (<["lift" := field vehicle "lift"]>
             (<["liftInches" := field vehicle "lift"]>
              {[ "liftMeters" :=
                   VNum (js_scale string_to_number (254 # 10000) (field vehicle "lift")) ]}))).

(** The entry [getSavedVehicles] lists for the key [id], if any:
    [if (id !== 'current' && data?.config) result[id] = { ... }].  Past the
    test [data] is not nullish, so its other properties read without a
    throw. *)
Definition saved_entry (id : string) (data : jsval) : option jsval :=
  if negb (String.eqb id "current") && truthy (opt_get data "config") then
    Some (VObj (list_to_map
      [ ("id", VStr id);
        ("name", js_or (opt_get data "name") (VStr "Unnamed Vehicle"));
        ("config", opt_get data "config");
        ("timestamp", js_or (opt_get data "timestamp") VNull) ]))
  else None.

Definition getSavedVehicles : M (gmap string jsval) :=
  s ← getState; mret (map_imap saved_entry (savedVehicles s)).

Definition getCurrentSavedVehicleId : M jsval :=
  s ← getState; mret (js_or (field (savedVehicles s) "current") VNull).

End Queries.

(** *** Renaming a saved vehicle *)

Definition updateSavedVehicleName (vehicleId newName : jsval) : M HandlerResult :=
  try_catch
    (s ← getState;
     let savedVehicles := savedVehicles s in
     if negb (truthy (index savedVehicles vehicleId)) then
       mret (failed ("Saved vehicle not found: " +:+ to_string vehicleId))
     else if negb (truthy newName) || negb (String.eqb (typeof newName) "string")
             || (String.length (str_trim (to_string newName)) =? 0)%nat then
       mret (failed "Vehicle name is required")
     else
       let trimmed := VStr (str_trim (to_string newName)) in
       _ ← setSavedVehicles (λ vehicles,
             <[to_string vehicleId :=
                 VObj (<["name" := trimmed]> (spread (index vehicles vehicleId)))]>
               vehicles);
       mret (succeeded (VObj (<["id" := vehicleId]> {[ "name" := trimmed ]}))))
    report.

(** *** Validation of a whole configuration *)

Record Validation := {
  valid : bool;
  errors : list string;
  warnings : list string;
}.

(** [if (cond) list.push(message)] *)
Definition push_if (cond : bool) (message : string) (messages : list string)
    : list string :=
  if cond then (messages ++ [message])%list else messages.

Section Validate.
Variable string_to_number : string → jsnum.

(** [validateConfiguration(config)].  Past the first test [config] is not
    nullish, so its properties read without a throw. *)
Definition validateConfiguration (config : jsval) : Validation :=
  if negb (truthy config) || negb (String.eqb (typeof config) "object") then
    {| valid := false; errors := ["Configuration must be an object"]; warnings := [] |}
  else
    let body := opt_get config "body" in
    let color := opt_get config "color" in
    let roughness := opt_get config "roughness" in
    let lift := opt_get config "lift" in
    let rim := opt_get config "rim" in
    let tire := opt_get config "tire" in
    let rim_diameter := opt_get config "rim_diameter" in
    let tire_diameter := opt_get config "tire_diameter" in
    let errors := [] in
    let errors :=
      push_if (truthy body && negb (truthy (index (vehicles vehicleConfigs) body)))
        ("Invalid vehicle model: " +:+ to_string body) errors in
    let errors :=
      push_if (truthy color && negb (hex_color_test color))
        ("Invalid color format: " +:+ to_string color) errors in
    let errors :=
      push_if (defined roughness && out_of_range (parseFloat roughness) 0 1)
        ("Invalid roughness: " +:+ to_string roughness) errors in
    let errors :=
      push_if (defined lift && outside (parseFloat lift) LIFT_RANGE)
        ("Invalid lift: " +:+ to_string lift) errors in
    let errors :=
      push_if (truthy rim && negb (truthy (index (rims vehicleConfigs) rim)))
        ("Invalid rim model: " +:+ to_string rim) errors in
    let errors :=
      push_if (truthy tire && negb (truthy (index (tires vehicleConfigs) tire)))
        ("Invalid tire model: " +:+ to_string tire) errors in
    let errors :=
      push_if (defined rim_diameter && outside (parseInt rim_diameter) RIM_DIAMETER_RANGE)
        ("Invalid rim diameter: " +:+ to_string rim_diameter) errors in
    let errors :=
      push_if (defined tire_diameter && outside (parseInt tire_diameter) TIRE_DIAMETER_RANGE)
        ("Invalid tire diameter: " +:+ to_string tire_diameter) errors in
    let warnings :=
      push_if (defined tire_diameter && defined rim_diameter
               && js_le string_to_number tire_diameter rim_diameter)
        "Tire diameter should be larger than rim diameter" [] in
    {| valid := (length errors =? 0)%nat; errors := errors; warnings := warnings |}.

End Validate.

End WithCatalog.
End SceneHandlers.

(* ===================================================================== *)
(** ** The vehicle update handler (vehicle-update-handler.js)            *)
(* ===================================================================== *)

Module UpdateHandler.
Import Js GameStore Mapper.

(** [{ success: successCount, failed: failedCount }] *)
Record Counts := { success : nat; failed : nat }.

(** The structured agent response; [vehicle_updates] is [None] when the
    field is absent or [null]. *)
Record AgentResponse := {
  vehicle_updates : option (list Command);
  final_vehicle_state : jsval;
  error : jsval;
}.

Section WithCatalog.
Context {RT : JsRuntime}.
Variable vehicleConfigs : Catalog.

(** [if (v !== undefined) updates[key] = v] *)
Definition set_if_defined (key : string) (v : jsval) (updates : gmap string jsval)
    : gmap string jsval :=
  if defined v then <[key := v]> updates else updates.

(** [if (id !== undefined) { if (!table[id]) warn-and-skip else updates[key] = id }] *)
Definition set_if_known (table : gmap string jsval) (key : string) (id : jsval)
    (updates : gmap string jsval) : gmap string jsval :=
  if defined id then
    if negb (truthy (index table id)) then updates else <[key := id]> updates
  else updates.

Definition handleChangeModel (params : jsval) : M unit :=
  model_id ← lift (get_prop params "model_id");
  if negb (truthy (index (vehicles vehicleConfigs) model_id)) then
    throw (Error ("Unknown vehicle model: " +:+ to_string model_id))
  else setVehicle {[ "body" := model_id ]}.

Definition handleChangeColor (params : jsval) : M unit :=
  color ← lift (get_prop params "color");
  roughness ← lift (get_prop params "roughness");
  setVehicle (set_if_defined "roughness" roughness (set_if_defined "color" color ∅)).

Definition handleAdjustLift (params : jsval) : M unit :=
  lift_height ← lift (get_prop params "lift_height");
  if negb (String.eqb (typeof lift_height) "number") then
    throw (Error "Invalid lift_height value")
  else setVehicle {[ "lift" := lift_height ]}.

Definition handleChangeRims (params : jsval) : M unit :=
  rim_id ← lift (get_prop params "rim_id");
  color ← lift (get_prop params "color");
  secondary_color ← lift (get_prop params "secondary_color");
  setVehicle
    (set_if_defined "rim_color_secondary" secondary_color
       (set_if_defined "rim_color" color
          (set_if_known (rims vehicleConfigs) "rim" rim_id ∅))).

Definition handleChangeTires (params : jsval) : M unit :=
  tire_id ← lift (get_prop params "tire_id");
  diameter ← lift (get_prop params "diameter");
  setVehicle
    (set_if_defined "tire_diameter" diameter
       (set_if_known (tires vehicleConfigs) "tire" tire_id ∅)).

Definition handleChangeWheelSetup (params : jsval) : M unit :=
  rim_diameter ← lift (get_prop params "rim_diameter");
  rim_width ← lift (get_prop params "rim_width");
  tire_diameter ← lift (get_prop params "tire_diameter");
  setVehicle
    (set_if_defined "tire_diameter" tire_diameter
       (set_if_defined "rim_width" rim_width
          (set_if_defined "rim_diameter" rim_diameter ∅))).

(** The mutator of the three addon handlers:
    [if (!vehicle.addons) vehicle.addons = {}; vehicle.addons.<slot> = value]
    (strict mode: assigning a property of a primitive throws). *)
Definition set_addon (slot : string) (value : jsval) (vehicle : gmap string jsval)
    : result (gmap string jsval) :=
  let addons := field vehicle "addons" in
  if negb (truthy addons) then Ok (<["addons" := VObj {[ slot := value ]}]> vehicle)
  else
    match addons with
    | VObj o => Ok (<["addons" := VObj (<[slot := value]> o)]> vehicle)
    | _ => Throw TypeError
    end.

Definition handleAddBumper (params : jsval) : M unit :=
  bumper_type ← lift (get_prop params "bumper_type");
  setVehicleWith (set_addon "bumper_f" bumper_type).

Definition handleAddSliders (params : jsval) : M unit :=
  slider_type ← lift (get_prop params "slider_type");
  setVehicleWith (set_addon "sliders" slider_type).

Definition handleAddRoofRack (params : jsval) : M unit :=
  rack_type ← lift (get_prop params "rack_type");
  setVehicleWith (set_addon "rack" rack_type).

Definition handleToggleSpareTire (params : jsval) : M unit :=
  enabled ← lift (get_prop params "enabled");
  setVehicle {[ "spare" := enabled ]}.

Definition handleResetVehicle : M unit :=
  s ← getState;
  let currentBody := field (currentVehicle s) "body" in
  let defaults :=
    <["addons" :=
        js_or (opt_get (index (vehicles vehicleConfigs) currentBody) "default_addons")
              (VObj ∅)]>
      (<["body" := currentBody]> (defaults vehicleConfigs)) in
  setVehicle defaults.

(** The handler a [command_type] selects. *)
Definition handler (c : CommandType) (parameters : jsval) : M unit :=
  match c with
  | ChangeModel => handleChangeModel parameters
  | ChangeColor => handleChangeColor parameters
  | AdjustLift => handleAdjustLift parameters
  | ChangeRims => handleChangeRims parameters
  | ChangeTires => handleChangeTires parameters
  | ChangeWheelSetup => handleChangeWheelSetup parameters
  | AddBumper => handleAddBumper parameters
  | AddSliders => handleAddSliders parameters
  | AddRoofRack => handleAddRoofRack parameters
  | ToggleSpareTire => handleToggleSpareTire parameters
  | ResetVehicle => handleResetVehicle
  end.

(** [applyVehicleUpdate]: the notifications it shows go to the
    notification sink and leave the store's vehicle data alone; they are
    not modelled. *)
Definition applyVehicleUpdate (update : Command) : M bool :=
  try_catch
    (match switch_case (command_type update) with
     | Some c => _ ← handler c (parameters update); mret true
     | None => mret false
     end)
    (λ _, mret false).

(** The [for] loop of [applyVehicleUpdates] with its two counters.  The
    100 ms pause before each command only paces the display. *)
Fixpoint update_loop (updates : list Command) (successCount failedCount : nat)
    : M Counts :=
  match updates with
  | [] => mret {| success := successCount; failed := failedCount |}
  | update :: rest =>
      applyVehicleUpdate update ≫= λ ok : bool,
        if ok then update_loop rest (S successCount) failedCount
        else update_loop rest successCount (S failedCount)
  end.

Definition applyVehicleUpdates (updates : list Command) : M Counts :=
  match updates with
  | [] => mret {| success := 0; failed := 0 |}
  | _ => update_loop updates 0 0
  end.

Definition syncVehicleState (state : jsval) : M bool :=
  if negb (truthy state) || negb (String.eqb (typeof state) "object") then mret false
  else
    try_catch
      (_ ← setVehicle (own_properties state); mret true)
      (λ _, mret false).

Definition processAgentResponse (structuredResponse : option AgentResponse) : M bool :=
  match structuredResponse with
  | None => mret false
  | Some response =>
      if truthy (error response) then mret false
      else
        match vehicle_updates response with
        | Some (update :: rest) =>
            result ← applyVehicleUpdates (update :: rest);
            _ ← (if (0 <? failed result)%nat && truthy (final_vehicle_state response)
                 then syncVehicleState (final_vehicle_state response)
                 else mret false);
            mret (failed result =? 0)%nat
        | _ =>
            if truthy (final_vehicle_state response) then
              syncVehicleState (final_vehicle_state response)
            else mret false
        end
  end.

End WithCatalog.

(** *** Verification utilities *)

Section Verification.
Context {RT : JsRuntime}.
(** [JSON.stringify], a function of the value; [None] is its [undefined]
    result. *)
Variable stringify : jsval → option string.

(** [JSON.stringify(a) !== JSON.stringify(b)] *)
Definition differs (a b : jsval) : bool :=
  negb (bool_decide (stringify a = stringify b)).

Record Mismatch := { mismatch_field : string; expected : jsval; actual : jsval }.

(** The [mismatches] array of [verifyVehicleState] (the order in which the
    entries are visited is not modelled). *)
Definition mismatches (expectedState : jsval) (currentState : gmap string jsval)
    : list Mismatch :=
  omap (λ entry : string * jsval,
          let '(key, expectedValue) := entry in
          let currentValue := field currentState key in
          if differs currentValue expectedValue then
            Some {| mismatch_field := key; expected := expectedValue;
                    actual := currentValue |}
          else None)
       (map_to_list (spread expectedState)).

Definition verifyVehicleState (expectedState : jsval) : M bool :=
  if negb (truthy expectedState) then mret true
  else
    s ← getState;
    mret (negb (0 <? length (mismatches expectedState (currentVehicle s)))%nat).

Record Change := { change_field : string; oldValue : jsval; newValue : jsval }.

(** [getStateChanges(oldState, newState)]; both states are truthy where
    their properties are read. *)
Definition getStateChanges (oldState newState : jsval) : list Change :=
  if negb (truthy oldState) || negb (truthy newState) then []
  else
    omap (λ key : string,
            if differs (opt_get oldState key) (opt_get newState key) then
              Some {| change_field := key; oldValue := opt_get oldState key;
                      newValue := opt_get newState key |}
            else None)
         (map_to_list (spread newState)).*1.

End Verification.

End UpdateHandler.

(* ===================================================================== *)
(** ** src/lib/function-call-mapper.js: the structured response          *)
(* ===================================================================== *)

Module StructuredResponse.
Import Js Mapper.

(** [createStructuredResponse(commands, finalState = null)]: the default
    value of a parameter replaces [undefined] only. *)
Definition createStructuredResponse (commands : list Command) (finalState : jsval)
    : UpdateHandler.AgentResponse :=
  {| UpdateHandler.vehicle_updates := Some commands;
     UpdateHandler.final_vehicle_state := if defined finalState then finalState else VNull;
     UpdateHandler.error := VNull |}.

End StructuredResponse.

(* ===================================================================== *)
(** ** The decal overlay: click-to-place                                 *)
(* ===================================================================== *)

Module DecalOverlay.
Import Js.

Record Vec3 := { x : jsnum; y : jsnum; z : jsnum }.

(** A decal record; [rotation] holds Euler angles and may be missing, which
    is what the handler's [currentDecal?.rotation?.z] allows for. *)
Record Decal := {
  id : string;
  imageUrl : string;
  fileName : string;
  position : Vec3;
  rotation : option Vec3;
  scale : Vec3;
  opacity : jsnum;
  normal : Vec3;
}.

(** The decal slice of the store. *)
Record DecalState := {
  decals : list Decal;
  placementMode : bool;
  selectedDecalId : option string;
}.

(** The object passed to [updateDecal]: the properties it carries. *)
Record DecalUpdate := {
  u_position : option Vec3;
  u_rotation : option Vec3;
  u_scale : option Vec3;
  u_opacity : option jsnum;
  u_normal : option Vec3;
}.

Definition merge_decal (d : Decal) (u : DecalUpdate) : Decal :=
  {| id := id d;
     imageUrl := imageUrl d;
     fileName := fileName d;
     position := default (position d) (u_position u);
     rotation := match u_rotation u with Some r => Some r | None => rotation d end;
     scale := default (scale d) (u_scale u);
     opacity := default (opacity d) (u_opacity u);
     normal := default (normal d) (u_normal u) |}.

(** Modelled from the spec: the store action [updateDecal(id, updates)] of
    [store/gameStore], which the sources call but do not contain.  The spec
    has a decal "mutated on click-placement (position/rotation/normal
    rewritten ...) and on editor slider changes": the properties present in
    [updates] replace those of the decal with that id, the other decals are
    left alone. *)
Definition updateDecal (target : string) (u : DecalUpdate) (s : DecalState) : DecalState :=
  {| decals := (λ d, if String.eqb (id d) target then merge_decal d u else d) <$> decals s;
     placementMode := placementMode s;
     selectedDecalId := selectedDecalId s |}.

(** Modelled from the spec: the store actions [setPlacementMode] and
    [setSelectedDecal], plain setters of the two flags. *)
Definition setPlacementMode (mode : bool) (s : DecalState) : DecalState :=
  {| decals := decals s; placementMode := mode; selectedDecalId := selectedDecalId s |}.

Definition setSelectedDecal (sel : option string) (s : DecalState) : DecalState :=
  {| decals := decals s; placementMode := placementMode s; selectedDecalId := sel |}.

(** Truthiness of a decal id ([String | null]). *)
Definition id_truthy (i : option string) : bool :=
  match i with
  | Some s => negb (String.eqb s "")
  | None => false
  end.

(** [n || 0] for a number that may be missing. *)
Definition or_zero (n : option jsnum) : jsnum :=
  match n with
  | Some v => if num_truthy v then v else num_of_Z 0
  | None => num_of_Z 0
  end.

(** What the handler gets from the click: the mouse button, whether the
    click landed on a canvas, and the first intersection of the ray with the
    vehicle mesh, if any, with its face normal, if any. *)
Record Hit := { point : Vec3; face : option Vec3 }.
Record Click := { button : Z; on_canvas : bool; hit : option Hit }.

Section WithThree.
(** The three.js computations: the face normal taken to world space and
    normalised ([applyMatrix3(normalMatrix).normalize()]), and the Euler
    angles of the quaternion turning the axis (0,0,1) onto a normal
    ([setFromUnitVectors] followed by [setFromQuaternion]). *)
Variable worldNormal : Vec3 → Vec3.
Variable eulerFromNormal : Vec3 → Vec3.

(** [decals.find(d => d.id === targetDecalId)?.rotation?.z] *)
Definition prior_z (ds : list Decal) (target : string) : option jsnum :=
  d ← find (λ d, String.eqb (id d) target) ds;
  r ← rotation d;
  Some (z r).

Definition handleClick (event : Click) (s : DecalState) : DecalState :=
  if negb (button event =? 0)%Z then s
  else if negb (placementMode s) && negb (id_truthy (selectedDecalId s)) then s
  else if negb (on_canvas event) then s
  else
    match hit event with
    | None => s
    | Some intersection =>
        match face intersection with
        | None => s
        | Some face_normal =>
            let normal := worldNormal face_normal in
            let position := point intersection in
            let orientation := eulerFromNormal normal in
            let '(targetDecalId, s') :=
              match placementMode s, last (decals s) with
              | true, Some newest =>
                  (Some (id newest),
                   setSelectedDecal (Some (id newest)) (setPlacementMode false s))
              | _, _ => (selectedDecalId s, s)
              end in
            match targetDecalId with
            | Some target =>
                if id_truthy targetDecalId then
                  let zRotation := or_zero (prior_z (decals s) target) in
                  updateDecal target
                    {| u_position := Some position;
                       u_rotation := Some {| x := x orientation;
                                             y := y orientation;
                                             z := zRotation |};
                       u_scale := None;
                       u_opacity := None;
                       u_normal := Some normal |} s'
                else s'
            | None => s'
            end
        end
    end.

End WithThree.

(** *** Finding the vehicle mesh *)

(** An object of the scene graph as [findVehicleMesh] looks at it: whether
    it is a mesh, the vertex count of its position attribute (if it has
    one), and the names of its ancestors, the parent first. *)
Record SceneObject := {
  object_name : string;
  isMesh : bool;
  vertices : option nat;
  ancestors : list string;
}.

(** The [while (current && depth < 10)] walk up the parents. *)
Definition isInBody (object : SceneObject) : bool :=
  existsb (String.eqb "Body") (take 10 (ancestors object)).

(** The vertex count of a candidate: a mesh with a position attribute,
    below a group named "Body", with more than 100 vertices. *)
Definition candidate (object : SceneObject) : option nat :=
  if isMesh object then
    match vertices object with
    | Some vertexCount =>
        if isInBody object && (100 <? vertexCount)%nat then Some vertexCount else None
    | None => None
    end
  else None.

(** The callback of [scene.traverse]: [foundMesh] is replaced by a
    candidate with strictly more vertices. *)
Definition visit (foundMesh : option SceneObject) (object : SceneObject)
    : option SceneObject :=
  match candidate object with
  | Some vertexCount =>
      match foundMesh with
      | None => Some object
      | Some found =>
          if (default 0%nat (vertices found) <? vertexCount)%nat then Some object
          else foundMesh
      end
  | None => foundMesh
  end.

(** [findVehicleMesh]: the scene in traversal order; the mesh it hands to
    [setVehicleMesh], if any. *)
Definition findVehicleMesh (scene : list SceneObject) : option SceneObject :=
  foldl visit None scene.

End DecalOverlay.

(* ===================================================================== *)
(** ** Notions used to state the properties                              *)
(* ===================================================================== *)

Import Js GameStore Mapper.

Module Facade.

(** The mutations of the Scene Handler Façade that write the
    VehicleConfiguration or snapshot it, with their arguments.  The
    handlers of the other parts of the store (camera, physics,
    notifications, renaming and deleting saved vehicles) never call
    [setVehicle]; [loadVehicleFromUrl] only forwards to a store action. *)
Inductive Mutation :=
| SetVehicleBody (modelId : jsval)
| SetVehicleColor (color : jsval)
| SetVehicleRoughness (roughness : jsval)
| SetVehicleAppearance (params : jsval)
| SetVehicleLift (liftInches : jsval)
| SetRim (rimId : jsval)
| SetRimColor (color : jsval)
| SetRimColorSecondary (color : jsval)
| SetRimDiameter (diameter : jsval)
| SetRimWidth (width : jsval)
| SetTire (tireId : jsval)
| SetTireDiameter (diameter : jsval)
| SetWheelConfiguration (params : jsval)
| SetVehicleAddon (addonType addonValue : jsval)
| RemoveVehicleAddon (addonType : jsval)
| ToggleSpareTire (enabled : jsval)
| ResetVehicle
| ResetVehicleComplete
| SetVehicleConfiguration (config : jsval)
| ImportVehicleConfiguration (config : jsval)
| SaveVehicle (name : jsval) (now now' : jsnum)
| LoadSavedVehicle (vehicleId : jsval).

(** The setters that check a field before they write it. *)
Definition field_setter (op : Mutation) : bool :=
  match op with
  | ResetVehicle | ResetVehicleComplete
  | SetVehicleConfiguration _ | ImportVehicleConfiguration _ => false
  | _ => true
  end.

End Facade.

(** A write path into the VehicleConfiguration: a Façade mutation or an
    agent command. *)
Inductive WritePath :=
| ViaFacade (op : Facade.Mutation)
| ViaAgent (update : Command).

(** [a === b] on numbers. *)
Definition same_number (a b : jsnum) : bool :=
  match a, b with
  | Fin p, Fin q => Qeq_bool p q
  | Inf s, Inf t => Bool.eqb s t
  | _, _ => false
  end.

(** [a || b || ... ]: the first truthy operand, the last one when none is. *)
Fixpoint first_truthy (operands : list jsval) : jsval :=
  match operands with
  | [] => VUndef
  | [v] => v
  | v :: rest => if truthy v then v else first_truthy rest
  end.

Section Notions.
Context {RT : JsRuntime}.
Variable vehicleConfigs : Catalog.

Definition run_mutation (op : Facade.Mutation) : M SceneHandlers.HandlerResult :=
  match op with
  | Facade.SetVehicleBody v => SceneHandlers.setVehicleBody vehicleConfigs v
  | Facade.SetVehicleColor v => SceneHandlers.setVehicleColor v
  | Facade.SetVehicleRoughness v => SceneHandlers.setVehicleRoughness v
  | Facade.SetVehicleAppearance p => SceneHandlers.setVehicleAppearance p
  | Facade.SetVehicleLift v => SceneHandlers.setVehicleLift v
  | Facade.SetRim v => SceneHandlers.setRim vehicleConfigs v
  | Facade.SetRimColor v => SceneHandlers.setRimColor v
  | Facade.SetRimColorSecondary v => SceneHandlers.setRimColorSecondary v
  | Facade.SetRimDiameter v => SceneHandlers.setRimDiameter v
  | Facade.SetRimWidth v => SceneHandlers.setRimWidth v
  | Facade.SetTire v => SceneHandlers.setTire vehicleConfigs v
  | Facade.SetTireDiameter v => SceneHandlers.setTireDiameter v
  | Facade.SetWheelConfiguration p => SceneHandlers.setWheelConfiguration vehicleConfigs p
  | Facade.SetVehicleAddon t v => SceneHandlers.setVehicleAddon vehicleConfigs t v
  | Facade.RemoveVehicleAddon t => SceneHandlers.removeVehicleAddon t
  | Facade.ToggleSpareTire e => SceneHandlers.toggleSpareTire e
  | Facade.ResetVehicle => SceneHandlers.resetVehicle vehicleConfigs
  | Facade.ResetVehicleComplete => SceneHandlers.resetVehicleComplete vehicleConfigs
  | Facade.SetVehicleConfiguration c => SceneHandlers.setVehicleConfiguration vehicleConfigs c
  | Facade.ImportVehicleConfiguration c => SceneHandlers.importVehicleConfiguration vehicleConfigs c
  | Facade.SaveVehicle n t t' => SceneHandlers.saveVehicle n t t'
  | Facade.LoadSavedVehicle v => SceneHandlers.loadSavedVehicle v
  end.

(** The store a write path leaves behind. *)
Definition store_after (p : WritePath) (s : Store) : Store :=
  match p with
  | ViaFacade op => (run_mutation op s).1
  | ViaAgent update => (UpdateHandler.applyVehicleUpdate vehicleConfigs update s).1
  end.

(** A number inside a range. *)
Definition within (r : SceneHandlers.Range) (v : jsval) : bool :=
  match v with
  | VNum n => negb (SceneHandlers.outside n r)
  | _ => false
  end.

(** The catalog, format or range rule of each checked field of the
    VehicleConfiguration; the other fields ([wheel_offset], [addons],
    [spare]) carry no rule. *)
Definition field_rule (k : string) (v : jsval) : bool :=
  if String.eqb k "body" then truthy (index (vehicles vehicleConfigs) v)
  else if String.eqb k "color" then hex_color_test v
  else if String.eqb k "roughness" then within SceneHandlers.ROUGHNESS_RANGE v
  else if String.eqb k "lift" then within SceneHandlers.LIFT_RANGE v
  else if String.eqb k "rim" then truthy (index (rims vehicleConfigs) v)
  else if String.eqb k "rim_color" then negb (SceneHandlers.bad_rim_color v)
  else if String.eqb k "rim_color_secondary" then negb (SceneHandlers.bad_rim_color v)
  else if String.eqb k "rim_diameter" then within SceneHandlers.RIM_DIAMETER_RANGE v
  else if String.eqb k "rim_width" then within SceneHandlers.RIM_WIDTH_RANGE v
  else if String.eqb k "tire" then truthy (index (tires vehicleConfigs) v)
  else if String.eqb k "tire_diameter" then within SceneHandlers.TIRE_DIAMETER_RANGE v
  else true.

(** The fields a write path checks before it commits them: the Façade's
    field setters check every field that has a rule, the agent handlers
    only the three catalog identifiers. *)
Definition guards (p : WritePath) (k : string) : bool :=
  match p with
  | ViaFacade op => Facade.field_setter op
  | ViaAgent update =>
      match switch_case (command_type update) with
      | Some ResetVehicle => false
      | _ => String.eqb k "body" || String.eqb k "rim" || String.eqb k "tire"
      end
  end.

(** The check [setWheelConfiguration] applies to the field [k] when it is
    provided ([wheel_offset] has none). *)
Definition wheel_field_invalid (k : string) (v : jsval) : bool :=
  if String.eqb k "rim" then negb (truthy (index (rims vehicleConfigs) v))
  else if String.eqb k "rim_diameter" then
    SceneHandlers.outside (parseInt v) SceneHandlers.RIM_DIAMETER_RANGE
  else if String.eqb k "rim_width" then
    SceneHandlers.outside (parseFloat v) SceneHandlers.RIM_WIDTH_RANGE
  else if String.eqb k "rim_color" then SceneHandlers.bad_rim_color v
  else if String.eqb k "rim_color_secondary" then SceneHandlers.bad_rim_color v
  else if String.eqb k "tire" then negb (truthy (index (tires vehicleConfigs) v))
  else if String.eqb k "tire_diameter" then
    SceneHandlers.outside (parseInt v) SceneHandlers.TIRE_DIAMETER_RANGE
  else false.

(** When a mutation counts as rejected by validation: it returns an
    envelope with [success: false], or it is a [setWheelConfiguration] one
    of whose provided fields fails its check. *)
Definition rejected (op : Facade.Mutation) (s : Store) : Prop :=
  (∃ s' r, run_mutation op s = (s', Ok r) ∧ SceneHandlers.success r = false)
  ∨ (∃ params k v,
       op = Facade.SetWheelConfiguration params
       ∧ get_prop params k = Ok v ∧ defined v = true
       ∧ wheel_field_invalid k v = true).

(** An identifier that the body check of [setVehicleConfiguration] lets
    through, that is, for which [config.body && !vehicles[config.body]] is
    false. *)
Definition body_accepted (body : jsval) : bool :=
  negb (truthy body) || truthy (index (vehicles vehicleConfigs) body).

(** The stores reached from the catalog defaults through the Façade's
    mutations alone. *)
Inductive facade_reachable : Store → Prop :=
| reach_defaults :
    facade_reachable {| currentVehicle := defaults vehicleConfigs; savedVehicles := ∅ |}
| reach_mutation op s :
    facade_reachable s → facade_reachable (run_mutation op s).1.

(** One item of a batch, attempted: the store it leaves and its result, a
    thrown error turned into a failure result. *)
Definition attempt (update : SceneHandlers.Update) (s : Store)
    : Store * SceneHandlers.HandlerResult :=
  match SceneHandlers.dispatch vehicleConfigs update s with
  | (s', Ok r) => (s', r)
  | (s', Throw e) => (s', SceneHandlers.failed (exn_message e))
  end.

(** Every item attempted in input order, each in the store the previous
    one left, whatever the earlier results were. *)
Fixpoint attempt_all (updates : list SceneHandlers.Update) (s : Store)
    : Store * list (jsval * SceneHandlers.HandlerResult) :=
  match updates with
  | [] => (s, [])
  | update :: rest =>
      let '(s1, r) := attempt update s in
      let '(s2, rs) := attempt_all rest s1 in
      (s2, (SceneHandlers.operation update, r) :: rs)
  end.

(** The operation names [applyBatchUpdates] dispatches on. *)
Definition batch_operations : list string :=
  [ "setVehicleBody"; "setVehicleColor"; "setVehicleLift"; "setRim"; "setTire";
    "setVehicleAddon"; "toggleSpareTire" ].

Definition known_operation (operation : jsval) : bool :=
  existsb (is_str operation) batch_operations.

(** The parameters [transformParameters] builds for a command type, with
    every fallback chain read as [||]: first truthy operand wins. *)
Definition chain (args : jsval) (names : list string) : jsval :=
  first_truthy (opt_get args <$> names).

Definition transformed (c : CommandType) (args : jsval) : gmap string jsval :=
  match c with
  | ChangeModel => {[ "model_id" := chain args ["model_id"] ]}
  | ChangeColor =>
      <["color" := chain args ["color"]]> {[ "roughness" := chain args ["roughness"] ]}
  | AdjustLift =>
      {[ "lift_height" :=
           first_truthy [opt_get args "lift_height"; opt_get args "lift"; VNum (num_of_Z 0)] ]}
  | ChangeRims =>
      <["rim_id" := chain args ["rim_id"]]>
        (<["color" := chain args ["color"; "rim_color"]]>
         {[ "secondary_color" := chain args ["secondary_color"; "rim_color_secondary"] ]})
  | ChangeTires =>
      <["tire_id" := chain args ["tire_id"]]>
        {[ "diameter" := chain args ["diameter"; "tire_diameter"] ]}
  | ChangeWheelSetup =>
      <["rim_diameter" := chain args ["rim_diameter"]]>
        (<["rim_width" := chain args ["rim_width"]]>
         {[ "tire_diameter" := chain args ["tire_diameter"] ]})
  | AddBumper => {[ "bumper_type" := chain args ["bumper_type"; "type"] ]}
  | AddSliders => {[ "slider_type" := chain args ["slider_type"; "type"] ]}
  | AddRoofRack => {[ "rack_type" := chain args ["rack_type"; "type"] ]}
  | ToggleSpareTire =>
      {[ "enabled" := if defined (opt_get args "enabled") then opt_get args "enabled"
                      else VBool true ]}
  | ResetVehicle => ∅
  end.

(** A function call that carries no name, or a name that is neither an
    alias of the table nor a property of [Object.prototype]. *)
Definition unrecognized (functionCall : jsval) : Prop :=
  truthy functionCall = false
  ∨ ∃ name,
      get_prop functionCall "name" = Ok name
      ∧ (truthy name = false
         ∨ ∃ s, name = VStr s ∧ mapping !! s = None ∧ is_inherited s = false).

End Notions.

(** The decal a click is aimed at: the newest one in placement mode, else
    the selected one. *)
Definition click_target (s : DecalOverlay.DecalState) : option string :=
  match DecalOverlay.placementMode s, last (DecalOverlay.decals s) with
  | true, Some newest => Some (DecalOverlay.id newest)
  | _, _ => DecalOverlay.selectedDecalId s
  end.

(** *** Inputs of the examples *)

Definition str (s : string) : jsval := VStr s.
Definition num (n : Z) : jsval := VNum (num_of_Z n).

Definition command (type : string) (parameters : gmap string jsval) : Command :=
  {| command_type := VStr type;
     parameters := VObj parameters;
     description := VStr type;
     client_id := VStr "default";
     function_call_id := VUndef |}.

Definition call (name : string) (args : gmap string jsval) : jsval :=
  VObj (<["name" := VStr name]> {[ "args" := VObj args ]}).

Definition update (operation : string) (params : jsval) : SceneHandlers.Update :=
  {| SceneHandlers.operation := VStr operation; SceneHandlers.params := params |}.

(** An agent response whose single command names a model the catalog does
    not have, together with a full configuration as final state. *)
Definition repaintedVehicle : gmap string jsval :=
  <["color" := str "#00FF00"]> (<["lift" := num 3]> sampleDefaults).

Definition failingResponse : UpdateHandler.AgentResponse :=
  {| UpdateHandler.vehicle_updates :=
       Some [command "change_model" {[ "model_id" := str "delorean" ]}];
     UpdateHandler.final_vehicle_state := VObj repaintedVehicle;
     UpdateHandler.error := VNull |}.

(** A store with one saved vehicle, the [current] pointer on it. *)
Definition savedStore : Store :=
  {| currentVehicle := sampleDefaults;
     savedVehicles :=
       <["current" := str "vehicle_1700000000000"]>
         {[ "vehicle_1700000000000" :=
              VObj (<["name" := str "My Build"]> {[ "config" := VObj sampleDefaults ]}) ]} |}.

(** A decal with a given rotation, selected for re-placement, and a left
    click that hits a face of the vehicle whose normal is the reference axis
    (0, 0, 1); the mesh is not transformed, so the world normal is the face
    normal and the aligning quaternion is the identity, with Euler angles 0. *)
Definition vec (a b c : Q) : DecalOverlay.Vec3 :=
  {| DecalOverlay.x := Fin a; DecalOverlay.y := Fin b; DecalOverlay.z := Fin c |}.

Definition sampleDecal (rotation : option DecalOverlay.Vec3) : DecalOverlay.Decal :=
  {| DecalOverlay.id := "decal_1";
     DecalOverlay.imageUrl := "data:image/png;base64,AAAA";
     DecalOverlay.fileName := "logo.png";
     DecalOverlay.position := vec 0 (1 # 2) (1 # 2);
     DecalOverlay.rotation := rotation;
     DecalOverlay.scale := vec (3 # 10) (3 # 10) (3 # 10);
     DecalOverlay.opacity := Fin 1;
     DecalOverlay.normal := vec 0 1 0 |}.

Definition decalStore (rotation : option DecalOverlay.Vec3) : DecalOverlay.DecalState :=
  {| DecalOverlay.decals := [sampleDecal rotation];
     DecalOverlay.placementMode := false;
     DecalOverlay.selectedDecalId := Some "decal_1" |}.

Definition surfaceClick : DecalOverlay.Click :=
  {| DecalOverlay.button := 0;
     DecalOverlay.on_canvas := true;
     DecalOverlay.hit :=
       Some {| DecalOverlay.point := vec (1 # 10) (3 # 5) (1 # 2);
               DecalOverlay.face := Some (vec 0 0 1) |} |}.

Definition untransformed (n : DecalOverlay.Vec3) : DecalOverlay.Vec3 := n.
Definition flatEuler (_ : DecalOverlay.Vec3) : DecalOverlay.Vec3 := vec 0 0 0.

(** 45 degrees in radians, to nine decimals. *)
Definition quarterTurn : jsnum := Fin (785398163 # 1000000000).

(** *** Notions for the further properties *)

(** The fields of the VehicleConfiguration a Façade mutation may write;
    [None] for the mutations that install a whole configuration. *)
Definition written_fields (op : Facade.Mutation) : option (list string) :=
  match op with
  | Facade.SetVehicleBody _ => Some ["body"]
  | Facade.SetVehicleColor _ => Some ["color"]
  | Facade.SetVehicleRoughness _ => Some ["roughness"]
  | Facade.SetVehicleAppearance _ => Some ["color"; "roughness"]
  | Facade.SetVehicleLift _ => Some ["lift"]
  | Facade.SetRim _ => Some ["rim"]
  | Facade.SetRimColor _ => Some ["rim_color"]
  | Facade.SetRimColorSecondary _ => Some ["rim_color_secondary"]
  | Facade.SetRimDiameter _ => Some ["rim_diameter"]
  | Facade.SetRimWidth _ => Some ["rim_width"]
  | Facade.SetTire _ => Some ["tire"]
  | Facade.SetTireDiameter _ => Some ["tire_diameter"]
  | Facade.SetWheelConfiguration _ =>
      Some [ "rim"; "rim_diameter"; "rim_width"; "rim_color"; "rim_color_secondary";
             "tire"; "tire_diameter"; "wheel_offset" ]
  | Facade.SetVehicleAddon _ _ | Facade.RemoveVehicleAddon _ => Some ["addons"]
  | Facade.ToggleSpareTire _ => Some ["spare"]
  | Facade.SaveVehicle _ _ _ | Facade.LoadSavedVehicle _ => Some []
  | Facade.ResetVehicle | Facade.ResetVehicleComplete
  | Facade.SetVehicleConfiguration _ | Facade.ImportVehicleConfiguration _ => None
  end.

(** The Façade setter of a field that [validateConfiguration] checks. *)
Definition setter_for (k : string) (v : jsval) : option Facade.Mutation :=
  if String.eqb k "body" then Some (Facade.SetVehicleBody v)
  else if String.eqb k "color" then Some (Facade.SetVehicleColor v)
  else if String.eqb k "roughness" then Some (Facade.SetVehicleRoughness v)
  else if String.eqb k "lift" then Some (Facade.SetVehicleLift v)
  else if String.eqb k "rim" then Some (Facade.SetRim v)
  else if String.eqb k "tire" then Some (Facade.SetTire v)
  else if String.eqb k "rim_diameter" then Some (Facade.SetRimDiameter v)
  else if String.eqb k "tire_diameter" then Some (Facade.SetTireDiameter v)
  else None.

(** When [validateConfiguration] looks at a field: the identifiers and the
    colour when they are truthy, the numbers when they are not
    [undefined]. *)
Definition looked_at (k : string) (v : jsval) : bool :=
  if String.eqb k "body" || String.eqb k "color" || String.eqb k "rim"
     || String.eqb k "tire"
  then truthy v else defined v.

(** A store whose vehicle has addon slots in the catalog. *)
Definition addonStore : Store :=
  {| currentVehicle := <["body" := str "toyota_4runner_3g"]> sampleDefaults;
     savedVehicles := ∅ |}.

(** A click the handler acts on: the left button, with something to place
    or a decal selected, on the canvas, on a face of the vehicle. *)
Definition lands (event : DecalOverlay.Click) (s : DecalOverlay.DecalState) : bool :=
  (DecalOverlay.button event =? 0)%Z
  && (DecalOverlay.placementMode s
      || DecalOverlay.id_truthy (DecalOverlay.selectedDecalId s))
  && DecalOverlay.on_canvas event
  && match DecalOverlay.hit event with
     | Some intersection => bool_decide (is_Some (DecalOverlay.face intersection))
     | None => false
     end.

(** What [foundMesh] holds after the traversal of a part of the scene. *)
Definition chosen (scene : list DecalOverlay.SceneObject)
    (found : option DecalOverlay.SceneObject) : Prop :=
  match found with
  | None => Forall (λ object, DecalOverlay.candidate object = None) scene
  | Some mesh =>
      ∃ before after n,
        scene = (before ++ mesh :: after)%list
        ∧ DecalOverlay.candidate mesh = Some n
        ∧ DecalOverlay.vertices mesh = Some n
        ∧ Forall (λ object, ∀ k, DecalOverlay.candidate object = Some k → (k < n)%nat) before
        ∧ Forall (λ object, ∀ k, DecalOverlay.candidate object = Some k → (k ≤ n)%nat) after
  end.


(* ===================================================================== *)
(** ** Properties                                                        *)
(* ===================================================================== *)

(** Unfolds the store monad. *)
Ltac unfold_m :=
  unfold SceneHandlers.report, SceneHandlers.getCurrentVehicle in *;
  unfold mbind, mret, M_bind, M_ret, lift, throw, getState, try_catch,
    setVehicle, setVehicleWith, setSavedVehicles in *.

Section JsFacts.
Context {RT : JsRuntime}.

Lemma truthy_not_nullish v : truthy v = true → nullish v = false.
Proof. by destruct v. Qed.

Lemma get_prop_total v k : nullish v = false → ∃ x, get_prop v k = Ok x.
Proof. destruct v; simpl; try discriminate; eauto. Qed.

Lemma get_prop_truthy v k : truthy v = true → ∃ x, get_prop v k = Ok x.
Proof. intros H. by apply get_prop_total, truthy_not_nullish. Qed.

Lemma opt_get_ok v k x : get_prop v k = Ok x → opt_get v k = x.
Proof. unfold opt_get. by intros ->. Qed.

End JsFacts.

Section SavedVehicles.
Context {RT : JsRuntime}.

(** C10. Whenever the saved-vehicles collection holds a non-empty [current]
    pointer, [loadSavedVehicle("current")] does not report "not found": the
    existence check finds the pointer entry itself, the call succeeds with
    the pointer's string as data, and the pointer becomes the literal string
    "current". *)
Theorem loadSavedVehicle_current (s : Store) (pointer : string) :
  savedVehicles s !! "current" = Some (VStr pointer) →
  pointer ≠ "" →
  SceneHandlers.loadSavedVehicle (VStr "current") s
  = ({| currentVehicle := currentVehicle s;
        savedVehicles := <["current" := VStr "current"]> (savedVehicles s) |},
     Ok (SceneHandlers.succeeded (VStr pointer))).
Proof.
  intros Hcur Hne.
  unfold SceneHandlers.loadSavedVehicle. unfold_m. simpl.
  unfold index. simpl. rewrite Hcur. simpl.
  destruct (String.eqb_spec pointer ""); [done|]. reflexivity.
Qed.

End SavedVehicles.

Section MapperFacts.
Context {RT : JsRuntime}.

Lemma get_prop_opt_get v k : nullish v = false → get_prop v k = Ok (opt_get v k).
Proof. intros H. destruct (get_prop_total v k H) as [x Hx]. by rewrite (opt_get_ok _ _ _ Hx). Qed.

Lemma switch_case_command_name c : switch_case (VStr (command_name c)) = Some c.
Proof. by destruct c. Qed.

(** C6 (amended). For an argument bag, [transformParameters] extracts and
    renames the fields of each command type with fallback chains in which
    the first truthy operand wins (JavaScript [||]): for [adjust_lift] the
    result's [lift_height] is [args.lift_height] if that is truthy, else
    [args.lift] if that is truthy, else 0.  For a command type that is none
    of the known ones it returns the argument bag unchanged. *)
Theorem transformParameters_first_truthy (args : jsval) :
  nullish args = false →
  (∀ c, transformParameters (VStr (command_name c)) args = Ok (VObj (transformed c args)))
  ∧ (∀ commandType, switch_case commandType = None →
       transformParameters commandType args = Ok args).
Proof.
  intros Hargs. split.
  - intros c. unfold transformParameters. rewrite switch_case_command_name.
    destruct c; simpl; rewrite ?(get_prop_opt_get _ _ Hargs); simpl;
      unfold chain, js_or; simpl; try reflexivity.
    destruct (truthy (opt_get args "lift_height")) eqn:E1; simpl; rewrite ?E1; [done|].
    by destruct (truthy (opt_get args "lift")).
  - intros ct Hct. unfold transformParameters. by rewrite Hct.
Qed.

Lemma parseFunctionCall_no_name functionCall name :
  get_prop functionCall "name" = Ok name → truthy name = false →
  parseFunctionCall functionCall = Ok None.
Proof.
  intros Hn Hf. unfold parseFunctionCall.
  destruct (truthy functionCall); [|done].
  rewrite Hn. cbn. by rewrite Hf.
Qed.

Lemma parseFunctionCall_falsy functionCall :
  truthy functionCall = false → parseFunctionCall functionCall = Ok None.
Proof. intros H. unfold parseFunctionCall. by rewrite H. Qed.

(** A name that is neither a key of the alias table nor a property
    inherited from [Object.prototype] yields [null]. *)
Lemma parseFunctionCall_unknown functionCall name :
  get_prop functionCall "name" = Ok (VStr name) →
  mapping !! name = None → is_inherited name = false →
  parseFunctionCall functionCall = Ok None.
Proof.
  intros Hn Hm Hi. unfold parseFunctionCall.
  destruct (truthy functionCall) eqn:Ht; [|done].
  rewrite Hn. cbn. destruct (negb (name =? "")%string); cbn; [|done].
  destruct (get_prop_truthy functionCall "args" Ht) as [a ->].
  destruct (get_prop_truthy functionCall "id" Ht) as [i ->].
  assert (mapFunctionNameToCommandType (VStr name) = VNull) as ->; [|done].
  unfold mapFunctionNameToCommandType, index, js_or. cbn [to_string].
  rewrite Hm. unfold object_prototype. by rewrite Hi.
Qed.

End MapperFacts.

Section DomFacts.

Lemma dom_union_within (X : gset string) (u m : gmap string jsval) :
  dom u ⊆ X → dom m ⊆ X → dom (u ∪ m) ⊆ X.
Proof.
  intros Hu Hm k. rewrite dom_union_L, elem_of_union. intros [?|?]; auto.
Qed.

Lemma dom_insert_within (X : gset string) k (v : jsval) (m : gmap string jsval) :
  k ∈ X → dom m ⊆ X → dom (<[k:=v]> m) ⊆ X.
Proof.
  intros Hk Hm j. rewrite dom_insert_L, elem_of_union, elem_of_singleton.
  intros [->|?]; auto.
Qed.

Lemma dom_empty_within (X : gset string) : dom (∅ : gmap string jsval) ⊆ X.
Proof. rewrite dom_empty_L. apply empty_subseteq. Qed.

Lemma dom_singleton_within (X : gset string) k (v : jsval) :
  k ∈ X → dom ({[ k := v ]} : gmap string jsval) ⊆ X.
Proof. rewrite dom_singleton_L. intros Hk j. by rewrite elem_of_singleton; intros ->. Qed.

(** A snapshot that has every key of the configuration replaces it. *)
Lemma union_covering (u m : gmap string jsval) : dom m ⊆ dom u → u ∪ m = u.
Proof.
  intros Hsub. apply map_eq. intros k. rewrite lookup_union.
  destruct (u !! k) eqn:Hu; [by destruct (m !! k)|].
  assert (m !! k = None) as ->; [|done].
  apply not_elem_of_dom. intros Hk. apply Hsub in Hk.
  apply elem_of_dom in Hk as [? ?]. congruence.
Qed.

End DomFacts.

(** Membership of a literal key in [vehicle_fields]. *)
Ltac field_mem := by (apply (bool_decide_unpack _); vm_compute).

(** Keys of an object built by the handlers stay within a set of keys. *)
Ltac within_fields :=
  match goal with
  | |- _ ∈ _ => field_mem
  | H : dom ?m ⊆ ?X |- dom ?m ⊆ ?X => exact H
  | |- dom (_ ∪ _) ⊆ _ => apply dom_union_within
  | |- dom (<[_:=_]> _) ⊆ _ => apply dom_insert_within
  | |- dom {[ _ := _ ]} ⊆ _ => apply dom_singleton_within
  | |- dom ∅ ⊆ _ => apply dom_empty_within
  end.

Section UpdateFacts.
Context {RT : JsRuntime}.
Variable vehicleConfigs : Catalog.

Lemma set_if_defined_within (X : gset string) k v (u : gmap string jsval) :
  k ∈ X → dom u ⊆ X → dom (UpdateHandler.set_if_defined k v u) ⊆ X.
Proof.
  intros. unfold UpdateHandler.set_if_defined.
  destruct (defined v); [by apply dom_insert_within|done].
Qed.

Lemma set_if_known_within (X : gset string) table k v (u : gmap string jsval) :
  k ∈ X → dom u ⊆ X → dom (UpdateHandler.set_if_known table k v u) ⊆ X.
Proof.
  intros. unfold UpdateHandler.set_if_known.
  destruct (defined v); [|done].
  destruct (negb _); [done|by apply dom_insert_within].
Qed.

Lemma set_addon_within (X : gset string) slot value v v' :
  "addons" ∈ X → UpdateHandler.set_addon slot value v = Ok v' →
  dom v ⊆ X → dom v' ⊆ X.
Proof.
  unfold UpdateHandler.set_addon. intros Hin Hset Hv.
  destruct (negb _).
  - injection Hset as <-. by apply dom_insert_within.
  - destruct (field v "addons"); try discriminate.
    injection Hset as <-. by apply dom_insert_within.
Qed.

Ltac within_updates :=
  first [ within_fields
        | apply set_if_defined_within
        | apply set_if_known_within ].

(** What a command handler can do to the store: on a throw nothing, and
    otherwise it keeps the saved vehicles and adds no key that is not a
    field of the VehicleConfiguration. *)
Lemma handler_outcome c parameters s :
  match UpdateHandler.handler vehicleConfigs c parameters s with
  | (s', Ok _) =>
      savedVehicles s' = savedVehicles s
      ∧ (dom (defaults vehicleConfigs) ⊆ vehicle_fields →
         dom (currentVehicle s) ⊆ vehicle_fields →
         dom (currentVehicle s') ⊆ vehicle_fields)
  | (s', Throw _) => s' = s
  end.
Proof.
  destruct c; cbn;
    unfold UpdateHandler.handleChangeModel, UpdateHandler.handleChangeColor,
      UpdateHandler.handleAdjustLift, UpdateHandler.handleChangeRims,
      UpdateHandler.handleChangeTires, UpdateHandler.handleChangeWheelSetup,
      UpdateHandler.handleAddBumper, UpdateHandler.handleAddSliders,
      UpdateHandler.handleAddRoofRack, UpdateHandler.handleToggleSpareTire,
      UpdateHandler.handleResetVehicle;
    unfold_m; cbn;
    repeat (match goal with
            | |- context [get_prop ?v ?k] => destruct (get_prop v k); cbn; [|done]
            | |- context [if negb ?b then _ else _] => destruct b; cbn; [|done]
            end);
    try done.
  all: try (split; [done|]; intros Hd Hs).
  all: repeat within_updates.
  all: try (match goal with
       | |- context [UpdateHandler.set_addon ?k ?x ?v] =>
           destruct (UpdateHandler.set_addon k x v) eqn:Hset; cbn; [|done];
           split; [done|]; intros Hd Hs;
           eapply set_addon_within; [|exact Hset|exact Hs]; field_mem
       end).
Qed.

End UpdateFacts.

Section UpdateLoop.
Context {RT : JsRuntime}.
Variable vehicleConfigs : Catalog.

(** [applyVehicleUpdate] never throws; when it returns [false] the store is
    as it was. *)
Lemma applyVehicleUpdate_outcome update s :
  ∃ s' ok,
    UpdateHandler.applyVehicleUpdate vehicleConfigs update s = (s', Ok ok)
    ∧ savedVehicles s' = savedVehicles s
    ∧ (ok = false → s' = s)
    ∧ (dom (defaults vehicleConfigs) ⊆ vehicle_fields →
       dom (currentVehicle s) ⊆ vehicle_fields →
       dom (currentVehicle s') ⊆ vehicle_fields).
Proof.
  unfold UpdateHandler.applyVehicleUpdate. unfold_m.
  destruct (switch_case (command_type update)) as [c|]; [|by eauto 10].
  pose proof (handler_outcome vehicleConfigs c (parameters update) s) as H.
  destruct (UpdateHandler.handler vehicleConfigs c (parameters update) s) as [s' [[]|e]].
  - destruct H as [Hsv Hdom]. exists s', true. by repeat split.
  - subst s'. exists s, false. by repeat split.
Qed.

(** An unrecognized [command_type] is skipped: no throw, no write, and the
    result [false]. *)
Lemma applyVehicleUpdate_unknown update s :
  switch_case (command_type update) = None →
  UpdateHandler.applyVehicleUpdate vehicleConfigs update s = (s, Ok false).
Proof.
  intros H. unfold UpdateHandler.applyVehicleUpdate. unfold_m. by rewrite H.
Qed.

Lemma update_loop_total updates : ∀ a b s,
  ∃ s' c, UpdateHandler.update_loop vehicleConfigs updates a b s = (s', Ok c)
    ∧ savedVehicles s' = savedVehicles s
    ∧ (dom (defaults vehicleConfigs) ⊆ vehicle_fields →
       dom (currentVehicle s) ⊆ vehicle_fields →
       dom (currentVehicle s') ⊆ vehicle_fields).
Proof.
  induction updates as [|u rest IH]; intros a b s.
  - exists s, {| UpdateHandler.success := a; UpdateHandler.failed := b |}. by repeat split.
  - cbn [UpdateHandler.update_loop]. unfold mbind, M_bind.
    destruct (applyVehicleUpdate_outcome u s) as (s1 & ok & -> & Hsv & _ & Hdom).
    destruct ok.
    + destruct (IH (S a) b s1) as (s' & c & -> & Hsv' & Hdom').
      exists s', c. repeat split; [congruence|auto].
    + destruct (IH a (S b) s1) as (s' & c & -> & Hsv' & Hdom').
      exists s', c. repeat split; [congruence|auto].
Qed.

(** The counters only accumulate: starting the loop with one more failure
    ends it with one more failure and the same store. *)
Lemma update_loop_one_more_failure updates : ∀ a b s s' c,
  UpdateHandler.update_loop vehicleConfigs updates a b s = (s', Ok c) →
  UpdateHandler.update_loop vehicleConfigs updates a (S b) s
  = (s', Ok {| UpdateHandler.success := UpdateHandler.success c;
               UpdateHandler.failed := S (UpdateHandler.failed c) |}).
Proof.
  induction updates as [|u rest IH]; intros a b s s' c.
  - cbn. unfold mret, M_ret. by intros [= <- <-].
  - cbn [UpdateHandler.update_loop]. unfold mbind, M_bind.
    destruct (applyVehicleUpdate_outcome u s) as (s1 & ok & -> & _).
    destruct ok; apply IH.
Qed.

Lemma update_loop_app before : ∀ after a b s s1 c1,
  UpdateHandler.update_loop vehicleConfigs before a b s = (s1, Ok c1) →
  UpdateHandler.update_loop vehicleConfigs (before ++ after) a b s
  = UpdateHandler.update_loop vehicleConfigs after
      (UpdateHandler.success c1) (UpdateHandler.failed c1) s1.
Proof.
  induction before as [|u rest IH]; intros after a b s s1 c1.
  - cbn. unfold mret, M_ret. by intros [= <- <-].
  - cbn [UpdateHandler.update_loop app]. unfold mbind, M_bind.
    destruct (applyVehicleUpdate_outcome u s) as (s2 & ok & -> & _).
    destruct ok; apply IH.
Qed.

Lemma applyVehicleUpdates_loop updates :
  UpdateHandler.applyVehicleUpdates vehicleConfigs updates
  = UpdateHandler.update_loop vehicleConfigs updates 0 0.
Proof. by destruct updates. Qed.



End UpdateLoop.

Section FacadeAtomicity.
Context {RT : JsRuntime}.
Variable vehicleConfigs : Catalog.

(** A computation that, when it reports failure, has written nothing. *)
Local Abbreviation atomic m :=
  (∀ s s' r, m s = (s', Ok r) → SceneHandlers.success r = false →
     s' = s ∧ is_Some (SceneHandlers.error r)).

(** Closes a branch of a handler: the returned pair is known. *)
Ltac returned H :=
  injection H as <- <-; first [ done | split; [done | by eexists] ].

Ltac open_handler H :=
  unfold_m; cbn in H;
  repeat match type of H with
         | context [if ?b then _ else _] => destruct b eqn:?; cbn in H
         end;
  try (returned H).

Lemma setVehicleBody_atomic v : atomic (SceneHandlers.setVehicleBody vehicleConfigs v).
Proof.
  intros s s' r H Hf. unfold SceneHandlers.setVehicleBody, SceneHandlers.getVehicleBody in H.
  open_handler H.
Qed.

Lemma setVehicleColor_atomic v : atomic (SceneHandlers.setVehicleColor v).
Proof. intros s s' r H Hf. unfold SceneHandlers.setVehicleColor in H. open_handler H. Qed.

Lemma setVehicleRoughness_atomic v : atomic (SceneHandlers.setVehicleRoughness v).
Proof. intros s s' r H Hf. unfold SceneHandlers.setVehicleRoughness in H. open_handler H. Qed.

Lemma setVehicleLift_atomic v : atomic (SceneHandlers.setVehicleLift v).
Proof. intros s s' r H Hf. unfold SceneHandlers.setVehicleLift in H. open_handler H. Qed.

Lemma setRimColor_atomic v : atomic (SceneHandlers.setRimColor v).
Proof. intros s s' r H Hf. unfold SceneHandlers.setRimColor in H. open_handler H. Qed.

Lemma setRimColorSecondary_atomic v : atomic (SceneHandlers.setRimColorSecondary v).
Proof. intros s s' r H Hf. unfold SceneHandlers.setRimColorSecondary in H. open_handler H. Qed.

Lemma setRimDiameter_atomic v : atomic (SceneHandlers.setRimDiameter v).
Proof. intros s s' r H Hf. unfold SceneHandlers.setRimDiameter in H. open_handler H. Qed.

Lemma setRimWidth_atomic v : atomic (SceneHandlers.setRimWidth v).
Proof. intros s s' r H Hf. unfold SceneHandlers.setRimWidth in H. open_handler H. Qed.

Lemma setTireDiameter_atomic v : atomic (SceneHandlers.setTireDiameter v).
Proof. intros s s' r H Hf. unfold SceneHandlers.setTireDiameter in H. open_handler H. Qed.

Lemma toggleSpareTire_atomic v : atomic (SceneHandlers.toggleSpareTire v).
Proof. intros s s' r H Hf. unfold SceneHandlers.toggleSpareTire in H. open_handler H. Qed.

Lemma resetVehicle_atomic : atomic (SceneHandlers.resetVehicle vehicleConfigs).
Proof. intros s s' r H Hf. unfold SceneHandlers.resetVehicle in H. open_handler H. Qed.

Lemma resetVehicleComplete_atomic : atomic (SceneHandlers.resetVehicleComplete vehicleConfigs).
Proof. intros s s' r H Hf. unfold SceneHandlers.resetVehicleComplete in H. open_handler H. Qed.

(** The data of a successful [setRim] or [setTire] is read from a catalog
    entry that the check has found truthy, so reading it cannot throw
    after the write. *)
Lemma setRim_atomic v : atomic (SceneHandlers.setRim vehicleConfigs v).
Proof.
  intros s s' r H Hf. unfold SceneHandlers.setRim in H. unfold_m. cbn in H.
  destruct (truthy (index (rims vehicleConfigs) v)) eqn:Ht; cbn in H.
  - destruct (get_prop_truthy _ "name" Ht) as [x Hx].
    destruct (get_prop_truthy _ "make" Ht) as [y Hy].
    rewrite Hx, Hy in H. cbn in H. returned H.
  - returned H.
Qed.

Lemma setTire_atomic v : atomic (SceneHandlers.setTire vehicleConfigs v).
Proof.
  intros s s' r H Hf. unfold SceneHandlers.setTire in H. unfold_m. cbn in H.
  destruct (truthy (index (tires vehicleConfigs) v)) eqn:Ht; cbn in H.
  - destruct (get_prop_truthy _ "name" Ht) as [x Hx].
    destruct (get_prop_truthy _ "make" Ht) as [y Hy].
    rewrite Hx, Hy in H. cbn in H. returned H.
  - returned H.
Qed.

Lemma setVehicleAppearance_atomic p : atomic (SceneHandlers.setVehicleAppearance p).
Proof.
  intros s s' r H Hf. unfold SceneHandlers.setVehicleAppearance in H. unfold_m.
  destruct (get_prop p "color"); [|done].
  destruct (get_prop p "roughness"); [|done].
  cbn in H.
  destruct (SceneHandlers.check_field _ _ _ _ _ _) as [updates errors].
  destruct (length errors); [|returned H].
  destruct (size updates =? 0)%nat; [returned H|].
  cbn in H. returned H.
Qed.

Lemma setWheelConfiguration_atomic p :
  atomic (SceneHandlers.setWheelConfiguration vehicleConfigs p).
Proof.
  intros s s' r H Hf. unfold SceneHandlers.setWheelConfiguration in H. unfold_m.
  destruct (SceneHandlers.wheel_checks vehicleConfigs p) as [[updates errors]|]; [|done].
  destruct (0 <? length errors)%nat; [returned H|].
  destruct (size updates =? 0)%nat; [returned H|].
  cbn in H. returned H.
Qed.

Lemma removeVehicleAddon_atomic v : atomic (SceneHandlers.removeVehicleAddon v).
Proof.
  intros s s' r H Hf. unfold SceneHandlers.removeVehicleAddon in H. unfold_m.
  destruct (SceneHandlers.delete_addon _ _); cbn in H; returned H.
Qed.

Lemma setVehicleAddon_atomic t v :
  atomic (SceneHandlers.setVehicleAddon vehicleConfigs t v).
Proof.
  intros s s' r H Hf. unfold SceneHandlers.setVehicleAddon in H. unfold_m. cbn in H.
  destruct (get_prop _ "addons") as [addons|]; cbn in H; [|returned H].
  destruct (truthy addons) eqn:Haddons; cbn in H; [|returned H].
  destruct (get_prop addons (to_string t)) as [addonConfig|]; cbn in H;
    [|returned H].
  destruct (truthy addonConfig); cbn in H; [|returned H].
  destruct (get_prop addonConfig "options") as [options|]; cbn in H;
    [|returned H].
  destruct (get_prop options (to_string v)) as [option|]; cbn in H;
    [|returned H].
  destruct (truthy option) eqn:Hopt; cbn in H; [|returned H].
  destruct (SceneHandlers.assign_addon _ _ _); cbn in H; [|returned H].
  destruct (get_prop_truthy _ "name" Hopt) as [x Hx]. rewrite Hx in H. cbn in H.
  returned H.
Qed.

Lemma setVehicleConfiguration_atomic c :
  atomic (SceneHandlers.setVehicleConfiguration vehicleConfigs c).
Proof.
  intros s s' r H Hf. unfold SceneHandlers.setVehicleConfiguration in H. unfold_m.
  destruct (negb (truthy c) || _); cbn in H; [returned H|].
  destruct (get_prop c "body") as [body|]; cbn in H; [|returned H].
  destruct (truthy body && _); cbn in H; returned H.
Qed.

Lemma saveVehicle_atomic n t t' : atomic (SceneHandlers.saveVehicle n t t').
Proof.
  intros s s' r H Hf. unfold SceneHandlers.saveVehicle in H. unfold_m.
  destruct (_ || _); cbn in H; returned H.
Qed.

Lemma loadSavedVehicle_atomic v : atomic (SceneHandlers.loadSavedVehicle v).
Proof.
  intros s s' r H Hf. unfold SceneHandlers.loadSavedVehicle in H. unfold_m. cbn in H.
  destruct (negb _); cbn in H; returned H.
Qed.

(** Whenever a Façade mutation returns a failure envelope, it has written
    nothing. *)
Lemma run_mutation_atomic op : atomic (run_mutation vehicleConfigs op).
Proof.
  destruct op; cbn [run_mutation].
  - apply setVehicleBody_atomic.
  - apply setVehicleColor_atomic.
  - apply setVehicleRoughness_atomic.
  - apply setVehicleAppearance_atomic.
  - apply setVehicleLift_atomic.
  - apply setRim_atomic.
  - apply setRimColor_atomic.
  - apply setRimColorSecondary_atomic.
  - apply setRimDiameter_atomic.
  - apply setRimWidth_atomic.
  - apply setTire_atomic.
  - apply setTireDiameter_atomic.
  - apply setWheelConfiguration_atomic.
  - apply setVehicleAddon_atomic.
  - apply removeVehicleAddon_atomic.
  - apply toggleSpareTire_atomic.
  - apply resetVehicle_atomic.
  - apply resetVehicleComplete_atomic.
  - apply setVehicleConfiguration_atomic.
  - apply setVehicleConfiguration_atomic.
  - apply saveVehicle_atomic.
  - apply loadSavedVehicle_atomic.
Qed.

End FacadeAtomicity.

Section WheelConfiguration.
Context {RT : JsRuntime}.
Variable vehicleConfigs : Catalog.

Lemma check_field_errors_grow v invalid message key value acc :
  (length acc.2 ≤ length (SceneHandlers.check_field v invalid message key value acc).2)%nat.
Proof.
  unfold SceneHandlers.check_field. destruct (defined v), invalid; cbn; try lia.
  rewrite length_app. lia.
Qed.

Lemma check_field_errors_hit v message key value acc :
  defined v = true →
  (0 < length (SceneHandlers.check_field v true message key value acc).2)%nat.
Proof.
  intros Hd. unfold SceneHandlers.check_field. rewrite Hd. cbn.
  rewrite length_app. cbn. lia.
Qed.

(** One provided field that fails its check leaves [errors] non-empty. *)
Lemma wheel_checks_collect params k v :
  get_prop params k = Ok v → defined v = true →
  wheel_field_invalid vehicleConfigs k v = true →
  ∃ updates errors,
    SceneHandlers.wheel_checks vehicleConfigs params = Ok (updates, errors)
    ∧ (0 < length errors)%nat.
Proof.
  intros Hget Hdef Hinvalid.
  assert (nullish params = false) as Hparams by (by destruct params).
  unfold SceneHandlers.wheel_checks.
  rewrite !(get_prop_opt_get _ _ Hparams). cbn.
  rewrite (get_prop_opt_get _ _ Hparams) in Hget. injection Hget as Hv.
  match goal with
  | |- ∃ updates errors, Ok ?acc = Ok (updates, errors) ∧ _ =>
      exists acc.1, acc.2; split; [by destruct acc|]
  end.
  match goal with
  | |- context [if ?b then _ else _] => destruct b
  end; cbn [snd];
  unfold wheel_field_invalid in Hinvalid;
  repeat match type of Hinvalid with
         | context [String.eqb k ?lit] =>
             destruct (String.eqb_spec k lit) as [->|_]
         end; try discriminate; subst v; rewrite Hinvalid;
  repeat first
    [ by apply check_field_errors_hit
    | eapply Nat.lt_le_trans; [|apply check_field_errors_grow] ].
Qed.


End WheelConfiguration.


Section CommittedValues.
Context {RT : JsRuntime}.
Variable vehicleConfigs : Catalog.

(** The keys of [u] selected by [K] hold values that pass their rule. *)
Local Abbreviation valid_on K u :=
  (∀ k v, K k = true → (u : gmap string jsval) !! k = Some v →
          field_rule vehicleConfigs k v = true).

(** The configuration of [s'] is that of [s] with such an object merged. *)
Local Abbreviation commits K s s' :=
  (∃ u : gmap string jsval,
     currentVehicle s' = u ∪ currentVehicle s ∧ valid_on K u).

Lemma valid_on_empty (K : string → bool) : valid_on K ∅.
Proof. intros k v _. by rewrite lookup_empty. Qed.

Lemma valid_on_insert (K : string → bool) key x (u : gmap string jsval) :
  (K key = true → field_rule vehicleConfigs key x = true) →
  valid_on K u → valid_on K (<[key := x]> u).
Proof.
  intros Hx Hu k v HK. rewrite lookup_insert_Some.
  intros [[<- <-]|[_ Hk]]; [by apply Hx|by apply (Hu k)].
Qed.

Lemma valid_on_singleton (K : string → bool) key x :
  (K key = true → field_rule vehicleConfigs key x = true) →
  valid_on K ({[ key := x ]} : gmap string jsval).
Proof.
  intros Hx k v HK. rewrite lookup_singleton_Some. intros [<- <-]. by apply Hx.
Qed.

Lemma merges_nothing (K : string → bool) (m : gmap string jsval) :
  ∃ u : gmap string jsval, m = u ∪ m ∧ valid_on K u.
Proof. exists ∅. split; [by rewrite (left_id ∅ (∪))|apply valid_on_empty]. Qed.

Lemma commits_nothing (K : string → bool) s : commits K s s.
Proof. apply merges_nothing. Qed.

Lemma merges_insert (K : string → bool) key x (m : gmap string jsval) :
  (K key = true → field_rule vehicleConfigs key x = true) →
  ∃ u : gmap string jsval, <[key := x]> m = u ∪ m ∧ valid_on K u.
Proof.
  intros Hx. exists {[ key := x ]}.
  split; [by rewrite insert_union_singleton_l|by apply valid_on_singleton].
Qed.

(** A key whose value changed was a key of the merged object. *)
Lemma commits_changed (K : string → bool) s s' k :
  commits K s s' → K k = true →
  currentVehicle s' !! k ≠ currentVehicle s !! k →
  ∃ v, currentVehicle s' !! k = Some v ∧ field_rule vehicleConfigs k v = true.
Proof.
  intros (u & -> & Hu) HK Hchanged. rewrite lookup_union in *.
  destruct (u !! k) as [v|] eqn:Hk.
  - exists v. split; [by destruct (currentVehicle s !! k)|by apply (Hu k)].
  - by rewrite (left_id None _) in Hchanged.
Qed.

Lemma check_field_valid (K : string → bool) v invalid message key value acc :
  (invalid = false → field_rule vehicleConfigs key value = true) →
  valid_on K acc.1 →
  valid_on K (SceneHandlers.check_field v invalid message key value acc).1.
Proof.
  intros Hrule Hacc. unfold SceneHandlers.check_field.
  destruct (defined v); [|done]. destruct invalid; [done|].
  cbn [fst]. apply valid_on_insert; auto.
Qed.

Lemma within_inside r n :
  SceneHandlers.outside n r = false → within r (VNum n) = true.
Proof. intros H. unfold within. by rewrite H. Qed.

Local Abbreviation all_keys := (λ _ : string, true).

Lemma wheel_checks_valid params updates errors :
  SceneHandlers.wheel_checks vehicleConfigs params = Ok (updates, errors) →
  valid_on all_keys updates.
Proof.
  unfold SceneHandlers.wheel_checks.
  repeat match goal with
         | |- context [get_prop params ?k] => destruct (get_prop params k); [|done]
         end.
  cbn. intros [= Hacc]. apply (f_equal fst) in Hacc. cbn [fst] in Hacc.
  rewrite <- Hacc. clear Hacc.
  match goal with
  | |- context [if ?b then _ else _] => destruct b
  end; cbn [fst]; try apply valid_on_insert; try done;
  repeat (apply check_field_valid;
          [ first [ by intros ->%negb_false_iff | by apply within_inside | idtac ] | ]);
  try apply valid_on_empty.
  all: unfold field_rule; cbn; first [ by intros ->%negb_false_iff | by intros -> ].
Qed.

(** What a Façade field setter merges has passed the rule of each field. *)
Lemma field_setter_commits op s :
  Facade.field_setter op = true →
  commits all_keys s (run_mutation vehicleConfigs op s).1.
Proof.
  intros Hop. destruct op; try discriminate; cbn [run_mutation].
  all: try (
    unfold SceneHandlers.setVehicleBody, SceneHandlers.getVehicleBody,
      SceneHandlers.setVehicleColor, SceneHandlers.setVehicleRoughness,
      SceneHandlers.setVehicleLift, SceneHandlers.setRimColor,
      SceneHandlers.setRimColorSecondary, SceneHandlers.setRimDiameter,
      SceneHandlers.setRimWidth, SceneHandlers.setTireDiameter,
      SceneHandlers.toggleSpareTire;
    unfold_m; cbn;
    match goal with
    | |- context [if ?b then _ else _] => destruct b eqn:Hcheck; cbn
    | _ => idtac
    end;
    first
      [ apply commits_nothing
      | eexists; split; [reflexivity|];
        apply valid_on_singleton; intros _; unfold field_rule; cbn;
        first [ by apply negb_false_iff | by rewrite Hcheck | done ] ]).
  - (* setVehicleAppearance *)
    unfold SceneHandlers.setVehicleAppearance. unfold_m.
    destruct (get_prop params "color") as [color|]; [|apply commits_nothing].
    destruct (get_prop params "roughness") as [roughness|]; [|apply commits_nothing].
    cbn.
    match goal with
    | |- context [SceneHandlers.check_field ?v ?i ?m ?k ?x (SceneHandlers.check_field ?v' ?i' ?m' ?k' ?x' ?acc)] =>
        pose proof (check_field_valid all_keys v i m k x
                      (SceneHandlers.check_field v' i' m' k' x' acc)) as Hvalid;
        destruct (SceneHandlers.check_field v i m k x
                    (SceneHandlers.check_field v' i' m' k' x' acc)) as [updates errors]
    end.
    destruct (length errors); [|apply commits_nothing].
    destruct (size updates =? 0)%nat; [apply commits_nothing|].
    cbn. exists updates. split; [done|]. apply Hvalid.
    + by apply within_inside.
    + apply check_field_valid; [|apply valid_on_empty].
      unfold field_rule; cbn. by intros ->%negb_false_iff.
  - (* setRim *)
    unfold SceneHandlers.setRim. unfold_m. cbn.
    destruct (truthy (index (rims vehicleConfigs) rimId)) eqn:Ht; cbn;
      [|apply commits_nothing].
    destruct (get_prop_truthy _ "name" Ht) as [x ->].
    destruct (get_prop_truthy _ "make" Ht) as [y ->]. cbn.
    eexists; split; [reflexivity|]. by apply valid_on_singleton.
  - (* setTire *)
    unfold SceneHandlers.setTire. unfold_m. cbn.
    destruct (truthy (index (tires vehicleConfigs) tireId)) eqn:Ht; cbn;
      [|apply commits_nothing].
    destruct (get_prop_truthy _ "name" Ht) as [x ->].
    destruct (get_prop_truthy _ "make" Ht) as [y ->]. cbn.
    eexists; split; [reflexivity|]. by apply valid_on_singleton.
  - (* setWheelConfiguration *)
    unfold SceneHandlers.setWheelConfiguration. unfold_m.
    destruct (SceneHandlers.wheel_checks vehicleConfigs params)
      as [[updates errors]|] eqn:Hchecks; [|apply commits_nothing].
    destruct (0 <? length errors)%nat; [apply commits_nothing|].
    destruct (size updates =? 0)%nat; [apply commits_nothing|].
    cbn. exists updates. split; [done|]. by eapply wheel_checks_valid.
  - (* setVehicleAddon *)
    unfold SceneHandlers.setVehicleAddon. unfold_m. cbn.
    repeat match goal with
           | |- context [match get_prop ?v ?k with _ => _ end] =>
               destruct (get_prop v k); cbn; [|apply commits_nothing]
           | |- context [if ?b then _ else _] =>
               destruct b eqn:?; cbn; try apply commits_nothing
           end.
    all: unfold SceneHandlers.assign_addon;
      repeat match goal with
             | |- context [if ?b then _ else _] => destruct b eqn:?; cbn
             | |- context [match field ?v ?k with _ => _ end] =>
                 destruct (field v k); cbn; try apply commits_nothing
             | |- context [match get_prop ?v ?k with _ => _ end] =>
                 destruct (get_prop v k); cbn
             end;
      try apply commits_nothing;
      by apply merges_insert.
  - (* removeVehicleAddon *)
    unfold SceneHandlers.removeVehicleAddon, SceneHandlers.delete_addon. unfold_m.
    repeat match goal with
           | |- context [if ?b then _ else _] => destruct b eqn:?; cbn
           | |- context [match get_prop ?v ?k with _ => _ end] =>
               destruct (get_prop v k); cbn
           | |- context [match field ?v ?k with _ => _ end] =>
               destruct (field v k); cbn
           end;
      first [ apply commits_nothing | by apply merges_insert ].
  - (* saveVehicle *)
    unfold SceneHandlers.saveVehicle. unfold_m.
    destruct (_ || _); cbn; [apply commits_nothing|].
    exists ∅. split; [by rewrite (left_id ∅ (∪))|apply valid_on_empty].
  - (* loadSavedVehicle *)
    unfold SceneHandlers.loadSavedVehicle. unfold_m. cbn.
    destruct (negb _); cbn; [apply commits_nothing|].
    exists ∅. split; [by rewrite (left_id ∅ (∪))|apply valid_on_empty].
Qed.

End CommittedValues.

Section AgentWrites.
Context {RT : JsRuntime}.
Variable vehicleConfigs : Catalog.

Local Abbreviation agent_keys :=
  (λ k : string, String.eqb k "body" || String.eqb k "rim" || String.eqb k "tire").

Local Abbreviation valid_on K u :=
  (∀ k v, K k = true → (u : gmap string jsval) !! k = Some v →
          field_rule vehicleConfigs k v = true).

Lemma set_if_defined_valid (K : string → bool) key v (u : gmap string jsval) :
  (K key = true → field_rule vehicleConfigs key v = true) →
  valid_on K u → valid_on K (UpdateHandler.set_if_defined key v u).
Proof.
  intros Hk Hu. unfold UpdateHandler.set_if_defined.
  destruct (defined v); [by apply valid_on_insert|done].
Qed.

Lemma set_if_known_valid (K : string → bool) table key id (u : gmap string jsval) :
  (truthy (index table id) = true → field_rule vehicleConfigs key id = true) →
  valid_on K u → valid_on K (UpdateHandler.set_if_known table key id u).
Proof.
  intros Hk Hu. unfold UpdateHandler.set_if_known.
  destruct (defined id); [|done].
  destruct (truthy (index table id)); cbn; [|done].
  apply valid_on_insert; auto.
Qed.

(** What an agent command merges: a [body], [rim] or [tire] only with a
    truthy catalog entry; the other fields as received. *)
Lemma agent_command_commits update s :
  switch_case (command_type update) ≠ Some ResetVehicle →
  ∃ u : gmap string jsval,
    currentVehicle (UpdateHandler.applyVehicleUpdate vehicleConfigs update s).1
    = u ∪ currentVehicle s
    ∧ valid_on agent_keys u.
Proof.
  intros Hreset. unfold UpdateHandler.applyVehicleUpdate. unfold_m.
  destruct (switch_case (command_type update)) as [c|]; [|apply merges_nothing].
  destruct c; try done; cbn [UpdateHandler.handler];
    unfold UpdateHandler.handleChangeModel, UpdateHandler.handleChangeColor,
      UpdateHandler.handleAdjustLift, UpdateHandler.handleChangeRims,
      UpdateHandler.handleChangeTires, UpdateHandler.handleChangeWheelSetup,
      UpdateHandler.handleAddBumper, UpdateHandler.handleAddSliders,
      UpdateHandler.handleAddRoofRack, UpdateHandler.handleToggleSpareTire;
    unfold_m; cbn;
    repeat (match goal with
            | |- context [get_prop ?v ?k] =>
                destruct (get_prop v k); cbn; [|apply merges_nothing]
            | |- context [if negb ?b then _ else _] =>
                destruct b eqn:?; cbn; [|apply merges_nothing]
            end).
  all: try (eexists; split; [reflexivity|];
            repeat first [ apply set_if_defined_valid; [by intros [=]|]
                         | apply set_if_known_valid; [done|]
                         | apply valid_on_singleton; first [by intros [=] | done]
                         | apply valid_on_empty ]).
  all: unfold UpdateHandler.set_addon;
    repeat match goal with
           | |- context [if ?b then _ else _] => destruct b eqn:?; cbn
           | |- context [match field ?v ?k with _ => _ end] => destruct (field v k); cbn
           end;
    first [ apply merges_nothing | by apply merges_insert ].
Qed.


End AgentWrites.



Section Batch.
Context {RT : JsRuntime}.
Variable vehicleConfigs : Catalog.

(** The tally the loop reaches from [t] is [t] extended by the attempts of
    the remaining items, one entry each. *)
Lemma batch_loop_attempts updates : ∀ t s,
  SceneHandlers.batch_loop vehicleConfigs updates t s
  = ((attempt_all vehicleConfigs updates s).1,
     Ok {| SceneHandlers.t_results :=
             SceneHandlers.t_results t ++ (attempt_all vehicleConfigs updates s).2;
           SceneHandlers.t_success :=
             SceneHandlers.t_success t
             + length (List.filter (λ e, SceneHandlers.success e.2)
                         (attempt_all vehicleConfigs updates s).2);
           SceneHandlers.t_failure :=
             SceneHandlers.t_failure t
             + length (List.filter (λ e, negb (SceneHandlers.success e.2))
                         (attempt_all vehicleConfigs updates s).2) |}).
Proof.
  induction updates as [|u rest IH]; intros t s.
  - cbn. unfold mret, M_ret. rewrite app_nil_r, !Nat.add_0_r. by destruct t.
  - cbn [SceneHandlers.batch_loop attempt_all]. unfold mbind at 1, M_bind at 1.
    unfold try_catch, attempt. unfold mbind at 1, M_bind at 1.
    destruct (SceneHandlers.dispatch vehicleConfigs u s) as [s1 [r|e]];
      unfold mret, M_ret; rewrite IH;
      destruct (attempt_all vehicleConfigs rest s1) as [s2 entries]; cbn;
      rewrite <- app_assoc; cbn.
    + destruct (SceneHandlers.success r); cbn; repeat f_equal; lia.
    + repeat f_equal; lia.
Qed.

Lemma attempt_all_entries updates : ∀ s,
  length (attempt_all vehicleConfigs updates s).2 = length updates
  ∧ (attempt_all vehicleConfigs updates s).2.*1 = SceneHandlers.operation <$> updates.
Proof.
  induction updates as [|u rest IH]; intros s; [done|].
  cbn [attempt_all]. destruct (attempt vehicleConfigs u s) as [s1 r].
  destruct (IH s1) as [Hlen Hops].
  destruct (attempt_all vehicleConfigs rest s1) as [s2 entries]. cbn in *.
  by rewrite Hlen, Hops.
Qed.

Lemma filter_partition_length {A} (f : A → bool) (l : list A) :
  length (List.filter f l) + length (List.filter (λ a, negb (f a)) l) = length l.
Proof. induction l as [|a l IH]; [done|]. cbn. destruct (f a); cbn; lia. Qed.


End Batch.

(** The example of the test-suite: of three updates the second is invalid;
    two succeed, one fails, and the third one's lift is in the store. *)
Lemma applyBatchUpdates_second_invalid :
  let updates := [ update "setVehicleBody" (str "jeep_jku");
                   update "setVehicleColor" (str "invalid_color");
                   update "setVehicleLift" (num 3) ] in
  let out := SceneHandlers.applyBatchUpdates (RT:=refRuntime) sampleCatalog updates sampleStore in
  ∃ b, out.2 = Ok b
       ∧ SceneHandlers.batch_success b = false
       ∧ SceneHandlers.total b = 3
       ∧ SceneHandlers.successCount b = 2
       ∧ SceneHandlers.failureCount b = 1
       ∧ SceneHandlers.success <$> (SceneHandlers.results b).*2 = [true; false; true]
       ∧ currentVehicle out.1 !! "body" = Some (str "jeep_jku")
       ∧ currentVehicle out.1 !! "color" = Some (str "#B91818")
       ∧ currentVehicle out.1 !! "lift" = Some (num 3).
Proof. eexists. split; [by vm_compute|]. by vm_compute. Qed.

Section RoundTrip.
Context {RT : JsRuntime}.
Variable vehicleConfigs : Catalog.

Lemma field_union (u m : gmap string jsval) k :
  field (u ∪ m) k = match u !! k with Some x => x | None => field m k end.
Proof.
  unfold field. rewrite lookup_union.
  destruct (u !! k), (m !! k); done.
Qed.

Lemma get_prop_object (o : gmap string jsval) k : get_prop (VObj o) k = Ok (field o k).
Proof. done. Qed.

Lemma setVehicleConfiguration_keeps_body_accepted config s :
  body_accepted vehicleConfigs (field (currentVehicle s) "body") = true →
  body_accepted vehicleConfigs
    (field (currentVehicle
              (SceneHandlers.setVehicleConfiguration vehicleConfigs config s).1) "body")
  = true.
Proof.
  intros Hs. unfold SceneHandlers.setVehicleConfiguration. unfold_m.
  destruct config; cbn; rewrite ?orb_true_r; cbn; try done.
  - destruct (o !! "body") as [b|] eqn:Hb; cbn.
    + destruct (truthy b) eqn:Hbt; cbn.
      * destruct (truthy (index (vehicles vehicleConfigs) b)) eqn:Hbk; cbn; [|done].
        rewrite field_union, Hb. unfold body_accepted. by rewrite Hbk, orb_true_r.
      * rewrite field_union, Hb. unfold body_accepted. by rewrite Hbt.
    + by rewrite field_union, Hb.
  - destruct (name =? "__proto__")%string; cbn; [|done].
    destruct (truthy (prim_get _ _) && _); cbn; [done|].
    by rewrite (left_id ∅ (∪)).
Qed.

(** The body of a configuration written through the Façade alone is always
    one that [setVehicleConfiguration] accepts. *)
Lemma facade_mutation_keeps_body_accepted op s :
  body_accepted vehicleConfigs (field (defaults vehicleConfigs) "body") = true →
  body_accepted vehicleConfigs (field (currentVehicle s) "body") = true →
  body_accepted vehicleConfigs
    (field (currentVehicle (run_mutation vehicleConfigs op s).1) "body") = true.
Proof.
  intros Hdefaults Hs.
  destruct (Facade.field_setter op) eqn:Hop.
  - destruct (field_setter_commits vehicleConfigs op s Hop) as (u & -> & Hu).
    rewrite field_union. destruct (u !! "body") as [b|] eqn:Hb; [|done].
    unfold body_accepted. apply orb_true_iff. right. by apply (Hu "body" b).
  - destruct op; try discriminate; cbn [run_mutation].
    + (* resetVehicle *)
      unfold SceneHandlers.resetVehicle, SceneHandlers.defaults_for. unfold_m. cbn.
      rewrite field_union.
      rewrite lookup_insert_ne by done. by rewrite lookup_insert_eq.
    + (* resetVehicleComplete *)
      unfold SceneHandlers.resetVehicleComplete. unfold_m. cbn.
      rewrite field_union. rewrite lookup_insert_ne by done.
      unfold field in Hdefaults.
      by destruct (defaults vehicleConfigs !! "body").
    + by apply setVehicleConfiguration_keeps_body_accepted.
    + by apply setVehicleConfiguration_keeps_body_accepted.
Qed.

Lemma facade_reachable_body_accepted s :
  body_accepted vehicleConfigs (field (defaults vehicleConfigs) "body") = true →
  facade_reachable vehicleConfigs s →
  body_accepted vehicleConfigs (field (currentVehicle s) "body") = true.
Proof.
  intros Hdefaults Hreach. induction Hreach as [|op s _ IH]; [done|].
  by apply facade_mutation_keeps_body_accepted.
Qed.


End RoundTrip.


(* ===================================================================== *)
(** ** Re-placing a decal by a click                                      *)
(* ===================================================================== *)

Section Decals.
Variable worldNormal : DecalOverlay.Vec3 → DecalOverlay.Vec3.
Variable eulerFromNormal : DecalOverlay.Vec3 → DecalOverlay.Vec3.

Local Abbreviation has_id target := (λ d, String.eqb (DecalOverlay.id d) target).

Lemma find_updateDecal target u s d :
  find (has_id target) (DecalOverlay.decals s) = Some d →
  find (has_id target) (DecalOverlay.decals (DecalOverlay.updateDecal target u s))
  = Some (DecalOverlay.merge_decal d u).
Proof.
  unfold DecalOverlay.updateDecal. cbn [DecalOverlay.decals].
  induction (DecalOverlay.decals s) as [|d0 ds IH]; [done|]. cbn.
  destruct (String.eqb (DecalOverlay.id d0) target) eqn:E; cbn; rewrite E.
  - by intros [= ->].
  - apply IH.
Qed.

Lemma or_zero_keeps_number n :
  isNaN n = false →
  same_number (DecalOverlay.or_zero (Some n)) n = true
  ∧ (num_truthy n = true → DecalOverlay.or_zero (Some n) = n).
Proof.
  destruct n as [|negative|q]; cbn; [done| |].
  - intros _. split; [by destruct negative|done].
  - intros _. destruct (Qeq_bool q 0) eqn:E; cbn.
    + split; [|done]. apply Qeq_bool_iff. symmetry. by apply Qeq_bool_iff.
    + split; [|done]. by apply Qeq_bool_iff.
Qed.

Lemma id_truthy_nonempty target :
  target ≠ "" → DecalOverlay.id_truthy (Some target) = true.
Proof. intros Hne. cbn. by destruct (String.eqb_spec target ""). Qed.


End Decals.



(* ===================================================================== *)
(** ** The properties on concrete inputs                                 *)
(* ===================================================================== *)




(** C6 on an example: [lift_height] is missing and the alias [lift] is
    taken. *)
Lemma transformParameters_first_truthy_witness :
  let args := VObj {[ "lift" := num 2 ]} in
  nullish args = false
  ∧ (∀ c, transformParameters (RT:=refRuntime) (VStr (command_name c)) args
          = Ok (VObj (transformed (RT:=refRuntime) c args)))
  ∧ (∀ commandType, switch_case commandType = None →
       transformParameters (RT:=refRuntime) commandType args = Ok args).
Proof.
  split; [reflexivity|].
  exact (transformParameters_first_truthy (RT:=refRuntime) (VObj {[ "lift" := num 2 ]})
           eq_refl).
Defined.

(** C6, as stated, fails: an explicit [lift_height] of 0 does not win over
    the alias; [{lift_height: 0, lift: 3}] is transformed to
    [{lift_height: 3}]. *)
Lemma zero_lift_height_loses_to_alias :
  transformParameters (RT:=refRuntime) (VStr "adjust_lift")
    (VObj (<["lift_height" := num 0]> {[ "lift" := num 3 ]}))
  = Ok (VObj {[ "lift_height" := num 3 ]}).
Proof. by vm_compute. Qed.

(** C7 on the failing input: the name "constructor" is not a key of the
    alias table, yet the lookup [mapping[functionName]] finds the property
    the table inherits from [Object.prototype], which is truthy; so
    [parseFunctionCall] returns a command, whose [command_type] is that
    function, and [parseFunctionCallsFromEvent] returns it. *)
Theorem parseFunctionCall_inherited_name :
  let functionCall := call "constructor" ∅ in
  let made :=
    {| command_type := VBuiltin "constructor";
       parameters := VObj ∅;
       description := VStr "Executed constructor";
       client_id := VStr "default";
       function_call_id := VUndef |} in
  mapping !! "constructor" = None
  ∧ parseFunctionCall (RT:=refRuntime) functionCall = Ok (Some made)
  ∧ parseFunctionCallsFromEvent (RT:=refRuntime)
      (Some {| functionCall := functionCall; content_parts := None; parts := None |})
    = Ok [made].
Proof. by vm_compute. Qed.

(** C10 on an example: the pointer names the saved vehicle
    "vehicle_1700000000000". *)
Lemma loadSavedVehicle_current_witness :
  SceneHandlers.loadSavedVehicle (RT:=refRuntime) (VStr "current") savedStore
  = ({| currentVehicle := currentVehicle savedStore;
        savedVehicles := <["current" := VStr "current"]> (savedVehicles savedStore) |},
     Ok (SceneHandlers.succeeded (VStr "vehicle_1700000000000"))).
Proof.
  apply (loadSavedVehicle_current (RT:=refRuntime) savedStore "vehicle_1700000000000").
  - reflexivity.
  - discriminate.
Defined.

(* ===================================================================== *)
(** ** Events that carry only unrecognized calls                         *)
(* ===================================================================== *)

Section UnrecognizedCalls.
Context {RT : JsRuntime}.

Lemma parseFunctionCall_unrecognized functionCall :
  unrecognized functionCall → parseFunctionCall functionCall = Ok None.
Proof.
  intros [Hfalsy|(name & Hname & [Hempty|(s & -> & Hmapping & Hinherited)])].
  - by apply parseFunctionCall_falsy.
  - by apply (parseFunctionCall_no_name _ name).
  - by apply (parseFunctionCall_unknown _ s).
Qed.

Lemma scan_parts_unrecognized ps : ∀ commands,
  Forall (λ p, unrecognized (part_functionCall p)) ps →
  scan_parts ps commands = Ok commands.
Proof.
  induction ps as [|p ps IH]; intros commands Hall; [done|].
  apply Forall_cons in Hall as [Hp Hps]. cbn [scan_parts].
  destruct (truthy (part_functionCall p)); [|by apply IH].
  rewrite (parseFunctionCall_unrecognized _ Hp). cbn. by apply IH.
Qed.

(** An event whose calls, in all three places, are unrecognized yields the
    empty array of commands, without a throw. *)
Theorem parseFunctionCallsFromEvent_unrecognized (ev : EventData) :
  unrecognized (functionCall ev) →
  Forall (λ p, unrecognized (part_functionCall p)) (default [] (content_parts ev)) →
  Forall (λ p, unrecognized (part_functionCall p)) (default [] (parts ev)) →
  parseFunctionCallsFromEvent (Some ev) = Ok [].
Proof.
  intros Hcall Hcontent Hparts. unfold parseFunctionCallsFromEvent.
  rewrite (parseFunctionCall_unrecognized _ Hcall).
  destruct (truthy (functionCall ev)); cbn;
    (destruct (content_parts ev) as [cps|]; cbn in Hcontent |- *;
       [rewrite (scan_parts_unrecognized _ _ Hcontent); cbn|]);
    (destruct (parts ev) as [tps|]; cbn in Hparts |- *;
       [by apply scan_parts_unrecognized|done]).
Qed.

End UnrecognizedCalls.

(** The event of the test-suite's kind: one call named "frobnicate_wheels"
    at the top level, one without a name in [content.parts]. *)
Lemma parseFunctionCallsFromEvent_unrecognized_witness :
  parseFunctionCallsFromEvent (RT:=refRuntime)
    (Some {| functionCall := call "frobnicate_wheels" ∅;
             content_parts := Some [ {| part_functionCall := VObj {[ "args" := VObj ∅ ]} |} ];
             parts := None |})
  = Ok [].
Proof.
  apply (parseFunctionCallsFromEvent_unrecognized (RT:=refRuntime)
           {| functionCall := call "frobnicate_wheels" ∅;
              content_parts := Some [ {| part_functionCall := VObj {[ "args" := VObj ∅ ]} |} ];
              parts := None |}).
  - right. exists (VStr "frobnicate_wheels"). split; [reflexivity|].
    right. exists "frobnicate_wheels". split; [reflexivity|]. split; by vm_compute.
  - apply Forall_cons. split; [|by apply Forall_nil].
    right. exists VUndef. split; [reflexivity|]. by left.
  - by apply Forall_nil.
Defined.

(* ===================================================================== *)
(** ** From a function call to the store                                 *)
(* ===================================================================== *)

Section Pipeline.
Context {RT : JsRuntime}.
Variable vehicleConfigs : Catalog.

(** Every value of the alias table is a [command_type] literal of the
    [switch] statements. *)
Lemma mapping_recognized name v :
  mapping !! name = Some v → ∃ c, v = VStr (command_name c) ∧ switch_case v = Some c.
Proof.
  unfold mapping. intros H. apply elem_of_list_to_map_2 in H.
  apply list_elem_of_fmap in H as ([n c] & [= -> ->] & _).
  exists c. split; [done|]. apply switch_case_command_name.
Qed.

Lemma mapping_command_type name v :
  mapping !! name = Some v → mapFunctionNameToCommandType (VStr name) = v.
Proof.
  intros H. unfold mapFunctionNameToCommandType, index. cbn [to_string]. rewrite H.
  destruct (mapping_recognized _ _ H) as (c & -> & _). by destruct c.
Qed.

Lemma mapping_no_empty_name : mapping !! "" = None.
Proof. by vm_compute. Qed.

Lemma generateDescription_total name args :
  nullish args = false → ∃ d, generateDescription name args = Ok d.
Proof.
  intros Hargs. unfold generateDescription.
  destruct (switch_case (mapFunctionNameToCommandType name)) as [[]|];
    rewrite ?(get_prop_opt_get _ _ Hargs); cbn; eauto.
  repeat match goal with |- context [if ?b then _ else _] => destruct b end; eauto.
Qed.

Lemma args_or_empty_not_nullish args : nullish (js_or args (VObj ∅)) = false.
Proof. unfold js_or. destruct (truthy args) eqn:E; [by apply truthy_not_nullish|done]. Qed.

Lemma transformParameters_known c args :
  nullish args = false →
  transformParameters (VStr (command_name c)) args = Ok (VObj (transformed c args)).
Proof.
  intros Hargs. unfold transformParameters. rewrite switch_case_command_name.
  destruct c; cbn; rewrite ?(get_prop_opt_get _ _ Hargs); cbn;
    unfold chain, js_or; cbn; try reflexivity.
  destruct (truthy (opt_get args "lift_height")) eqn:E1; cbn; rewrite ?E1; [done|].
  by destruct (truthy (opt_get args "lift")).
Qed.

(** What [parseFunctionCall] returns for a call whose name is an alias. *)
Lemma parseFunctionCall_alias functionCall name c :
  truthy functionCall = true →
  get_prop functionCall "name" = Ok (VStr name) →
  mapping !! name = Some (VStr (command_name c)) →
  let args := opt_get functionCall "args" in
  ∃ d,
    generateDescription (VStr name) (js_or args (VObj ∅)) = Ok d
    ∧ parseFunctionCall functionCall
      = Ok (Some {| command_type := VStr (command_name c);
                    parameters := VObj (transformed c (js_or args (VObj ∅)));
                    description := VStr d;
                    client_id := js_or (opt_get args "client_id") (VStr "default");
                    function_call_id := opt_get functionCall "id" |}).
Proof.
  intros Htruthy Hname Hmapping args.
  destruct (generateDescription_total (VStr name) _ (args_or_empty_not_nullish args))
    as [d Hd].
  exists d. split; [done|].
  unfold parseFunctionCall. rewrite Htruthy, Hname. cbn [negb mbind result_bind].
  assert (name ≠ "") as Hne by (intros ->; by rewrite mapping_no_empty_name in Hmapping).
  assert (truthy (VStr name) = true) as ->
    by (cbn; by destruct (String.eqb_spec name "")).
  cbn [negb].
  rewrite !(get_prop_opt_get functionCall) by (by apply truthy_not_nullish).
  cbn [mbind result_bind]. rewrite (mapping_command_type _ _ Hmapping).
  assert (truthy (VStr (command_name c)) = true) as -> by (by destruct c).
  cbn [negb].
  fold args.
  rewrite (transformParameters_known c _ (args_or_empty_not_nullish args)).
  cbn [mbind result_bind]. by rewrite Hd.
Qed.


(** A call to any alias of [toggle_spare_tire] ([hide_spare_tire]
    included) that carries no [enabled] argument is described as "Disabled
    spare tire", yet its command has [enabled: true] and, applied, switches
    the spare tire on. *)
Theorem spare_tire_call_defaults_to_enabled (functionCall : jsval) (name : string)
    (s : Store) :
  truthy functionCall = true →
  get_prop functionCall "name" = Ok (VStr name) →
  mapping !! name = Some (VStr "toggle_spare_tire") →
  opt_get (js_or (opt_get functionCall "args") (VObj ∅)) "enabled" = VUndef →
  ∃ command,
    parseFunctionCall functionCall = Ok (Some command)
    ∧ description command = VStr "Disabled spare tire"
    ∧ parameters command = VObj {[ "enabled" := VBool true ]}
    ∧ UpdateHandler.applyVehicleUpdate vehicleConfigs command s
      = ({| currentVehicle := <["spare" := VBool true]> (currentVehicle s);
            savedVehicles := savedVehicles s |}, Ok true).
Proof.
  intros Htruthy Hname Hmapping Hmissing.
  destruct (parseFunctionCall_alias _ _ ToggleSpareTire Htruthy Hname Hmapping)
    as (d & Hd & Hparse).
  eexists. split; [exact Hparse|].
  unfold generateDescription in Hd. rewrite (mapping_command_type _ _ Hmapping) in Hd.
  cbn in Hd. rewrite (get_prop_opt_get _ _ (args_or_empty_not_nullish _)) in Hd.
  rewrite Hmissing in Hd. cbn in Hd. injection Hd as <-.
  cbn [description parameters transformed]. rewrite Hmissing. cbn [defined].
  split; [done|]. split; [done|].
  unfold UpdateHandler.applyVehicleUpdate. cbn.
  unfold UpdateHandler.handleToggleSpareTire. unfold_m. cbn.
  by rewrite lookup_singleton, insert_union_singleton_l.
Qed.

(** A call to any alias of [adjust_lift] is applied with the first truthy
    of [lift_height], [lift] and 0: when that is a number it becomes the
    [lift] of the configuration, whatever its size, and otherwise the
    command fails and nothing is written. *)
Theorem lift_call_sets_first_truthy_height (functionCall : jsval) (name : string)
    (s : Store) :
  truthy functionCall = true →
  get_prop functionCall "name" = Ok (VStr name) →
  mapping !! name = Some (VStr "adjust_lift") →
  let args := js_or (opt_get functionCall "args") (VObj ∅) in
  let height :=
    first_truthy [opt_get args "lift_height"; opt_get args "lift"; VNum (num_of_Z 0)] in
  ∃ command,
    parseFunctionCall functionCall = Ok (Some command)
    ∧ UpdateHandler.applyVehicleUpdate vehicleConfigs command s
      = if String.eqb (typeof height) "number" then
          ({| currentVehicle := <["lift" := height]> (currentVehicle s);
              savedVehicles := savedVehicles s |}, Ok true)
        else (s, Ok false).
Proof.
  intros Htruthy Hname Hmapping args height.
  destruct (parseFunctionCall_alias _ _ AdjustLift Htruthy Hname Hmapping)
    as (d & _ & Hparse).
  eexists. split; [exact Hparse|].
  unfold UpdateHandler.applyVehicleUpdate. cbn [command_type parameters transformed].
  cbn [switch_case]. change (find _ all_commands) with (Some AdjustLift).
  cbn [UpdateHandler.handler]. unfold UpdateHandler.handleAdjustLift. unfold_m.
  cbn [get_prop]. rewrite lookup_singleton. fold args. fold height.
  case_decide; [|done].
  destruct (String.eqb (typeof height) "number"); cbn; [|done].
  by rewrite insert_union_singleton_l.
Qed.

End Pipeline.


(** [hide_spare_tire()] on the default configuration. *)
Lemma spare_tire_call_defaults_to_enabled_witness :
  ∃ command,
    parseFunctionCall (RT:=refRuntime) (call "hide_spare_tire" ∅) = Ok (Some command)
    ∧ description command = VStr "Disabled spare tire"
    ∧ parameters command = VObj {[ "enabled" := VBool true ]}
    ∧ UpdateHandler.applyVehicleUpdate (RT:=refRuntime) sampleCatalog command
        {| currentVehicle := <["spare" := VBool false]> sampleDefaults; savedVehicles := ∅ |}
      = ({| currentVehicle :=
              <["spare" := VBool true]> (<["spare" := VBool false]> sampleDefaults);
            savedVehicles := ∅ |}, Ok true).
Proof.
  exact (spare_tire_call_defaults_to_enabled (RT:=refRuntime) sampleCatalog
           (call "hide_spare_tire" ∅) "hide_spare_tire"
           {| currentVehicle := <["spare" := VBool false]> sampleDefaults; savedVehicles := ∅ |}
           eq_refl eq_refl eq_refl eq_refl).
Defined.

(** [set_lift({lift: 99})]: the lift becomes 99, outside the range the
    Façade accepts. *)
Lemma lift_call_sets_first_truthy_height_witness :
  ∃ command,
    parseFunctionCall (RT:=refRuntime) (call "set_lift" {[ "lift" := num 99 ]})
    = Ok (Some command)
    ∧ UpdateHandler.applyVehicleUpdate (RT:=refRuntime) sampleCatalog command sampleStore
      = ({| currentVehicle := <["lift" := num 99]> (currentVehicle sampleStore);
            savedVehicles := savedVehicles sampleStore |}, Ok true).
Proof.
  exact (lift_call_sets_first_truthy_height (RT:=refRuntime) sampleCatalog
           (call "set_lift" {[ "lift" := num 99 ]}) "set_lift" sampleStore
           eq_refl eq_refl eq_refl).
Defined.

(* ===================================================================== *)
(** ** The agent path as a whole                                         *)
(* ===================================================================== *)

Section AgentPath.
Context {RT : JsRuntime}.
Variable vehicleConfigs : Catalog.

Lemma update_loop_counts updates : ∀ a b s s' c,
  UpdateHandler.update_loop vehicleConfigs updates a b s = (s', Ok c) →
  UpdateHandler.success c + UpdateHandler.failed c = a + b + length updates.
Proof.
  induction updates as [|u rest IH]; intros a b s s' c.
  - cbn. unfold mret, M_ret. intros [= <- <-]. cbn. lia.
  - cbn [UpdateHandler.update_loop]. unfold mbind, M_bind.
    destruct (applyVehicleUpdate_outcome vehicleConfigs u s) as (s1 & ok & -> & _).
    destruct ok; intros H; apply IH in H; cbn [length]; lia.
Qed.


(** The response that [createStructuredResponse] builds from parsed
    commands alone carries no final state, so [processAgentResponse] ends
    in the store the commands leave, failed ones included, and reports
    [true] exactly when there is at least one command and none failed. *)
Theorem structured_response_outcome (commands : list Command) (s : Store) :
  ∃ s' c,
    UpdateHandler.applyVehicleUpdates vehicleConfigs commands s = (s', Ok c)
    ∧ UpdateHandler.processAgentResponse vehicleConfigs
        (Some (StructuredResponse.createStructuredResponse commands VUndef)) s
      = (s', Ok (negb (length commands =? 0)%nat && (UpdateHandler.failed c =? 0)%nat)).
Proof.
  destruct commands as [|u rest]; [by eexists _, _|].
  rewrite applyVehicleUpdates_loop.
  destruct (update_loop_total vehicleConfigs (u :: rest) 0 0 s) as (s' & c & Hrun & _).
  exists s', c. split; [done|].
  unfold UpdateHandler.processAgentResponse, StructuredResponse.createStructuredResponse.
  cbn [UpdateHandler.error UpdateHandler.vehicle_updates UpdateHandler.final_vehicle_state
       truthy defined].
  rewrite applyVehicleUpdates_loop. unfold mbind at 1, M_bind at 1. rewrite Hrun.
  rewrite andb_false_r. by unfold_m.
Qed.

(** The agent command [change_model] and the Façade's [setVehicleBody]
    accept the same identifiers and leave the same store. *)
Theorem agent_and_facade_agree_on_model (update : Command) (model_id : jsval) (s : Store) :
  command_type update = VStr "change_model" →
  get_prop (parameters update) "model_id" = Ok model_id →
  ∃ s' r,
    SceneHandlers.setVehicleBody vehicleConfigs model_id s = (s', Ok r)
    ∧ UpdateHandler.applyVehicleUpdate vehicleConfigs update s
      = (s', Ok (SceneHandlers.success r)).
Proof.
  intros Htype Hparam.
  unfold UpdateHandler.applyVehicleUpdate, SceneHandlers.setVehicleBody. rewrite Htype.
  cbn [switch_case]. change (find _ all_commands) with (Some ChangeModel).
  cbn [UpdateHandler.handler]. unfold UpdateHandler.handleChangeModel.
  unfold SceneHandlers.getVehicleBody. unfold_m. rewrite Hparam.
  destruct (truthy (index (vehicles vehicleConfigs) model_id)); cbn; by eexists _, _.
Qed.


End AgentPath.

Lemma agent_and_facade_agree_on_model_witness :
  ∃ s' r,
    SceneHandlers.setVehicleBody (RT:=refRuntime) sampleCatalog (str "jeep_jku") sampleStore
    = (s', Ok r)
    ∧ UpdateHandler.applyVehicleUpdate (RT:=refRuntime) sampleCatalog
        (command "change_model" {[ "model_id" := str "jeep_jku" ]}) sampleStore
      = (s', Ok (SceneHandlers.success r)).
Proof.
  exact (agent_and_facade_agree_on_model (RT:=refRuntime) sampleCatalog
           (command "change_model" {[ "model_id" := str "jeep_jku" ]}) (str "jeep_jku")
           sampleStore eq_refl eq_refl).
Defined.


(* ===================================================================== *)
(** ** The scanners never throw                                          *)
(* ===================================================================== *)

Section Scanners.
Context {RT : JsRuntime}.

Lemma transformParameters_total commandType args :
  nullish args = false → ∃ p, transformParameters commandType args = Ok p.
Proof.
  intros Hargs. unfold transformParameters.
  destruct (switch_case commandType) as [[]|];
    rewrite ?(get_prop_opt_get _ _ Hargs); cbn; eauto.
Qed.

Lemma parseFunctionCall_total functionCall :
  ∃ r, parseFunctionCall functionCall = Ok r.
Proof.
  unfold parseFunctionCall.
  destruct (truthy functionCall) eqn:Htruthy; cbn [negb]; [|by eauto].
  rewrite !(get_prop_opt_get functionCall) by (by apply truthy_not_nullish).
  cbn [mbind result_bind].
  destruct (truthy (opt_get functionCall "name")); cbn [negb]; [|by eauto].
  destruct (truthy (mapFunctionNameToCommandType _)); cbn [negb]; [|by eauto].
  destruct (transformParameters_total
              (mapFunctionNameToCommandType (opt_get functionCall "name")) _
              (args_or_empty_not_nullish (opt_get functionCall "args"))) as [p ->].
  destruct (generateDescription_total (opt_get functionCall "name") _
              (args_or_empty_not_nullish (opt_get functionCall "args"))) as [d ->].
  cbn. eauto.
Qed.

Lemma scan_parts_total ps : ∀ commands,
  ∃ found, scan_parts ps commands = Ok (commands ++ found)%list ∧ (length found ≤ length ps)%nat.
Proof.
  induction ps as [|p ps IH]; intros commands.
  - exists []. by rewrite app_nil_r.
  - cbn [scan_parts].
    destruct (truthy (part_functionCall p)).
    + destruct (parseFunctionCall_total (part_functionCall p)) as [[c|] ->];
        cbn [mbind result_bind].
      * destruct (IH (commands ++ [c])%list) as (found & -> & Hlen).
        exists (c :: found). rewrite <- app_assoc. split; [done|]. cbn. lia.
      * destruct (IH commands) as (found & -> & Hlen).
        exists found. split; [done|]. cbn. lia.
    + destruct (IH commands) as (found & -> & Hlen).
      exists found. split; [done|]. cbn. lia.
Qed.


End Scanners.

(* ===================================================================== *)
(** ** What the Façade's mutations leave alone                           *)
(* ===================================================================== *)

Section Frame.
Context {RT : JsRuntime}.
Variable vehicleConfigs : Catalog.

(** The object [u] has no key outside [fields]. *)
Local Abbreviation keys_in fields u :=
  (∀ k : string, k ∉ (fields : list string) → (u : gmap string jsval) !! k = None).

(** The configuration of [s'] is that of [s] with such an object merged. *)
Local Abbreviation merges_in fields s s' :=
  (∃ u : gmap string jsval,
     currentVehicle s' = u ∪ currentVehicle s ∧ keys_in fields u).

Lemma keys_in_empty fields : keys_in fields ∅.
Proof. intros k _. apply lookup_empty. Qed.

Lemma keys_in_insert fields key x (u : gmap string jsval) :
  key ∈ fields → keys_in fields u → keys_in fields (<[key := x]> u).
Proof.
  intros Hkey Hu k Hk. rewrite lookup_insert_ne; [by apply Hu|].
  intros <-. by apply Hk.
Qed.

Lemma merges_in_nothing fields s : merges_in fields s s.
Proof. exists ∅. split; [by rewrite (left_id ∅ (∪))|apply keys_in_empty]. Qed.

Lemma merges_in_same fields s s' :
  currentVehicle s' = currentVehicle s → merges_in fields s s'.
Proof. intros ->. exists ∅. split; [by rewrite (left_id ∅ (∪))|apply keys_in_empty]. Qed.

Lemma merges_in_insert fields key x (m : gmap string jsval) :
  key ∈ fields →
  ∃ u : gmap string jsval, <[key := x]> m = u ∪ m ∧ keys_in fields u.
Proof.
  intros Hkey. exists {[ key := x ]}. split; [by rewrite insert_union_singleton_l|].
  apply keys_in_insert; [done|apply keys_in_empty].
Qed.

Lemma check_field_keys fields v invalid message key value acc :
  key ∈ fields → keys_in fields acc.1 →
  keys_in fields (SceneHandlers.check_field v invalid message key value acc).1.
Proof.
  intros Hkey Hacc. unfold SceneHandlers.check_field.
  destruct (defined v); [|done]. destruct invalid; [done|].
  cbn [fst]. by apply keys_in_insert.
Qed.

Ltac listed := by (apply (bool_decide_unpack _); vm_compute).

Lemma wheel_checks_keys params updates errors :
  SceneHandlers.wheel_checks vehicleConfigs params = Ok (updates, errors) →
  keys_in [ "rim"; "rim_diameter"; "rim_width"; "rim_color"; "rim_color_secondary";
            "tire"; "tire_diameter"; "wheel_offset" ] updates.
Proof.
  unfold SceneHandlers.wheel_checks.
  repeat match goal with
         | |- context [get_prop params ?k] => destruct (get_prop params k); [|done]
         end.
  cbn. intros [= Hacc]. apply (f_equal fst) in Hacc. cbn [fst] in Hacc.
  rewrite <- Hacc. clear Hacc.
  match goal with
  | |- context [if ?b then _ else _] => destruct b
  end; cbn [fst]; try (apply keys_in_insert; [listed|]);
  repeat (apply check_field_keys; [listed|]);
  apply keys_in_empty.
Qed.

Lemma mutation_merges_in op s fields :
  written_fields op = Some fields →
  merges_in fields s (run_mutation vehicleConfigs op s).1.
Proof.
  intros Hop. destruct op; try discriminate; injection Hop as <-; cbn [run_mutation].
  all: try (
    unfold SceneHandlers.setVehicleBody, SceneHandlers.getVehicleBody,
      SceneHandlers.setVehicleColor, SceneHandlers.setVehicleRoughness,
      SceneHandlers.setVehicleLift, SceneHandlers.setRimColor,
      SceneHandlers.setRimColorSecondary, SceneHandlers.setRimDiameter,
      SceneHandlers.setRimWidth, SceneHandlers.setTireDiameter,
      SceneHandlers.toggleSpareTire;
    unfold_m; cbn;
    match goal with
    | |- context [if ?b then _ else _] => destruct b eqn:Hcheck; cbn
    | _ => idtac
    end;
    first
      [ apply merges_in_nothing
      | eexists; split; [reflexivity|];
        apply keys_in_insert; [listed|apply keys_in_empty] ]).
  - (* setVehicleAppearance *)
    unfold SceneHandlers.setVehicleAppearance. unfold_m.
    destruct (get_prop params "color") as [color|]; [|apply merges_in_nothing].
    destruct (get_prop params "roughness") as [roughness|]; [|apply merges_in_nothing].
    cbn.
    match goal with
    | |- context [SceneHandlers.check_field ?v ?i ?m ?k ?x (SceneHandlers.check_field ?v' ?i' ?m' ?k' ?x' ?acc)] =>
        pose proof (check_field_keys ["color"; "roughness"] v i m k x
                      (SceneHandlers.check_field v' i' m' k' x' acc)) as Hkeys;
        destruct (SceneHandlers.check_field v i m k x
                    (SceneHandlers.check_field v' i' m' k' x' acc)) as [updates errors]
    end.
    destruct (length errors); [|apply merges_in_nothing].
    destruct (size updates =? 0)%nat; [apply merges_in_nothing|].
    cbn. exists updates. split; [done|]. apply Hkeys; [listed|].
    apply check_field_keys; [listed|apply keys_in_empty].
  - (* setRim *)
    unfold SceneHandlers.setRim. unfold_m. cbn.
    destruct (truthy (index (rims vehicleConfigs) rimId)) eqn:Ht; cbn;
      [|apply merges_in_nothing].
    destruct (get_prop_truthy _ "name" Ht) as [x ->].
    destruct (get_prop_truthy _ "make" Ht) as [y ->]. cbn.
    eexists; split; [reflexivity|]. apply keys_in_insert; [listed|apply keys_in_empty].
  - (* setTire *)
    unfold SceneHandlers.setTire. unfold_m. cbn.
    destruct (truthy (index (tires vehicleConfigs) tireId)) eqn:Ht; cbn;
      [|apply merges_in_nothing].
    destruct (get_prop_truthy _ "name" Ht) as [x ->].
    destruct (get_prop_truthy _ "make" Ht) as [y ->]. cbn.
    eexists; split; [reflexivity|]. apply keys_in_insert; [listed|apply keys_in_empty].
  - (* setWheelConfiguration *)
    unfold SceneHandlers.setWheelConfiguration. unfold_m.
    destruct (SceneHandlers.wheel_checks vehicleConfigs params)
      as [[updates errors]|] eqn:Hchecks; [|apply merges_in_nothing].
    destruct (0 <? length errors)%nat; [apply merges_in_nothing|].
    destruct (size updates =? 0)%nat; [apply merges_in_nothing|].
    cbn. exists updates. split; [done|]. by eapply wheel_checks_keys.
  - (* setVehicleAddon *)
    unfold SceneHandlers.setVehicleAddon. unfold_m. cbn.
    repeat match goal with
           | |- context [match get_prop ?v ?k with _ => _ end] =>
               destruct (get_prop v k); cbn; [|apply merges_in_nothing]
           | |- context [if ?b then _ else _] =>
               destruct b eqn:?; cbn; try apply merges_in_nothing
           end.
    all: unfold SceneHandlers.assign_addon;
      repeat match goal with
             | |- context [if ?b then _ else _] => destruct b eqn:?; cbn
             | |- context [match field ?v ?k with _ => _ end] =>
                 destruct (field v k); cbn; try apply merges_in_nothing
             | |- context [match get_prop ?v ?k with _ => _ end] =>
                 destruct (get_prop v k); cbn
             end;
      try apply merges_in_nothing;
      apply merges_in_insert; listed.
  - (* removeVehicleAddon *)
    unfold SceneHandlers.removeVehicleAddon, SceneHandlers.delete_addon. unfold_m.
    repeat match goal with
           | |- context [if ?b then _ else _] => destruct b eqn:?; cbn
           | |- context [match get_prop ?v ?k with _ => _ end] =>
               destruct (get_prop v k); cbn
           | |- context [match field ?v ?k with _ => _ end] =>
               destruct (field v k); cbn
           end;
      first [ apply merges_in_nothing | apply merges_in_insert; listed ].
  - (* saveVehicle *)
    unfold SceneHandlers.saveVehicle. unfold_m.
    destruct (_ || _); cbn; [apply merges_in_nothing|]. by apply merges_in_same.
  - (* loadSavedVehicle *)
    unfold SceneHandlers.loadSavedVehicle. unfold_m. cbn.
    destruct (negb _); cbn; [apply merges_in_nothing|]. by apply merges_in_same.
Qed.

(** Partial-update semantics: a Façade mutation, whether it succeeds, fails
    or throws, leaves every field of the VehicleConfiguration that is not
    one of its own as it was. *)
Theorem facade_writes_only_its_fields
    (op : Facade.Mutation) (fields : list string) (k : string) (s : Store) :
  written_fields op = Some fields →
  k ∉ fields →
  currentVehicle (run_mutation vehicleConfigs op s).1 !! k = currentVehicle s !! k.
Proof.
  intros Hop Hk.
  destruct (mutation_merges_in op s fields Hop) as (u & -> & Hu).
  rewrite lookup_union, (Hu k Hk). by rewrite (left_id None _).
Qed.

End Frame.

(** [setWheelConfiguration({rim: "toyota_trd", tire_diameter: 33})] leaves
    the colour alone. *)
Lemma facade_writes_only_its_fields_witness :
  let op := Facade.SetWheelConfiguration
              (VObj (<["rim" := str "toyota_trd"]> {[ "tire_diameter" := num 33 ]})) in
  currentVehicle (run_mutation (RT:=refRuntime) sampleCatalog op sampleStore).1 !! "color"
  = currentVehicle sampleStore !! "color".
Proof.
  refine (facade_writes_only_its_fields (RT:=refRuntime) sampleCatalog
            (Facade.SetWheelConfiguration
               (VObj (<["rim" := str "toyota_trd"]> {[ "tire_diameter" := num 33 ]})))
            _ "color" sampleStore eq_refl _).
  apply (bool_decide_unpack _). by vm_compute.
Defined.

(* ===================================================================== *)
(** ** Reading back what the Façade wrote                                *)
(* ===================================================================== *)

Section ReadBack.
Context {RT : JsRuntime}.
Variable vehicleConfigs : Catalog.
Variable string_to_number : string → jsnum.


(** [removeVehicleAddon] undoes a successful [setVehicleAddon] of a truthy
    value: the slot is gone from the addons, and the other slots and
    fields are as before the two calls. *)
Theorem addon_set_then_removed (addonType addonValue : jsval) (s s1 : Store)
    (r : SceneHandlers.HandlerResult) :
  SceneHandlers.setVehicleAddon vehicleConfigs addonType addonValue s = (s1, Ok r) →
  SceneHandlers.success r = true →
  truthy addonValue = true →
  field (currentVehicle s1) "addons"
  = VObj (<[to_string addonType := addonValue]>
            (own_properties (field (currentVehicle s) "addons")))
  ∧ ∃ r',
      SceneHandlers.removeVehicleAddon addonType s1
      = ({| currentVehicle :=
              <["addons" :=
                  VObj (delete (to_string addonType)
                          (own_properties (field (currentVehicle s) "addons")))]>
                (currentVehicle s);
            savedVehicles := savedVehicles s |}, Ok r')
      ∧ SceneHandlers.success r' = true.
Proof.
  unfold SceneHandlers.setVehicleAddon. unfold_m. cbn.
  intros Hset Hsuccess Hvalue.
  repeat match type of Hset with
         | context [match get_prop ?v ?k with _ => _ end] =>
             destruct (get_prop v k); cbn in Hset;
             [|by injection Hset as <- <-]
         | context [if ?b then _ else _] =>
             destruct b eqn:?; cbn in Hset;
             try (by injection Hset as <- <-)
         end.
  unfold SceneHandlers.assign_addon in Hset.
  destruct (truthy (field (currentVehicle s) "addons")) eqn:Haddons; cbn in Hset.
  - destruct (field (currentVehicle s) "addons") as [| | | | |o|] eqn:Hfield;
      cbn in Hset; try (by injection Hset as <- <-).
    destruct (get_prop _ "name") in Hset; cbn in Hset; [|by injection Hset as <- <-].
    injection Hset as <- <-. cbn [currentVehicle savedVehicles own_properties].
    unfold field at 1. rewrite lookup_insert_eq. split; [done|].
    unfold SceneHandlers.removeVehicleAddon, SceneHandlers.delete_addon. unfold_m.
    cbn [currentVehicle savedVehicles]. unfold field. rewrite lookup_insert_eq.
    cbn [truthy negb get_prop mbind result_bind]. eexists. rewrite lookup_insert_eq.
    rewrite Hvalue. cbn. rewrite delete_insert_eq, insert_insert_eq. by split.
  - destruct (get_prop _ "name") in Hset; cbn in Hset; [|by injection Hset as <- <-].
    injection Hset as <- <-. cbn [currentVehicle savedVehicles].
    assert (own_properties (field (currentVehicle s) "addons") = ∅) as ->
      by (by destruct (field (currentVehicle s) "addons")).
    unfold field at 1. rewrite lookup_insert_eq. split; [done|].
    unfold SceneHandlers.removeVehicleAddon, SceneHandlers.delete_addon. unfold_m.
    cbn [currentVehicle savedVehicles]. unfold field. rewrite lookup_insert_eq.
    cbn [truthy negb get_prop mbind result_bind]. eexists. rewrite lookup_singleton_eq.
    rewrite Hvalue. cbn. rewrite delete_singleton_eq, delete_empty, insert_insert_eq.
    by split.
Qed.

End ReadBack.


(** The Shrockworks bumper, set and removed again. *)
Lemma addon_set_then_removed_witness :
  let out :=
    SceneHandlers.setVehicleAddon (RT:=refRuntime) sampleCatalog (str "bumper_f")
      (str "shrockworks") addonStore in
  field (currentVehicle out.1) "addons"
  = VObj {[ "bumper_f" := str "shrockworks" ]}
  ∧ ∃ r',
      SceneHandlers.removeVehicleAddon (RT:=refRuntime) (str "bumper_f") out.1
      = ({| currentVehicle := <["addons" := VObj ∅]> (currentVehicle addonStore);
            savedVehicles := ∅ |}, Ok r')
      ∧ SceneHandlers.success r' = true.
Proof.
  exact (addon_set_then_removed (RT:=refRuntime) sampleCatalog (str "bumper_f")
           (str "shrockworks") addonStore _ _ eq_refl eq_refl eq_refl).
Defined.

(* ===================================================================== *)
(** ** Reset, and the saved vehicles                                     *)
(* ===================================================================== *)

Section ResetAndSave.
Context {RT : JsRuntime}.
Variable vehicleConfigs : Catalog.


Lemma vehicle_id_not_pointer x : "vehicle_" +:+ x ≠ "current".
Proof. discriminate. Qed.

(** A successful [saveVehicle] stores a record with the trimmed name, the
    current configuration and the time stamp under a fresh-looking id,
    moves the [current] pointer to it and leaves the configuration alone;
    [loadSavedVehicle] of the returned id then succeeds with that record
    and changes nothing more, [getCurrentSavedVehicleId] returns the id,
    and [getSavedVehicles] lists it, but never the pointer. *)
Theorem saved_vehicle_loads_back (name : jsval) (now now' : jsnum) (s s1 : Store)
    (r : SceneHandlers.HandlerResult) :
  SceneHandlers.saveVehicle name now now' s = (s1, Ok r) →
  SceneHandlers.success r = true →
  let id := "vehicle_" +:+ num_to_string now in
  let trimmed := VStr (str_trim (to_string name)) in
  let record :=
    VObj (<["name" := trimmed]>
         (<["config" := VObj (currentVehicle s)]> {[ "timestamp" := VNum now' ]})) in
  trimmed ≠ VStr ""
  ∧ currentVehicle s1 = currentVehicle s
  ∧ savedVehicles s1 = <["current" := VStr id]> (<[id := record]> (savedVehicles s))
  ∧ SceneHandlers.loadSavedVehicle (VStr id) s1
    = (s1, Ok (SceneHandlers.succeeded record))
  ∧ SceneHandlers.getCurrentSavedVehicleId s1 = (s1, Ok (VStr id))
  ∧ (∃ listed,
       SceneHandlers.getSavedVehicles s1 = (s1, Ok listed)
       ∧ listed !! "current" = None
       ∧ listed !! id
         = Some (VObj (list_to_map
                   [ ("id", VStr id); ("name", trimmed);
                     ("config", VObj (currentVehicle s));
                     ("timestamp", js_or (VNum now') VNull) ]))).
Proof.
  unfold SceneHandlers.saveVehicle. unfold_m.
  destruct (negb (truthy name) || negb (String.eqb (typeof name) "string")
            || (String.length (str_trim (to_string name)) =? 0)%nat) eqn:Hname; cbn.
  { by intros [= <- <-]. }
  intros [= <- <-] _.
  apply orb_false_iff in Hname as [_ Hlength].
  set (id := "vehicle_" +:+ num_to_string now).
  assert (id ≠ "current") as Hid by apply vehicle_id_not_pointer.
  split.
  { intros [= Hempty]. by rewrite Hempty in Hlength. }
  split; [done|]. split; [done|].
  assert (truthy (VStr id) = true) as Htruthy by done.
  split.
  { unfold SceneHandlers.loadSavedVehicle. unfold_m. cbn.
    unfold index. cbn [to_string].
    rewrite lookup_insert_ne, lookup_insert_eq by done. cbn.
    by rewrite insert_insert_eq. }
  split.
  { unfold SceneHandlers.getCurrentSavedVehicleId. unfold_m. cbn.
    unfold field. by rewrite lookup_insert_eq. }
  unfold SceneHandlers.getSavedVehicles. unfold_m. cbn.
  eexists. split; [reflexivity|]. rewrite !map_lookup_imap.
  rewrite lookup_insert_eq, lookup_insert_ne, lookup_insert_eq by done. cbn.
  split; [done|]. unfold SceneHandlers.saved_entry.
  destruct (String.eqb_spec id "current") as [?|_]; [done|]. cbn [negb andb].
  unfold opt_get, get_prop.
  set (m := <["name" := VStr (str_trim (to_string name))]>
              (<["config" := VObj (currentVehicle s)]>
                 ({[ "timestamp" := VNum now' ]} : gmap string jsval))).
  assert (m !! "name" = Some (VStr (str_trim (to_string name)))) as ->
    by apply lookup_insert_eq.
  assert (m !! "config" = Some (VObj (currentVehicle s))) as ->
    by (unfold m; rewrite lookup_insert_ne by done; apply lookup_insert_eq).
  assert (m !! "timestamp" = Some (VNum now')) as ->
    by (unfold m; rewrite !lookup_insert_ne by done; apply lookup_singleton_eq).
  cbn [truthy]. unfold js_or at 1. cbn [truthy].
  destruct (String.eqb_spec (str_trim (to_string name)) "") as [Hempty|_]; [|done].
  by rewrite Hempty in Hlength.
Qed.

(** [updateSavedVehicleName] writes nothing when it fails; when it succeeds
    on a saved record it replaces the record's name by the trimmed new
    name, keeps the record's other properties, the other saved vehicles
    and the pointer, and leaves the configuration alone. *)
Theorem rename_changes_only_the_name (vehicleId newName : jsval) (s s1 : Store)
    (r : SceneHandlers.HandlerResult) :
  SceneHandlers.updateSavedVehicleName vehicleId newName s = (s1, Ok r) →
  (SceneHandlers.success r = false → s1 = s ∧ is_Some (SceneHandlers.error r))
  ∧ (SceneHandlers.success r = true →
     ∀ o, savedVehicles s !! to_string vehicleId = Some (VObj o) →
          let trimmed := VStr (str_trim (to_string newName)) in
          trimmed ≠ VStr ""
          ∧ currentVehicle s1 = currentVehicle s
          ∧ savedVehicles s1
            = <[to_string vehicleId := VObj (<["name" := trimmed]> o)]> (savedVehicles s)
          ∧ SceneHandlers.data r = VObj (<["id" := vehicleId]> {[ "name" := trimmed ]})).
Proof.
  unfold SceneHandlers.updateSavedVehicleName. unfold_m. cbn.
  destruct (truthy (index (savedVehicles s) vehicleId)) eqn:Hfound; cbn.
  2: { intros [= <- <-]. split; [by eauto|done]. }
  destruct (negb (truthy newName) || negb (String.eqb (typeof newName) "string")
            || (String.length (str_trim (to_string newName)) =? 0)%nat) eqn:Hname; cbn.
  { intros [= <- <-]. split; [by eauto|done]. }
  intros [= <- <-]. split; [done|]. intros _ o Hentry.
  apply orb_false_iff in Hname as [_ Hlength].
  split.
  { intros [= Hempty]. by rewrite Hempty in Hlength. }
  split; [done|]. split; [|done]. cbn.
  unfold index. by rewrite Hentry.
Qed.

End ResetAndSave.

(** Saving the default configuration as "  My Build ". *)
Lemma saved_vehicle_loads_back_witness :
  let out := SceneHandlers.saveVehicle (RT:=refRuntime) (str "  My Build ")
               (num_of_Z 1700000000000) (num_of_Z 1700000000001) sampleStore in
  let record :=
    VObj (<["name" := str "My Build"]>
         (<["config" := VObj sampleDefaults]>
          {[ "timestamp" := VNum (num_of_Z 1700000000001) ]})) in
  SceneHandlers.loadSavedVehicle (RT:=refRuntime) (str "vehicle_1700000000000") out.1
  = (out.1, Ok (SceneHandlers.succeeded record))
  ∧ SceneHandlers.getCurrentSavedVehicleId out.1 = (out.1, Ok (str "vehicle_1700000000000")).
Proof.
  destruct (saved_vehicle_loads_back (RT:=refRuntime) (str "  My Build ")
              (num_of_Z 1700000000000) (num_of_Z 1700000000001) sampleStore _ _
              eq_refl eq_refl) as (_ & _ & _ & Hload & Hid & _).
  split; [exact Hload|exact Hid].
Defined.

(** Renaming the saved vehicle of [savedStore]. *)
Lemma rename_changes_only_the_name_witness :
  let out := SceneHandlers.updateSavedVehicleName (RT:=refRuntime)
               (str "vehicle_1700000000000") (str " Trail Rig ") savedStore in
  savedVehicles out.1
  = <["vehicle_1700000000000" :=
        VObj (<["name" := str "Trail Rig"]>
             (<["name" := str "My Build"]> {[ "config" := VObj sampleDefaults ]}))]>
      (savedVehicles savedStore).
Proof.
  destruct (rename_changes_only_the_name (RT:=refRuntime)
              (str "vehicle_1700000000000") (str " Trail Rig ") savedStore _ _ eq_refl)
    as [_ Hrenamed].
  destruct (Hrenamed eq_refl _ eq_refl) as (_ & _ & Hsaved & _).
  exact Hsaved.
Defined.

(* ===================================================================== *)
(** ** validateConfiguration against the setters                         *)
(* ===================================================================== *)

Section Validation.
Context {RT : JsRuntime}.
Variable vehicleConfigs : Catalog.
Variable string_to_number : string → jsnum.

Lemma push_if_none cond message messages :
  (length (SceneHandlers.push_if cond message messages) =? 0)%nat = true →
  cond = false ∧ (length messages =? 0)%nat = true.
Proof.
  unfold SceneHandlers.push_if. destruct cond; [|done].
  rewrite length_app. cbn. intros H%Nat.eqb_eq. lia.
Qed.

(** What a verdict [valid: true] says about the configuration. *)
Lemma valid_checks config :
  SceneHandlers.valid
    (SceneHandlers.validateConfiguration vehicleConfigs string_to_number config) = true →
  let get := opt_get config in
  nullish config = false
  ∧ truthy config = true ∧ String.eqb (typeof config) "object" = true
  ∧ truthy (get "body") && negb (truthy (index (vehicles vehicleConfigs) (get "body")))
    = false
  ∧ truthy (get "color") && negb (hex_color_test (get "color")) = false
  ∧ defined (get "roughness") && out_of_range (parseFloat (get "roughness")) 0 1 = false
  ∧ defined (get "lift")
    && SceneHandlers.outside (parseFloat (get "lift")) SceneHandlers.LIFT_RANGE = false
  ∧ truthy (get "rim") && negb (truthy (index (rims vehicleConfigs) (get "rim"))) = false
  ∧ truthy (get "tire") && negb (truthy (index (tires vehicleConfigs) (get "tire")))
    = false
  ∧ defined (get "rim_diameter")
    && SceneHandlers.outside (parseInt (get "rim_diameter"))
         SceneHandlers.RIM_DIAMETER_RANGE = false
  ∧ defined (get "tire_diameter")
    && SceneHandlers.outside (parseInt (get "tire_diameter"))
         SceneHandlers.TIRE_DIAMETER_RANGE = false.
Proof.
  unfold SceneHandlers.validateConfiguration.
  destruct (truthy config) eqn:Htruthy; [|done].
  destruct (String.eqb (typeof config) "object") eqn:Hobject; [|done].
  cbn [negb orb SceneHandlers.valid]. intros Hvalid.
  repeat (apply push_if_none in Hvalid as [? Hvalid]).
  split; [by apply truthy_not_nullish|]. repeat (split; [done|]). done.
Qed.

(** A configuration that [validateConfiguration] finds valid is accepted by
    [setVehicleConfiguration], which merges it into the store.  (Not the
    other way round: the setter checks the body only.) *)
Theorem valid_configuration_is_accepted (config : jsval) (s : Store) :
  SceneHandlers.valid
    (SceneHandlers.validateConfiguration vehicleConfigs string_to_number config) = true →
  ∃ r,
    SceneHandlers.setVehicleConfiguration vehicleConfigs config s
    = ({| currentVehicle := own_properties config ∪ currentVehicle s;
          savedVehicles := savedVehicles s |}, Ok r)
    ∧ SceneHandlers.success r = true.
Proof.
  intros (Hnullish & Htruthy & Hobject & Hbody & _)%valid_checks.
  unfold SceneHandlers.setVehicleConfiguration. unfold_m.
  rewrite Htruthy, Hobject. cbn [negb orb].
  rewrite (get_prop_opt_get _ _ Hnullish), Hbody. cbn. by eexists.
Qed.

(** In a configuration that [validateConfiguration] finds valid, each
    field that the validator looked at is one that the Façade's own setter
    of that field accepts. *)
Theorem valid_field_passes_its_setter
    (config : jsval) (k : string) (op : Facade.Mutation) (s : Store) :
  SceneHandlers.valid
    (SceneHandlers.validateConfiguration vehicleConfigs string_to_number config) = true →
  setter_for k (opt_get config k) = Some op →
  looked_at k (opt_get config k) = true →
  ∃ s' r, run_mutation vehicleConfigs op s = (s', Ok r) ∧ SceneHandlers.success r = true.
Proof.
  intros (_ & _ & _ & Hbody & Hcolor & Hroughness & Hlift & Hrim & Htire & Hrd & Htd)%valid_checks.
  unfold setter_for, looked_at.
  repeat match goal with
         | |- context [String.eqb k ?literal] =>
             destruct (String.eqb_spec k literal) as [->|?]; cbn [orb];
             [intros [= <-] Hlooked;
              cbn [String.eqb Ascii.eqb Bool.eqb orb] in Hlooked; cbn [run_mutation]|]
         end.
  all: [> .. | done].
  - rewrite Hlooked in Hbody. apply negb_false_iff in Hbody.
    unfold SceneHandlers.setVehicleBody, SceneHandlers.getVehicleBody. unfold_m.
    rewrite Hbody. cbn. by eexists _, _.
  - rewrite Hlooked in Hcolor. apply negb_false_iff in Hcolor.
    unfold SceneHandlers.setVehicleColor. unfold_m. rewrite Hcolor. cbn. by eexists _, _.
  - rewrite Hlooked in Hroughness.
    unfold SceneHandlers.setVehicleRoughness, SceneHandlers.outside. unfold_m.
    cbn in Hroughness |- *. rewrite Hroughness. cbn. by eexists _, _.
  - rewrite Hlooked in Hlift.
    unfold SceneHandlers.setVehicleLift. unfold_m.
    cbn in Hlift |- *. rewrite Hlift. cbn. by eexists _, _.
  - rewrite Hlooked in Hrim. apply negb_false_iff in Hrim.
    unfold SceneHandlers.setRim. unfold_m. rewrite Hrim. cbn.
    destruct (get_prop_truthy _ "name" Hrim) as [x ->].
    destruct (get_prop_truthy _ "make" Hrim) as [y ->]. cbn. by eexists _, _.
  - rewrite Hlooked in Htire. apply negb_false_iff in Htire.
    unfold SceneHandlers.setTire. unfold_m. rewrite Htire. cbn.
    destruct (get_prop_truthy _ "name" Htire) as [x ->].
    destruct (get_prop_truthy _ "make" Htire) as [y ->]. cbn. by eexists _, _.
  - rewrite Hlooked in Hrd.
    unfold SceneHandlers.setRimDiameter. unfold_m.
    cbn in Hrd |- *. rewrite Hrd. cbn. by eexists _, _.
  - rewrite Hlooked in Htd.
    unfold SceneHandlers.setTireDiameter. unfold_m.
    cbn in Htd |- *. rewrite Htd. cbn. by eexists _, _.
Qed.

(** No tire in range is as small as a rim in range. *)
Lemma diameters_apart td rd :
  SceneHandlers.outside td SceneHandlers.TIRE_DIAMETER_RANGE = false →
  SceneHandlers.outside rd SceneHandlers.RIM_DIAMETER_RANGE = false →
  num_leb td rd = false.
Proof.
  unfold SceneHandlers.outside, out_of_range, num_leb, num_gtb.
  destruct td as [|[]|p], rd as [|[]|q]; cbn; try done.
  intros [Hlow _]%orb_false_iff [_ Hhigh]%orb_false_iff.
  apply negb_false_iff in Hlow, Hhigh. apply negb_false_iff.
  apply Qle_bool_iff in Hlow, Hhigh.
  destruct (Qle_bool p q) eqn:Hle; [|done]. apply Qle_bool_iff in Hle.
  assert (inject_Z 28 <= inject_Z 20)%Q as Habsurd
    by (eapply Qle_trans; [exact Hlow|]; eapply Qle_trans; [exact Hle|exact Hhigh]).
  rewrite <- Zle_Qle in Habsurd. lia.
Qed.

(** The warning "Tire diameter should be larger than rim diameter" cannot
    be had without an error when the two diameters are whole numbers (which
    [parseInt] reads back as they are): a tire in range is larger than any
    rim in range. *)
Theorem whole_number_warning_comes_with_an_error (config : jsval) (td rd : jsnum) :
  opt_get config "tire_diameter" = VNum td →
  opt_get config "rim_diameter" = VNum rd →
  parseInt (VNum td) = td →
  parseInt (VNum rd) = rd →
  SceneHandlers.warnings
    (SceneHandlers.validateConfiguration vehicleConfigs string_to_number config) ≠ [] →
  SceneHandlers.valid
    (SceneHandlers.validateConfiguration vehicleConfigs string_to_number config) = false.
Proof.
  intros Htire Hrim Hpt Hpr Hwarned.
  destruct (SceneHandlers.valid _) eqn:Hvalid; [|done]. exfalso.
  apply valid_checks in Hvalid
    as (_ & Htruthy & Hobject & _ & _ & _ & _ & _ & _ & Hrd & Htd).
  rewrite Htire, Hpt in Htd. rewrite Hrim, Hpr in Hrd. cbn [defined andb] in Hrd, Htd.
  apply Hwarned. unfold SceneHandlers.validateConfiguration.
  rewrite Htruthy, Hobject. cbn [negb orb SceneHandlers.warnings].
  rewrite Htire, Hrim. cbn [defined andb js_le to_primitive to_number].
  by rewrite (diameters_apart _ _ Htd Hrd).
Qed.

End Validation.

(** A configuration in the catalog's terms. *)
Lemma valid_configuration_is_accepted_witness :
  let config :=
    VObj (<["body" := str "jeep_jku"]> (<["color" := str "#00FF00"]> {[ "lift" := num 2 ]})) in
  ∃ r,
    SceneHandlers.setVehicleConfiguration (RT:=refRuntime) sampleCatalog config sampleStore
    = ({| currentVehicle := own_properties config ∪ currentVehicle sampleStore;
          savedVehicles := savedVehicles sampleStore |}, Ok r)
    ∧ SceneHandlers.success r = true.
Proof.
  exact (valid_configuration_is_accepted (RT:=refRuntime) sampleCatalog ref_parse_float
           (VObj (<["body" := str "jeep_jku"]>
                 (<["color" := str "#00FF00"]> {[ "lift" := num 2 ]})))
           sampleStore eq_refl).
Defined.

Lemma valid_field_passes_its_setter_witness :
  ∃ s' r,
    SceneHandlers.setVehicleLift (RT:=refRuntime) (num 2) sampleStore = (s', Ok r)
    ∧ SceneHandlers.success r = true.
Proof.
  exact (valid_field_passes_its_setter (RT:=refRuntime) sampleCatalog ref_parse_float
           (VObj (<["body" := str "jeep_jku"]>
                 (<["color" := str "#00FF00"]> {[ "lift" := num 2 ]})))
           "lift" (Facade.SetVehicleLift (num 2)) sampleStore eq_refl eq_refl eq_refl).
Defined.

(** [{tire_diameter: 17, rim_diameter: 17}] is warned about, and the tire
    diameter is out of range. *)
Lemma whole_number_warning_comes_with_an_error_witness :
  let config := VObj (<["tire_diameter" := num 17]> {[ "rim_diameter" := num 17 ]}) in
  SceneHandlers.warnings
    (SceneHandlers.validateConfiguration (RT:=refRuntime) sampleCatalog ref_parse_float config)
  = ["Tire diameter should be larger than rim diameter"]
  ∧ SceneHandlers.valid
      (SceneHandlers.validateConfiguration (RT:=refRuntime) sampleCatalog ref_parse_float
         config) = false.
Proof.
  split; [reflexivity|].
  exact (whole_number_warning_comes_with_an_error (RT:=refRuntime) sampleCatalog
           ref_parse_float
           (VObj (<["tire_diameter" := num 17]> {[ "rim_diameter" := num 17 ]}))
           (num_of_Z 17) (num_of_Z 17) eq_refl eq_refl eq_refl eq_refl
           ltac:(discriminate)).
Defined.

(* ===================================================================== *)
(** ** The verification utilities                                        *)
(* ===================================================================== *)

Section Verify.
Context {RT : JsRuntime}.
Variable stringify : jsval → option string.

Lemma differs_same v : UpdateHandler.differs stringify v v = false.
Proof. unfold UpdateHandler.differs. by rewrite bool_decide_eq_true_2. Qed.

Lemma omap_nothing {A B} (f : A → option B) (l : list A) :
  (∀ x, x ∈ l → f x = None) → omap f l = [].
Proof.
  induction l as [|x l IH]; [done|]. intros Hl. cbn.
  rewrite (Hl x) by apply list_elem_of_here.
  apply IH. intros y Hy. apply Hl. by apply list_elem_of_further.
Qed.

Lemma omap_lengths {A B C D} (f : A → option B) (g : C → option D) (h : A → C)
    (l : list A) :
  (∀ x, x ∈ l → is_Some (f x) ↔ is_Some (g (h x))) →
  length (omap f l) = length (omap g (h <$> l)).
Proof.
  induction l as [|x l IH]; [done|]. intros Hl. cbn.
  pose proof (Hl x (list_elem_of_here _ _)) as Hx.
  assert (length (omap f l) = length (omap g (h <$> l))) as Hrest.
  { apply IH. intros y Hy. apply Hl. by apply list_elem_of_further. }
  destruct (f x), (g (h x)); cbn; try congruence.
  - destruct Hx as [Hx _]. by destruct (Hx (mk_is_Some _ _ eq_refl)).
  - destruct Hx as [_ Hx]. by destruct (Hx (mk_is_Some _ _ eq_refl)).
Qed.

(** Once [syncVehicleState] has installed a state, [verifyVehicleState]
    finds the store to match it, without changing the store. *)
Theorem synced_state_verifies (state : jsval) (s s' : Store) :
  UpdateHandler.syncVehicleState state s = (s', Ok true) →
  UpdateHandler.verifyVehicleState stringify state s' = (s', Ok true).
Proof.
  unfold UpdateHandler.syncVehicleState, UpdateHandler.verifyVehicleState. unfold_m.
  destruct (truthy state) eqn:Htruthy; [|done].
  destruct (String.eqb (typeof state) "object") eqn:Hobject; [|done].
  cbn. intros [= <-]. cbn [currentVehicle].
  unfold UpdateHandler.mismatches. rewrite omap_nothing; [done|].
  intros [k v] Hkv. apply elem_of_map_to_list in Hkv.
  destruct state as [| | | | |o|]; try done;
    cbn [spread own_properties] in *; try (by rewrite lookup_empty in Hkv).
  unfold field.
  rewrite lookup_union, Hkv, union_Some_l. by rewrite differs_same.
Qed.

(** For an expected state that is an object, [verifyVehicleState] passes
    exactly when [getStateChanges] from the current configuration to the
    expected state lists no change. *)
Theorem verification_agrees_with_changes (expected : gmap string jsval) (s : Store) :
  UpdateHandler.verifyVehicleState stringify (VObj expected) s
  = (s, Ok (length (UpdateHandler.getStateChanges stringify
                      (VObj (currentVehicle s)) (VObj expected)) =? 0)%nat).
Proof.
  unfold UpdateHandler.verifyVehicleState, UpdateHandler.getStateChanges. unfold_m.
  cbn [truthy negb orb spread]. unfold UpdateHandler.mismatches. cbn [spread].
  rewrite (omap_lengths _
             (λ key : string,
                if UpdateHandler.differs stringify (opt_get (VObj (currentVehicle s)) key)
                     (opt_get (VObj expected) key)
                then Some {| UpdateHandler.change_field := key;
                             UpdateHandler.oldValue := opt_get (VObj (currentVehicle s)) key;
                             UpdateHandler.newValue := opt_get (VObj expected) key |}
                else None) fst).
  - by destruct (length _).
  - intros [k v] Hkv%elem_of_map_to_list. cbn [fst].
    unfold opt_get, get_prop, field. rewrite Hkv.
    destruct (UpdateHandler.differs _ _ _); split; intros [? [=]]; by eexists.
Qed.

End Verify.

(** Synchronising a partial state (a colour) and verifying it. *)
Lemma synced_state_verifies_witness :
  let state := VObj {[ "color" := str "#112233" ]} in
  let out := UpdateHandler.syncVehicleState state sampleStore in
  out.2 = Ok true
  ∧ UpdateHandler.verifyVehicleState (λ v, Some (to_string (RT:=refRuntime) v))
      state out.1 = (out.1, Ok true).
Proof.
  split; [reflexivity|].
  exact (synced_state_verifies (λ v, Some (to_string (RT:=refRuntime) v))
           (VObj {[ "color" := str "#112233" ]}) sampleStore _ eq_refl).
Defined.

(* ===================================================================== *)
(** ** What a click leaves alone                                         *)
(* ===================================================================== *)

Section ClickFrame.
Variable worldNormal : DecalOverlay.Vec3 → DecalOverlay.Vec3.
Variable eulerFromNormal : DecalOverlay.Vec3 → DecalOverlay.Vec3.

(** [s'] has the decals of [s], except that those with the id [target]
    may have a new position, rotation and normal. *)
Local Abbreviation replaced target s s' :=
  (length (DecalOverlay.decals s') = length (DecalOverlay.decals s)
   ∧ ∀ i d, DecalOverlay.decals s !! i = Some d →
       ∃ d', DecalOverlay.decals s' !! i = Some d'
             ∧ DecalOverlay.id d' = DecalOverlay.id d
             ∧ DecalOverlay.imageUrl d' = DecalOverlay.imageUrl d
             ∧ DecalOverlay.fileName d' = DecalOverlay.fileName d
             ∧ DecalOverlay.scale d' = DecalOverlay.scale d
             ∧ DecalOverlay.opacity d' = DecalOverlay.opacity d
             ∧ (target ≠ Some (DecalOverlay.id d) → d' = d)).

Lemma replaced_same target s s' :
  DecalOverlay.decals s' = DecalOverlay.decals s → replaced target s s'.
Proof. intros ->. split; [done|]. intros i d Hd. exists d. by repeat split. Qed.

Lemma replaced_updateDecal target position rotation normal s s' :
  DecalOverlay.decals s' = DecalOverlay.decals s →
  replaced (Some target) s
    (DecalOverlay.updateDecal target
       {| DecalOverlay.u_position := position; DecalOverlay.u_rotation := rotation;
          DecalOverlay.u_scale := None; DecalOverlay.u_opacity := None;
          DecalOverlay.u_normal := normal |} s').
Proof.
  intros Hsame. unfold DecalOverlay.updateDecal. cbn [DecalOverlay.decals].
  rewrite Hsame. split; [by rewrite length_fmap|].
  intros i d Hd. rewrite list_lookup_fmap, Hd. cbn.
  destruct (String.eqb_spec (DecalOverlay.id d) target) as [Heq|Hne].
  - eexists. split; [done|]. repeat split; try done. intros H. by destruct H; f_equal.
  - exists d. by repeat split.
Qed.

Ltac nothing :=
  split; [done|]; split; [by apply replaced_same|first [done | by f_equal]].

(** A click never adds, removes or reorders decals, never changes the id,
    image, file name, scale or opacity of a decal, and never touches a
    decal other than the one it is aimed at; a click that does not land
    changes nothing at all; and only a landed click in placement mode, with
    a decal to place, changes the mode and the selection: it ends placement
    mode and selects the newest decal. *)
Theorem click_changes_one_decal (event : DecalOverlay.Click) (s : DecalOverlay.DecalState) :
  let s' := DecalOverlay.handleClick worldNormal eulerFromNormal event s in
  (lands event s = false → s' = s)
  ∧ replaced (click_target s) s s'
  ∧ (DecalOverlay.placementMode s', DecalOverlay.selectedDecalId s')
    = if lands event s && DecalOverlay.placementMode s
         && bool_decide (DecalOverlay.decals s ≠ [])
      then (false, DecalOverlay.id <$> last (DecalOverlay.decals s))
      else (DecalOverlay.placementMode s, DecalOverlay.selectedDecalId s).
Proof.
  cbv zeta. unfold DecalOverlay.handleClick, lands.
  destruct (DecalOverlay.button event =? 0)%Z; cbn [negb andb];
    [|nothing].
  destruct (DecalOverlay.on_canvas event); rewrite ?andb_false_r; cbn [negb andb];
    [rewrite ?andb_true_r
    |destruct (negb _ && negb _); nothing].
  destruct (DecalOverlay.hit event) as [intersection|]; rewrite ?andb_false_r;
    cbn [negb andb];
    [|destruct (negb _ && negb _); nothing].
  destruct (DecalOverlay.face intersection) as [face_normal|];
    [rewrite bool_decide_eq_true_2 by (by eexists)
    |rewrite bool_decide_eq_false_2 by (by intros [? [=]])];
    rewrite ?andb_false_r, ?andb_true_r; cbn [negb andb];
    [|destruct (negb _ && negb _); nothing].
  unfold click_target.
  destruct (DecalOverlay.placementMode s) eqn:Hmode; cbn [negb andb orb].
  - (* placement mode *)
    destruct (last (DecalOverlay.decals s)) as [newest|] eqn:Hlast.
    + assert (DecalOverlay.decals s ≠ []) as Hnonempty
        by (by intros Hnil; rewrite Hnil in Hlast).
      rewrite (bool_decide_eq_true_2 _ Hnonempty).
      split; [done|].
      destruct (DecalOverlay.id_truthy (Some (DecalOverlay.id newest)));
        (split; [first [by apply replaced_updateDecal | by apply replaced_same]|done]).
    + apply last_None in Hlast.
      rewrite (bool_decide_eq_false_2 (DecalOverlay.decals s ≠ []))
        by (by intros H; apply H).
      split; [done|].
      destruct (DecalOverlay.selectedDecalId s) as [target|] eqn:Hselected;
        [destruct (DecalOverlay.id_truthy (Some target))|];
        (split;
          [first [by apply replaced_updateDecal | by apply replaced_same]
          |by cbn; rewrite ?Hmode, ?Hselected]).
  - (* no placement mode *)
    destruct (DecalOverlay.id_truthy (DecalOverlay.selectedDecalId s)) eqn:Hselected;
      cbn [negb andb]; [|nothing].
    split; [done|].
    destruct (DecalOverlay.selectedDecalId s) as [target|] eqn:Htarget; [|done].
    split; [by apply replaced_updateDecal|by cbn; rewrite Hmode, Htarget].
Qed.

End ClickFrame.

(* ===================================================================== *)
(** ** Finding the vehicle mesh                                          *)
(* ===================================================================== *)

Section Mesh.

Lemma candidate_vertices object n :
  DecalOverlay.candidate object = Some n → DecalOverlay.vertices object = Some n.
Proof.
  unfold DecalOverlay.candidate. destruct (DecalOverlay.isMesh object); [|done].
  destruct (DecalOverlay.vertices object) as [v|]; [|done].
  destruct (_ && _); [|done]. by intros [= ->].
Qed.

Lemma visit_chosen scene found object :
  chosen scene found →
  chosen (scene ++ [object]) (DecalOverlay.visit found object).
Proof.
  unfold chosen, DecalOverlay.visit.
  destruct (DecalOverlay.candidate object) as [vertexCount|] eqn:Hcandidate.
  - destruct found as [mesh|].
    + intros (before & after & n & -> & Hmesh & Hvertices & Hbefore & Hafter).
      rewrite Hvertices. cbn [default from_option id].
      destruct (Nat.ltb_spec n vertexCount) as [Hlt|Hge].
      * exists (before ++ mesh :: after)%list, [], vertexCount.
        split; [done|]. split; [done|].
        split; [by apply candidate_vertices|]. split; [|by apply Forall_nil].
        apply Forall_app. split.
        { eapply Forall_impl; [exact Hbefore|]. intros o Ho k Hk. specialize (Ho k Hk). lia. }
        apply Forall_cons. split.
        { intros k Hk. rewrite Hmesh in Hk. injection Hk as <-. lia. }
        eapply Forall_impl; [exact Hafter|]. intros o Ho k Hk. specialize (Ho k Hk). lia.
      * exists before, (after ++ [object])%list, n.
        split; [by rewrite <- app_assoc|]. split; [done|]. split; [done|].
        split; [done|]. apply Forall_app. split; [done|].
        apply Forall_cons. split; [|by apply Forall_nil].
        intros k Hk. rewrite Hcandidate in Hk. injection Hk as <-. lia.
    + intros Hnone. exists scene, [], vertexCount.
      split; [done|]. split; [done|]. split; [by apply candidate_vertices|].
      split; [|by apply Forall_nil].
      eapply Forall_impl; [exact Hnone|]. intros o Ho k Hk. by rewrite Ho in Hk.
  - destruct found as [mesh|]; cbn.
    + intros (before & after & n & -> & Hmesh & Hvertices & Hbefore & Hafter).
      exists before, (after ++ [object])%list, n.
      split; [by rewrite <- app_assoc|]. split; [done|]. split; [done|].
      split; [done|]. apply Forall_app. split; [done|].
      apply Forall_cons. split; [|by apply Forall_nil].
      intros k Hk. by rewrite Hcandidate in Hk.
    + intros Hnone. apply Forall_app. split; [done|].
      apply Forall_cons. split; [done|by apply Forall_nil].
Qed.

Lemma traversal_chosen scene : chosen scene (foldl DecalOverlay.visit None scene).
Proof.
  induction scene as [|object scene IH] using rev_ind; [by apply Forall_nil|].
  rewrite foldl_app. cbn. by apply visit_chosen.
Qed.

(** [findVehicleMesh] finds no mesh exactly when the scene has no
    candidate (a mesh with a position attribute and more than 100 vertices,
    at most ten levels below a group named "Body"); otherwise it finds the
    first candidate, in traversal order, among those with the most
    vertices. *)
Theorem findVehicleMesh_picks_first_largest (scene : list DecalOverlay.SceneObject) :
  match DecalOverlay.findVehicleMesh scene with
  | None => Forall (λ object, DecalOverlay.candidate object = None) scene
  | Some mesh =>
      ∃ before after n,
        scene = (before ++ mesh :: after)%list
        ∧ DecalOverlay.candidate mesh = Some n
        ∧ (100 < n)%nat
        ∧ DecalOverlay.isInBody mesh = true
        ∧ Forall (λ object, ∀ k, DecalOverlay.candidate object = Some k → (k < n)%nat) before
        ∧ Forall (λ object, ∀ k, DecalOverlay.candidate object = Some k → (k ≤ n)%nat) after
  end.
Proof.
  pose proof (traversal_chosen scene) as H. unfold DecalOverlay.findVehicleMesh.
  destruct (foldl DecalOverlay.visit None scene) as [mesh|]; [|exact H].
  destruct H as (before & after & n & Hscene & Hmesh & _ & Hbefore & Hafter).
  exists before, after, n. split; [done|]. split; [done|].
  unfold DecalOverlay.candidate in Hmesh.
  destruct (DecalOverlay.isMesh mesh); [|done].
  destruct (DecalOverlay.vertices mesh) as [v|]; [|done].
  destruct (DecalOverlay.isInBody mesh); [|done]. cbn [andb] in Hmesh.
  destruct (Nat.ltb_spec 100 v); [|done]. injection Hmesh as <-. by repeat split.
Qed.

End Mesh.

(* ===================================================================== *)
(** ** Values that are skipped rather than refused                       *)
(* ===================================================================== *)

Section Skipped.
Context {RT : JsRuntime}.
Variable vehicleConfigs : Catalog.

(** A [wheel_offset] that does not parse as a number is neither reported
    nor written: [setWheelConfiguration] behaves as if it had not been
    given. *)
Theorem unparsable_wheel_offset_is_ignored
    (params : gmap string jsval) (offset : jsval) (s : Store) :
  params !! "wheel_offset" = Some offset →
  isNaN (parseFloat offset) = true →
  SceneHandlers.setWheelConfiguration vehicleConfigs (VObj params) s
  = SceneHandlers.setWheelConfiguration vehicleConfigs
      (VObj (delete "wheel_offset" params)) s.
Proof.
  intros Hoffset Hnan.
  unfold SceneHandlers.setWheelConfiguration. f_equal.
  unfold SceneHandlers.wheel_checks. cbn [get_prop mbind result_bind].
  rewrite lookup_delete_eq, Hoffset. rewrite !lookup_delete_ne by done.
  cbn [object_prototype is_inherited existsb]. rewrite Hnan.
  by rewrite andb_false_r.
Qed.

(** The agent command [change_rims] never fails on its identifier: a
    [rim_id] that the catalog lacks is skipped, the colours given with it
    are written all the same, and the command counts as applied. *)
Theorem unknown_rim_is_skipped (update : Command) (params : gmap string jsval)
    (s : Store) :
  command_type update = VStr "change_rims" →
  parameters update = VObj params →
  truthy (index (rims vehicleConfigs) (field params "rim_id")) = false →
  ∃ s',
    UpdateHandler.applyVehicleUpdate vehicleConfigs update s = (s', Ok true)
    ∧ currentVehicle s' !! "rim" = currentVehicle s !! "rim"
    ∧ (∀ color, params !! "color" = Some color → color ≠ VUndef →
                currentVehicle s' !! "rim_color" = Some color)
    ∧ (∀ color, params !! "secondary_color" = Some color → color ≠ VUndef →
                currentVehicle s' !! "rim_color_secondary" = Some color).
Proof.
  intros Htype Hparams Hunknown.
  unfold UpdateHandler.applyVehicleUpdate. rewrite Htype, Hparams.
  cbn [switch_case]. change (find _ all_commands) with (Some ChangeRims).
  cbn [UpdateHandler.handler]. unfold UpdateHandler.handleChangeRims. unfold_m.
  cbn [get_prop]. fold (field params "rim_id"). unfold UpdateHandler.set_if_known.
  rewrite Hunknown. cbn [negb].
  assert ((if defined (field params "rim_id") then (∅ : gmap string jsval) else ∅) = ∅)
    as -> by (by destruct (defined _)).
  eexists. split; [reflexivity|]. cbn [currentVehicle].
  unfold UpdateHandler.set_if_defined. split; [|split].
  - rewrite lookup_union.
    destruct (defined _), (defined _);
      rewrite ?lookup_insert_ne, lookup_empty by done;
      by rewrite (left_id None _).
  - intros color Hcolor Hdefined. rewrite Hcolor.
    assert (defined color = true) as -> by (by destruct color).
    rewrite lookup_union.
    destruct (defined _);
      rewrite ?lookup_insert_ne, lookup_insert_eq by done;
      by destruct (currentVehicle s !! "rim_color").
  - intros color Hcolor Hdefined. rewrite Hcolor.
    assert (defined color = true) as -> by (by destruct color).
    rewrite lookup_union.
    destruct (defined match params !! "color" with Some x => x | None => _ end);
      rewrite lookup_insert_eq; by destruct (currentVehicle s !! "rim_color_secondary").
Qed.

(** The id of a saved vehicle comes from the clock alone: a second save in
    the same millisecond replaces the record of the first. *)
Theorem same_millisecond_save_overwrites
    (first second : jsval) (now stamp stamp' : jsnum) (s s1 s2 : Store)
    (r1 r2 : SceneHandlers.HandlerResult) :
  SceneHandlers.saveVehicle first now stamp s = (s1, Ok r1) →
  SceneHandlers.success r1 = true →
  SceneHandlers.saveVehicle second now stamp' s1 = (s2, Ok r2) →
  SceneHandlers.success r2 = true →
  SceneHandlers.saveVehicle second now stamp' s = (s2, Ok r2).
Proof.
  unfold SceneHandlers.saveVehicle. unfold_m.
  destruct (negb (truthy first) || _ || _); cbn; [by intros [= <- <-]|].
  intros [= <- <-] _. cbn [currentVehicle savedVehicles].
  destruct (negb (truthy second) || _ || _); cbn; [by intros [= <- <-]|].
  intros [= <- <-] _. f_equal. f_equal.
  set (id := "vehicle_" +:+ num_to_string now).
  assert (id ≠ "current") as Hid by apply vehicle_id_not_pointer.
  apply map_eq. intros k.
  destruct (decide (k = "current")) as [->|Hk]; [by rewrite !lookup_insert_eq|].
  rewrite !(lookup_insert_ne _ "current") by done.
  destruct (decide (k = id)) as [->|Hk']; [by rewrite !lookup_insert_eq|].
  by rewrite !lookup_insert_ne by done.
Qed.

End Skipped.

(** [{rim: "toyota_trd", wheel_offset: "wide"}] is applied as
    [{rim: "toyota_trd"}]. *)
Lemma unparsable_wheel_offset_is_ignored_witness :
  SceneHandlers.setWheelConfiguration (RT:=refRuntime) sampleCatalog
    (VObj (<["rim" := str "toyota_trd"]> {[ "wheel_offset" := str "wide" ]})) sampleStore
  = SceneHandlers.setWheelConfiguration (RT:=refRuntime) sampleCatalog
      (VObj (delete "wheel_offset"
               (<["rim" := str "toyota_trd"]> {[ "wheel_offset" := str "wide" ]})))
      sampleStore.
Proof.
  exact (unparsable_wheel_offset_is_ignored (RT:=refRuntime) sampleCatalog
           (<["rim" := str "toyota_trd"]> {[ "wheel_offset" := str "wide" ]})
           (str "wide") sampleStore eq_refl eq_refl).
Defined.

(** [change_rims({rim_id: "bogus", color: "#000000"})]: the rim stays, the
    colour is written. *)
Lemma unknown_rim_is_skipped_witness :
  let params : gmap string jsval :=
    <["rim_id" := str "bogus"]> {[ "color" := str "#000000" ]} in
  ∃ s',
    UpdateHandler.applyVehicleUpdate (RT:=refRuntime) sampleCatalog
      (command "change_rims" params) sampleStore = (s', Ok true)
    ∧ currentVehicle s' !! "rim" = currentVehicle sampleStore !! "rim"
    ∧ (∀ color, params !! "color" = Some color → color ≠ VUndef →
                currentVehicle s' !! "rim_color" = Some color)
    ∧ (∀ color, params !! "secondary_color" = Some color → color ≠ VUndef →
                currentVehicle s' !! "rim_color_secondary" = Some color).
Proof.
  exact (unknown_rim_is_skipped (RT:=refRuntime) sampleCatalog
           (command "change_rims" (<["rim_id" := str "bogus"]> {[ "color" := str "#000000" ]}))
           (<["rim_id" := str "bogus"]> {[ "color" := str "#000000" ]})
           sampleStore eq_refl eq_refl eq_refl).
Defined.

(** Two saves at the same reading of the clock. *)
Lemma same_millisecond_save_overwrites_witness :
  let now := num_of_Z 1700000000000 in
  let out1 := SceneHandlers.saveVehicle (RT:=refRuntime) (str "First") now now sampleStore in
  let out2 := SceneHandlers.saveVehicle (RT:=refRuntime) (str "Second") now now out1.1 in
  SceneHandlers.saveVehicle (RT:=refRuntime) (str "Second") now now sampleStore = out2.
Proof.
  exact (same_millisecond_save_overwrites (RT:=refRuntime) (str "First") (str "Second")
           (num_of_Z 1700000000000) (num_of_Z 1700000000000) (num_of_Z 1700000000000)
           sampleStore _ _ _ _ eq_refl eq_refl eq_refl eq_refl).
Defined.
